(** * GitHub profile analyzer: the scoring engine of [gtp.py]

    A shallow embedding of the class [GitHubProfileAnalyzer] and of the
    Python arithmetic it runs on, followed by the properties of the
    specification that can be stated about it.

    - [Float]: binary64 arithmetic.  A float is the rational number it
      denotes; every operation is the exact operation followed by rounding
      to nearest, ties to even, with 53 bits of precision and gradual
      underflow.
    - [Py]: the fragment of the Python runtime the engine uses: exceptions,
      true division of integers, mixed int/float arithmetic, [min],
      [round(x, 2)], the [.0f] format, [str.replace], [len].
    - [GitHubProfileAnalyzer]: the metric functions, the score composer,
      the feedback generator and [analyze_profile].  [datetime.now()] is a
      clock that is read once for every event and every repository that
      is tested for recency, so the engine is a function of its inputs and
      of the sequence of clock readings.  The reading that the fetch of
      the events takes for its own request is left to the data source.
    - [ResultsPage], [AnimatedLabel]: the texts [display_results] sets on
      the labels of the results page, and the stops of the gradient that
      [paintEvent] paints with. *)

From Stdlib Require Import ZArith QArith Qround Qpower Qabs Qreduction.
From Stdlib Require Import Lia Lqa String Ascii List DecimalString Decimal.
From Stdlib Require SpecFloat.
From stdpp Require Import base gmap sets strings.

Open Scope Q_scope.

(** ** Binary64 arithmetic *)

Module Float.

(** Python's [float] is IEEE 754 binary64.  Only finite, non-negative
    values occur in the engine: an integer that is too large for a float
    raises [OverflowError] when it is converted or divided, and what the
    engine then adds and multiplies are ratios, weights and counts, far
    below the overflow threshold.  A float is therefore modelled by the
    rational it denotes, and [rnd] is the rounding every operation ends
    with.  The model has one zero: the negative zero of binary64, which
    compares equal to zero and differs from it only when printed, has no
    counterpart here.  It cannot come out of sums, products and quotients
    of non-negative numbers, which is what the engine computes on counts
    that are not negative. *)

Definition prec : Z := 53.
Definition emin : Z := -1022.
Definition emax : Z := 1024.

(** [2^e], for any integer exponent. *)
Definition pow2 (e : Z) : Q := 2 ^ e.

(** Nearest integer, ties to the even one. *)
Definition rne (x : Q) : Z :=
  let f := Qfloor x in
  match (x - inject_Z f ?= 1 # 2)%Q with
  | Lt => f
  | Gt => (f + 1)%Z
  | Eq => if Z.even f then f else (f + 1)%Z
  end.

(** For [x > 0], the exponent [e] with [2^e <= x < 2^(e+1)]. *)
Definition ilog2 (x : Q) : Z :=
  let e0 := (Z.log2 (Qnum x) - Z.log2 (Zpos (Qden x)))%Z in
  if Qle_bool (pow2 e0) x then e0 else (e0 - 1)%Z.

(** Exponent of the unit in the last place of the binade of [x]; below
    [2^emin] the spacing stays that of the subnormal numbers. *)
Definition qexp (x : Q) : Z := (Z.max (ilog2 x) emin - (prec - 1))%Z.

Definition rnd_pos (x : Q) : Q :=
  let q := pow2 (qexp x) in Qred (inject_Z (rne (x / q)) * q).

(** Round to nearest even; the result is in lowest terms, so two equal
    floats are the same term. *)
Definition rnd (x : Q) : Q :=
  match x ?= 0 with
  | Eq => 0
  | Gt => rnd_pos x
  | Lt => - rnd_pos (- x)
  end.

(** Largest magnitude is below [2^emax]; a rounded value at or beyond it
    has overflowed. *)
Definition finite (x : Q) : bool := negb (Qle_bool (pow2 emax) (Qabs x)).

(** The same operations in the Standard Library's specification of
    binary64, [SpecFloat] with 53 bits and exponents up to 1024, to which
    [rnd] is compared on the values the examples go through. *)
Definition to_spec (x : Q) : SpecFloat.spec_float :=
  SpecFloat.binary_normalize 53 1024 (Qnum x) (- Z.log2 (Zpos (Qden x))) false.

Definition of_spec (s : SpecFloat.spec_float) : option Q :=
  match s with
  | SpecFloat.S754_zero _ => Some 0
  | SpecFloat.S754_finite sign m e =>
      Some (Qred ((if sign then -1 else 1) * inject_Z (Zpos m) * pow2 e))
  | _ => None
  end.

Definition spec_mul (x y : Q) : option Q :=
  of_spec (SpecFloat.SFmul 53 1024 (to_spec x) (to_spec y)).
Definition spec_add (x y : Q) : option Q :=
  of_spec (SpecFloat.SFadd 53 1024 (to_spec x) (to_spec y)).
Definition spec_div (x y : Q) : option Q :=
  of_spec (SpecFloat.SFdiv 53 1024 (to_spec x) (to_spec y)).

End Float.

(** ** The Python runtime the engine runs on *)

Module Py.

(** *** Exceptions *)

Inductive exn : Type :=
  | KeyError (key : string)
  | ZeroDivisionError (msg : string)
  | OverflowError (msg : string)
  | Exception (msg : string).

(** [str(e)]; the text of a [KeyError] is the [repr] of the key. *)
Definition str (e : exn) : string :=
  match e with
  | KeyError key => ("'" ++ key ++ "'")%string
  | ZeroDivisionError msg | OverflowError msg | Exception msg => msg
  end.

(** A computation returns a value or raises. *)
Inductive res (A : Type) : Type :=
  | Ok (a : A)
  | Raise (e : exn).
Arguments Ok {A} a.
Arguments Raise {A} e.

Definition bind {A B} (m : res A) (k : A -> res B) : res B :=
  match m with
  | Ok a => k a
  | Raise e => Raise e
  end.

(** A computation that may also read the clock.  [now i] is what the
    [i]-th call of [datetime.now()] returns, in microseconds; the state is
    the number of calls made so far. *)
Definition clock : Type := nat -> Z.
Definition M (A : Type) : Type := nat -> res A * nat.

Definition ret {A} (a : A) : M A := fun i => (Ok a, i).
Definition raise {A} (e : exn) : M A := fun i => (Raise e, i).
Definition lift {A} (m : res A) : M A := fun i => (m, i).
Definition mbind {A B} (m : M A) (k : A -> M B) : M B :=
  fun i =>
    match m i with
    | (Ok a, j) => k a j
    | (Raise e, j) => (Raise e, j)
    end.

Definition datetime_now (now : clock) : M Z := fun i => (Ok (now i), S i).

(** [timedelta(days=d)], in microseconds. *)
Definition timedelta (days : Z) : Z := (days * 86400 * 1000000)%Z.

(** *** Numbers *)

Definition float : Type := Q.

(** A decimal literal denotes the nearest float. *)
Definition lit (q : Q) : float := Float.rnd q.

Definition fadd (x y : float) : float := Float.rnd (x + y).
Definition fmul (x y : float) : float := Float.rnd (x * y).

(** [float(n)] for an int [n], as done implicitly in mixed arithmetic. *)
Definition to_float (n : Z) : res float :=
  let x := Float.rnd (inject_Z n) in
  if Float.finite x then Ok x
  else Raise (OverflowError "int too large to convert to float").

(** [a / b] on two ints: the correctly rounded quotient. *)
Definition truediv (a b : Z) : res float :=
  if (b =? 0)%Z then Raise (ZeroDivisionError "division by zero")
  else
    let x := Float.rnd (inject_Z a / inject_Z b) in
    if Float.finite x then Ok x
    else Raise (OverflowError "integer division result too large for a float").

(** [x / y] on two floats. *)
Definition fdiv (x y : float) : res float :=
  if Qeq_bool y 0 then Raise (ZeroDivisionError "float division by zero")
  else Ok (Float.rnd (x / y)).

(** [min(x, y)]: the first argument unless the second is smaller. *)
Definition min (x y : float) : float := if Qle_bool x y then x else y.

(** A variable that holds an int until a float is added to it. *)
Inductive num : Type :=
  | Int (n : Z)
  | Flt (x : float).

(** [s + i] for an int [i]. *)
Definition add_int (s : num) (i : Z) : res num :=
  match s with
  | Int n => Ok (Int (n + i))
  | Flt x => bind (to_float i) (fun y => Ok (Flt (fadd x y)))
  end.

(** [s + y] for a float [y]. *)
Definition add_float (s : num) (y : float) : res num :=
  match s with
  | Int n => bind (to_float n) (fun x => Ok (Flt (fadd x y)))
  | Flt x => Ok (Flt (fadd x y))
  end.

(** [s / d] for an int [d]. *)
Definition div_int (s : num) (d : Z) : res float :=
  match s with
  | Int n => truediv n d
  | Flt x => bind (to_float d) (fun y => fdiv x y)
  end.

(** [round(x, 2)]: the float nearest to the two-decimal number nearest to
    the exact value of [x], ties to even. *)
Definition round2 (x : float) : float :=
  Float.rnd (inject_Z (Float.rne (x * 100)) / 100).

(** *** Strings and sequences *)

Definition decimal (n : Z) : string := NilZero.string_of_uint (N.to_uint (Z.to_N n)).

(** [f"{x:.0f}"]: the integer nearest to the exact value of [x], ties to
    even, keeping the sign of a negative [x] that rounds to zero.  Python
    prints the negative zero as [-0]; the model, which has one zero,
    prints [0], so the function stands for the format on every float but
    the negative zero. *)
Definition format_0f (x : float) : string :=
  let n := Float.rne x in
  ((if Qle_bool 0 x then "" else "-") ++ decimal (Z.abs n))%string.

(** [s.replace(a, b)] for one-character [a] and [b]. *)
Fixpoint replace (a b : ascii) (s : string) : string :=
  match s with
  | EmptyString => EmptyString
  | String c s' => String (if Ascii.eqb c a then b else c) (replace a b s')
  end.

(** [len(s)] for a [str] held in UTF-8: bytes [10xxxxxx] continue a
    character, every other byte starts one. *)
Fixpoint len_str (s : string) : Z :=
  match s with
  | EmptyString => 0
  | String c s' =>
      ((if (N.land (N_of_ascii c) 192 =? 128)%N then 0 else 1) + len_str s')%Z
  end.

Definition len {A} (l : list A) : Z := Z.of_nat (length l).

(** [sum(...)] over ints. *)
Definition sum (l : list Z) : Z := fold_left Z.add l 0%Z.

(** Truth value of a list and of a string-or-[None]. *)
Definition nonempty {A} (l : list A) : bool :=
  match l with nil => false | _ => true end.
Definition truthy (s : option string) : bool :=
  match s with
  | None | Some EmptyString => false
  | Some _ => true
  end.

(** A dict whose order of insertion matters; [d[key]] raises [KeyError]
    on a missing key. *)
Definition dict (V : Type) : Type := list (string * V).

Fixpoint getitem {V} (d : dict V) (key : string) : res V :=
  match d with
  | nil => Raise (KeyError key)
  | (k, v) :: d' => if String.eqb k key then Ok v else getitem d' key
  end.

(** [r[key]] on a record whose key may be missing. *)
Definition subscript {V} (key : string) (field : option V) : res V :=
  match field with
  | Some v => Ok v
  | None => Raise (KeyError key)
  end.

(** [r.get(key, default)]. *)
Definition get {V} (field : option V) (default : V) : V :=
  match field with
  | Some v => v
  | None => default
  end.

(** [filter] with a test that reads the clock, in list order. *)
Fixpoint filterM {A} (p : A -> M bool) (l : list A) : M (list A) :=
  match l with
  | nil => ret nil
  | a :: l' =>
      mbind (p a) (fun keep =>
      mbind (filterM p l') (fun rest =>
      ret (if keep then a :: rest else rest)))
  end.

(** A [for] loop that threads an accumulator and stops at the first
    exception. *)
Fixpoint for_each {A S} (body : S -> A -> res S) (l : list A) (s : S) : res S :=
  match l with
  | nil => Ok s
  | a :: l' => bind (body s a) (for_each body l')
  end.

End Py.

Notation "x <- m ;; k" := (Py.bind m (fun x => k))
  (at level 100, m at next level, right associativity).
Notation "x <~ m ;; k" := (Py.mbind m (fun x => k))
  (at level 100, m at next level, right associativity).

(** ** Records exchanged with the engine *)

(** The records are the JSON objects of the hosting platform's API.  A key
    that the engine reads with [.get] or that may be missing is an
    [option]: [None] is a missing key.  A JSON [null] is the inner [None]
    of [language] and the [None] of [description].  A timestamp field
    holds the instant, in microseconds, that
    [datetime.fromisoformat(s.replace('Z', ''))] parses from its text. *)

Module Profile.
Record t : Type := mk {
  followers : option Z;
  following : option Z;
  avatar_url : option string
}.
End Profile.

Module Repo.
Record t : Type := mk {
  language : option (option string);
  topics : option (list string);
  forks_count : Z;
  fork : bool;
  has_wiki : bool;
  description : option string;
  has_issues : bool;
  stargazers_count : Z;
  size : Z;
  updated_at : Z
}.
End Repo.

Module Event.
Record t : Type := mk {
  created_at : Z
}.
End Event.

(** The dictionary [analyze_profile] returns. *)
Module Bundle.
Record t : Type := mk {
  score : Py.float;
  metrics : Py.dict Py.float;
  strengths : list string;
  weaknesses : list string;
  recommendations : list string;
  appreciation : string;
  avatar_url : string
}.
End Bundle.

(** The data source: what the three fetches of [GitHubAPI] answer for a
    user name, a value or the exception the fetch raises.  The requests
    themselves are not modelled.  In particular [get_user_contributions]
    reads [datetime.now()] once, for the [since] parameter of its
    request, before it answers; that reading is part of the fetch and is
    not one of the readings that the clock state of [Py.M] counts, which
    are those of the recency tests of the analyzer.  A clock state in a
    statement about [analyze_profile] is therefore a number of recency
    tests, not a number of calls of [datetime.now()]. *)
Module GitHubAPI.
Record t : Type := mk {
  get_user_profile : string -> Py.res Profile.t;
  get_user_repos : string -> Py.res (list Repo.t);
  get_user_contributions : string -> Py.res (list Event.t)
}.

(** A source that answers with three given collections. *)
Definition frozen (profile : Profile.t) (repos : list Repo.t)
    (contributions : list Event.t) : t :=
  {| get_user_profile := fun _ => Py.Ok profile;
     get_user_repos := fun _ => Py.Ok repos;
     get_user_contributions := fun _ => Py.Ok contributions |}.
End GitHubAPI.

(** ** The analyzer *)

Module GitHubProfileAnalyzer.
Import Py.

Definition weights : dict float :=
  [ ("activity", lit 0.3);
    ("diversity", lit 0.2);
    ("community", lit 0.2);
    ("documentation", lit 0.15);
    ("code_quality", lit 0.15) ]%string.

(** [min(a / b, 1.0)] on two ints. *)
Definition ratio (a b : Z) : res float :=
  x <- truediv a b ;; Ok (min x 1).

(** [stamp > datetime.now() - timedelta(days=days)]: one clock reading. *)
Definition is_recent (now : clock) (days : Z) (stamp : Z) : M bool :=
  t <~ datetime_now now ;; ret (t - timedelta days <? stamp)%Z.

Definition _calculate_activity_metric (now : clock)
    (contributions : list Event.t) (repos : list Repo.t) : M float :=
  if negb (nonempty contributions) then ret 0
  else
    recent_events <~
      filterM (fun e => is_recent now 30 (Event.created_at e)) contributions ;;
    let event_count := len recent_events in
    recent_repos <~
      filterM (fun r => is_recent now 90 (Repo.updated_at r)) repos ;;
    let repo_count := len recent_repos in
    event_score <~ lift (ratio event_count 30) ;;
    repo_score <~
      lift (if nonempty repos then ratio repo_count (len repos) else Ok 0) ;;
    ret (fadd (fmul event_score (lit 0.6)) (fmul repo_score (lit 0.4))).

(** Loop bodies of the diversity metric. *)
Definition add_language (languages : gset string) (repo : Repo.t)
    : res (gset string) :=
  l <- subscript "language" (Repo.language repo) ;;
  Ok (match l with
      | Some s => if truthy l then {[ s ]} ∪ languages else languages
      | None => languages
      end).

Definition add_topics (topics : gset string) (repo : Repo.t)
    : res (gset string) :=
  if nonempty (get (Repo.topics repo) [])
  then ts <- subscript "topics" (Repo.topics repo) ;;
       Ok (list_to_set ts ∪ topics)
  else Ok topics.

Definition _calculate_diversity_metric (repos : list Repo.t) : res float :=
  if negb (nonempty repos) then Ok 0
  else
    languages <- for_each add_language repos ∅ ;;
    topics <- for_each add_topics repos ∅ ;;
    language_score <- ratio (Z.of_nat (base.size languages)) 5 ;;
    topic_score <- ratio (Z.of_nat (base.size topics)) 10 ;;
    Ok (fadd (fmul language_score (lit 0.7)) (fmul topic_score (lit 0.3))).

(** [sum(1 for repo in repos if test(repo))]. *)
Definition count (test : Repo.t -> bool) (repos : list Repo.t) : Z :=
  sum (map (fun _ => 1%Z) (List.filter test repos)).

Definition _calculate_community_metric (profile : Profile.t)
    (repos : list Repo.t) : res float :=
  let followers := get (Profile.followers profile) 0%Z in
  let following := get (Profile.following profile) 0%Z in
  let forks := sum (map Repo.forks_count repos) in
  let collaborations := count Repo.fork repos in
  follower_score <- ratio followers 100 ;;
  following_score <- ratio following 50 ;;
  fork_score <-
    (if nonempty repos then ratio forks (len repos * 5) else Ok 0) ;;
  collab_score <-
    (if nonempty repos then ratio collaborations (len repos) else Ok 0) ;;
  Ok (fadd (fadd (fadd (fmul follower_score (lit 0.3))
                       (fmul following_score (lit 0.2)))
                 (fmul fork_score (lit 0.3)))
           (fmul collab_score (lit 0.2))).

(** The three counters of the documentation loop. *)
Record doc_counts : Type := mk_counts {
  readme_count : Z;
  wiki_count : Z;
  description_count : Z
}.

Definition count_docs (c : doc_counts) (repo : Repo.t) : doc_counts :=
  let d := Repo.description repo in
  let wiki_count :=
    if Repo.has_wiki repo then (wiki_count c + 1)%Z else wiki_count c in
  let description_count :=
    if truthy d && (20 <? len_str (get d ""))%Z
    then (description_count c + 1)%Z else description_count c in
  let readme_count :=
    if truthy d then (readme_count c + 1)%Z else readme_count c in
  mk_counts readme_count wiki_count description_count.

Definition _calculate_documentation_metric (repos : list Repo.t) : res float :=
  if negb (nonempty repos) then Ok 0
  else
    let c := fold_left count_docs repos (mk_counts 0 0 0) in
    readme_score <- truediv (readme_count c) (len repos) ;;
    wiki_score <- truediv (wiki_count c) (len repos) ;;
    description_score <- truediv (description_count c) (len repos) ;;
    Ok (fadd (fadd (fmul readme_score (lit 0.5)) (fmul wiki_score (lit 0.3)))
             (fmul description_score (lit 0.2))).

(** Loop body of the size score: an int while only [1] has been added, a
    float from the first [0.5] on. *)
Definition add_size (size_score : num) (repo : Repo.t) : res num :=
  let size := Repo.size repo in
  if (size <? 1000)%Z then add_int size_score 1
  else if (size <? 5000)%Z then add_float size_score (lit 0.5)
  else Ok size_score.

Definition _calculate_code_quality_metric (repos : list Repo.t) : res float :=
  if negb (nonempty repos) then Ok 0
  else
    let total_stars := sum (map Repo.stargazers_count repos) in
    avg_stars <- truediv total_stars (len repos) ;;
    let issues_count := count Repo.has_issues repos in
    size_score <- for_each add_size repos (Int 0) ;;
    size_score <- div_int size_score (len repos) ;;
    star_score <- (ten <- to_float 10 ;; x <- fdiv avg_stars ten ;; Ok (min x 1)) ;;
    issue_score <- truediv issues_count (len repos) ;;
    Ok (fadd (fadd (fmul star_score (lit 0.4)) (fmul issue_score (lit 0.3)))
             (fmul size_score (lit 0.3))).

Definition _calculate_metrics (now : clock) (profile : Profile.t)
    (repos : list Repo.t) (contributions : list Event.t) : M (dict float) :=
  activity <~ _calculate_activity_metric now contributions repos ;;
  diversity <~ lift (_calculate_diversity_metric repos) ;;
  community <~ lift (_calculate_community_metric profile repos) ;;
  documentation <~ lift (_calculate_documentation_metric repos) ;;
  code_quality <~ lift (_calculate_code_quality_metric repos) ;;
  ret [ ("activity", activity);
        ("diversity", diversity);
        ("community", community);
        ("documentation", documentation);
        ("code_quality", code_quality) ]%string.

Definition add_weighted (metrics : dict float) (total_score : float)
    (item : string * float) : res float :=
  let (metric, weight) := item in
  m <- getitem metrics metric ;; Ok (fadd total_score (fmul m weight)).

Definition _calculate_score (metrics : dict float) : res float :=
  total_score <- for_each (add_weighted metrics) weights 0 ;;
  Ok (fmul total_score 10).

(** ["{kind} {metric.replace('_', ' ')} ({(value*100):.0f}%)"]. *)
Definition describe (kind metric : string) (value : float) : string :=
  (kind ++ " " ++ replace "_" " " metric
        ++ " (" ++ format_0f (fmul value 100) ++ "%)")%string.

Definition _get_strengths (metrics : dict float) : list string :=
  let strengths :=
    flat_map (fun '(metric, value) =>
                if Qle_bool (lit 0.7) value
                then [describe "Strong" metric value] else [])
             metrics in
  if nonempty strengths then strengths
  else ["No significant strengths identified"%string].

Definition _get_weaknesses (metrics : dict float) : list string :=
  let weaknesses :=
    flat_map (fun '(metric, value) =>
                if Qle_bool value (lit 0.3)
                then [describe "Weak" metric value] else [])
             metrics in
  if nonempty weaknesses then weaknesses
  else ["No significant weaknesses identified"%string].

(** The advice given for each metric, in the order of the five tests. *)
Definition advice : list (string * string) :=
  [ ("activity",
     "Increase your activity by making regular commits and repository updates");
    ("diversity",
     "Expand your skill set by working with different programming languages");
    ("community",
     "Engage more with the community by contributing to other projects and following developers");
    ("documentation",
     "Improve documentation by adding README files, wikis, and clear descriptions");
    ("code_quality",
     "Focus on code quality by creating smaller, focused repositories with good issue tracking")
  ]%string.

(** [if metrics[metric] < 0.4: recommendations.append(text)]. *)
Definition recommend (metrics : dict float) (recommendations : list string)
    (item : string * string) : res (list string) :=
  let (metric, text) := item in
  v <- getitem metrics metric ;;
  Ok (if negb (Qle_bool (lit 0.4) v) then recommendations ++ [text]
      else recommendations).

Definition _get_recommendations (metrics : dict float) : res (list string) :=
  recommendations <- for_each (recommend metrics) advice [] ;;
  Ok (if nonempty recommendations then recommendations
      else ["Keep doing what you're doing! Your profile is well-balanced"%string]).

Definition _get_appreciation (score : float) : string :=
  if Qle_bool 8 score then "Outstanding GitHub Profile! ðŸŽ‰"
  else if Qle_bool 6 score then "Great GitHub Profile! ðŸ‘"
  else if Qle_bool 4 score then "Good Start! Keep Improving! ðŸ’ª"
  else "Your GitHub Journey Has Just Begun! ðŸš€".

(** [try: ... except Exception as e: raise Exception(f"Analysis failed: {str(e)}")]. *)
Definition wrap_failure {A} (m : M A) : M A :=
  fun i =>
    match m i with
    | (Raise e, j) => (Raise (Exception ("Analysis failed: " ++ str e)), j)
    | r => r
    end.

Definition analyze_profile (api : GitHubAPI.t) (now : clock)
    (username : string) : M Bundle.t :=
  wrap_failure
    (profile <~ lift (GitHubAPI.get_user_profile api username) ;;
     repos <~ lift (GitHubAPI.get_user_repos api username) ;;
     contributions <~ lift (GitHubAPI.get_user_contributions api username) ;;
     if negb (nonempty repos)
     then raise (Exception "No repositories found for this user")
     else
       metrics <~ _calculate_metrics now profile repos contributions ;;
       score <~ lift (_calculate_score metrics) ;;
       recommendations <~ lift (_get_recommendations metrics) ;;
       ret {| Bundle.score := round2 score;
              Bundle.metrics := metrics;
              Bundle.strengths := _get_strengths metrics;
              Bundle.weaknesses := _get_weaknesses metrics;
              Bundle.recommendations := recommendations;
              Bundle.appreciation := _get_appreciation score;
              Bundle.avatar_url := get (Profile.avatar_url profile) "" |}).

End GitHubProfileAnalyzer.

(** ** The specification's formulas *)

(** Definitions that follow the words of the specification, to be compared
    with the functions of the analyzer above. *)

Module Spec.
Import Py.

(** "The set of distinct non-null language values" (4.2); the analyzer
    tests the value for truth, which also leaves out the empty string. *)
Definition language_values (repos : list Repo.t) : list string :=
  flat_map (fun r => match Repo.language r with
                     | Some (Some (String c s)) => [String c s]
                     | _ => []
                     end) repos.

Definition distinct_languages (repos : list Repo.t) : gset string :=
  list_to_set (language_values repos).

(** "The set of distinct values across all topics sequences" (4.2). *)
Definition topic_values (repos : list Repo.t) : list string :=
  flat_map (fun r => get (Repo.topics r) []) repos.

Definition distinct_topics (repos : list Repo.t) : gset string :=
  list_to_set (topic_values repos).

(** "language_score = min(distinct_language_count / 5, 1.0); topic_score =
    min(distinct_topic_count / 10, 1.0); final value = 0.7 *
    language_score + 0.3 * topic_score.  Empty repository collection
    yields 0.0" (4.2). *)
Definition diversity (repos : list Repo.t) : float :=
  match repos with
  | [] => 0
  | _ =>
      let language_score :=
        min (Float.rnd (inject_Z (Z.of_nat (base.size (distinct_languages repos))) / 5)) 1 in
      let topic_score :=
        min (Float.rnd (inject_Z (Z.of_nat (base.size (distinct_topics repos))) / 10)) 1 in
      fadd (fmul (lit 0.7) language_score) (fmul (lit 0.3) topic_score)
  end.

(** "repo_score = min(recently-updated-repo count / total repo count,
    1.0)", for repositories updated within 90 days of one analysis time
    (4.1). *)
Definition recently_updated (analysis_time : Z) (repos : list Repo.t) : list Repo.t :=
  List.filter (fun r => (analysis_time - timedelta 90 <? Repo.updated_at r)%Z) repos.

Definition repo_score (analysis_time : Z) (repos : list Repo.t) : float :=
  min (Float.rnd (inject_Z (len (recently_updated analysis_time repos))
                  / inject_Z (len repos))) 1.

(** "round(10 * (0.30*activity + 0.20*diversity + 0.20*community +
    0.15*documentation + 0.15*code_quality), 2)" (8), evaluated as Python
    evaluates that expression. *)
Definition weighted_sum (activity diversity community documentation code_quality : float)
    : float :=
  fadd (fadd (fadd (fadd (fmul (lit 0.30) activity) (fmul (lit 0.20) diversity))
                   (fmul (lit 0.20) community))
             (fmul (lit 0.15) documentation))
       (fmul (lit 0.15) code_quality).

Definition composite (activity diversity community documentation code_quality : float)
    : float :=
  round2 (fmul 10 (weighted_sum activity diversity community documentation code_quality)).

(** A metric set: the five fixed names, in the order the engine builds
    them (3). *)
Definition metric_set (activity diversity community documentation code_quality : float)
    : dict float :=
  [ ("activity", activity);
    ("diversity", diversity);
    ("community", community);
    ("documentation", documentation);
    ("code_quality", code_quality) ]%string.

(** The data model of section 3: counts and sizes are non-negative. *)
Definition profile_conforms (p : Profile.t) : Prop :=
  (0 <= get (Profile.followers p) 0)%Z /\ (0 <= get (Profile.following p) 0)%Z.

Definition repo_conforms (r : Repo.t) : Prop :=
  (0 <= Repo.forks_count r)%Z /\ (0 <= Repo.stargazers_count r)%Z
  /\ (0 <= Repo.size r)%Z.

Definition conforms (p : Profile.t) (repos : list Repo.t) : Prop :=
  profile_conforms p /\ Forall repo_conforms repos /\ repos <> [].

End Spec.

(** ** Inputs used as examples *)

Module Examples.
Import Py.
Open Scope string_scope.

(** The example of section 8: one small Go repository, nobody followed. *)
Definition go_repo (updated : Z) : Repo.t :=
  {| Repo.language := Some (Some "Go");
     Repo.topics := Some [];
     Repo.forks_count := 0;
     Repo.fork := false;
     Repo.has_wiki := false;
     Repo.description := None;
     Repo.has_issues := false;
     Repo.stargazers_count := 0;
     Repo.size := 500;
     Repo.updated_at := updated |}.

Definition newcomer : Profile.t :=
  {| Profile.followers := Some 0%Z;
     Profile.following := Some 0%Z;
     Profile.avatar_url := None |}.

(** The same repository record without its [language] key. *)
Definition untyped_repo (updated : Z) : Repo.t :=
  {| Repo.language := None;
     Repo.topics := None;
     Repo.forks_count := 0;
     Repo.fork := false;
     Repo.has_wiki := false;
     Repo.description := None;
     Repo.has_issues := false;
     Repo.stargazers_count := 0;
     Repo.size := 500;
     Repo.updated_at := updated |}.

(** A profile whose follower count does not fit a float. *)
Definition crowd : Profile.t :=
  {| Profile.followers := Some (2 ^ 1100)%Z;
     Profile.following := Some 0%Z;
     Profile.avatar_url := None |}.

(** An analysis time, in microseconds, and the clock that stands still
    at it. *)
Definition noon : Z := 1700000000000000.
Definition still : clock := fun _ => noon.

(** Two clocks that read one microsecond before the next full second when
    a call starts: one stands still, the other advances by a microsecond
    per reading. *)
Definition late : clock := fun _ => (noon + 999999)%Z.
Definition ticking : clock := fun i => (noon + 999999 + Z.of_nat i)%Z.

(** A well kept account: five repositories in five languages with ten
    topics, documented, starred, all updated at [noon]; 29 events at
    [noon]; 7 accounts followed. *)
Definition kept_repo (language topic1 topic2 : string) : Repo.t :=
  {| Repo.language := Some (Some language);
     Repo.topics := Some [topic1; topic2];
     Repo.forks_count := 0;
     Repo.fork := false;
     Repo.has_wiki := true;
     Repo.description := Some "A library with a long enough description";
     Repo.has_issues := true;
     Repo.stargazers_count := 10;
     Repo.size := 500;
     Repo.updated_at := noon |}.

Definition kept_repos : list Repo.t :=
  [ kept_repo "Go" "cli" "http";
    kept_repo "Rust" "parser" "wasm";
    kept_repo "Python" "ml" "data";
    kept_repo "C" "kernel" "driver";
    kept_repo "OCaml" "proof" "types" ].

Definition busy_month : list Event.t := repeat (Event.mk noon) 29.

Definition maintainer : Profile.t :=
  {| Profile.followers := Some 0%Z;
     Profile.following := Some 7%Z;
     Profile.avatar_url := Some "https://example.org/a.png" |}.

(** A repository last updated 90 days before the second that follows
    [noon], and one event at [noon]. *)
Definition edge_repo : Repo.t := go_repo (noon + 1000000 - timedelta 90).
Definition one_event : list Event.t := [Event.mk noon].

(** A profile record without, or with another, [avatar_url]. *)
Definition without_avatar (p : Profile.t) : Profile.t :=
  {| Profile.followers := Profile.followers p;
     Profile.following := Profile.following p;
     Profile.avatar_url := None |}.

Definition with_avatar_url (url : string) (b : Bundle.t) : Bundle.t :=
  {| Bundle.score := Bundle.score b;
     Bundle.metrics := Bundle.metrics b;
     Bundle.strengths := Bundle.strengths b;
     Bundle.weaknesses := Bundle.weaknesses b;
     Bundle.recommendations := Bundle.recommendations b;
     Bundle.appreciation := Bundle.appreciation b;
     Bundle.avatar_url := url |}.

End Examples.

(** ** Sentences of the specification, as written *)

(** The sentences below are compared with the analyzer and found not to
    hold of it as they stand. *)

Module Stated.
Import Py GitHubProfileAnalyzer.

(** "Empty events list with non-empty repositories: activity metric uses
    only the repo-recency term (0.4 * repo_score)" (8). *)
Definition activity_without_events : Prop :=
  forall (now : clock) repos i,
    repos <> [] ->
    fst (_calculate_activity_metric now [] repos i)
    = Ok (fmul (lit 0.4) (Spec.repo_score (now i) repos)).

(** "No hidden time-of-day dependency beyond the now reference passed
    once per call" (8): the bundle is determined by the inputs and the
    time at which the call starts. *)
Definition single_now : Prop :=
  forall profile repos contributions username (now1 now2 : clock) i1 i2,
    now1 i1 = now2 i2 ->
    fst (analyze_profile (GitHubAPI.frozen profile repos contributions) now1 username i1)
    = fst (analyze_profile (GitHubAPI.frozen profile repos contributions) now2 username i2).

(** "Appreciation message: four-tier bucket on the composite score" (4.7),
    read on the rounded score the bundle reports. *)
Definition appreciation_of_reported_score : Prop :=
  forall api (now : clock) username i b j,
    analyze_profile api now username i = (Ok b, j) ->
    Bundle.appreciation b = _get_appreciation (Bundle.score b).

(** "diversity = 0.7*(1/5) = 0.14" (8): the product the example writes,
    evaluated in floats. *)
Definition example_diversity : float := fmul (lit 0.7) (Float.rnd (1 / 5)).

(** The diversity metric is total on the data model, in which [language]
    and [topics] may be absent (3, 4.2). *)
Definition diversity_total : Prop :=
  forall repos,
    exists v, _calculate_diversity_metric repos = Ok v /\ 0 <= v <= 1.

End Stated.

(** ** Predicates used in the statements *)

Module Bounds.
Import Float Py.

(** A float of the closed interval [0,1]. *)
Definition unit_float (v : Q) : Prop := 0 <= v /\ v <= 1 /\ rnd v = v.

(** [2^1023] is a float below the overflow threshold: a non-negative
    quotient whose numerator is below it rounds to a finite float. *)
Definition big : Z := (2 ^ 1023)%Z.

(** The integers the engine converts to float are in range: every count
    it divides, and the number of repositories, is below [2^1023]. *)
Definition in_float_range (profile : Profile.t) (repos : list Repo.t)
    (contributions : list Event.t) : Prop :=
  (get (Profile.followers profile) 0 < big)%Z
  /\ (get (Profile.following profile) 0 < big)%Z
  /\ (sum (map Repo.forks_count repos) < big)%Z
  /\ (sum (map Repo.stargazers_count repos) < big)%Z
  /\ (len contributions < big)%Z
  /\ (Z.of_nat (base.size (Spec.distinct_topics repos)) < big)%Z
  /\ (len repos < big)%Z.

(** After [k] repositories the size score is at most [k] while it is an
    int, and at most the float of [k] once it is a float. *)
Definition size_inv (k : Z) (st : num) : Prop :=
  match st with
  | Int c => (0 <= c <= k)%Z
  | Flt s => 0 <= s /\ s <= rnd (inject_Z k)
  end.

(** The recency filter as a function of the readings it consumes. *)
Fixpoint recent_from {A} (now : clock) (days : Z) (stamp : A -> Z)
    (l : list A) (i : nat) : list A :=
  match l with
  | [] => []
  | a :: l' =>
      let rest := recent_from now days stamp l' (S i) in
      if (now i - timedelta days <? stamp a)%Z then a :: rest else rest
  end.

End Bounds.

(** ** Further definitions: the engine at one instant *)

Module Snapshot.
Import Py GitHubProfileAnalyzer.

(** The events and the repositories that are recent at one instant. *)
Definition recent_events (instant : Z) (contributions : list Event.t) : list Event.t :=
  List.filter (fun e => (instant - timedelta 30 <? Event.created_at e)%Z) contributions.

Definition recent_repos (instant : Z) (repos : list Repo.t) : list Repo.t :=
  List.filter (fun r => (instant - timedelta 90 <? Repo.updated_at r)%Z) repos.

(** The activity metric as [_calculate_activity_metric] computes it when
    every reading of the clock is [instant]. *)
Definition activity (instant : Z) (contributions : list Event.t)
    (repos : list Repo.t) : res float :=
  if negb (nonempty contributions) then Ok 0
  else
    event_score <- ratio (len (recent_events instant contributions)) 30 ;;
    repo_score <-
      (if nonempty repos
       then ratio (len (recent_repos instant repos)) (len repos) else Ok 0) ;;
    Ok (fadd (fmul event_score (lit 0.6)) (fmul repo_score (lit 0.4))).

(** A timestamp that is on the same side of the window of [days] days for
    every instant between [start] and [stop]. *)
Definition off_edge (days start stop stamp : Z) : Prop :=
  (stamp <= start - timedelta days \/ stop - timedelta days < stamp)%Z.

(** The number of times the activity metric reads the clock. *)
Definition readings (contributions : list Event.t) (repos : list Repo.t) : nat :=
  if nonempty contributions then (length contributions + length repos)%nat else 0%nat.

(** The size score in closed form.  A repository below 1000 adds 1 to
    the score and one below 5000 adds 0.5: counted in halves, 2 and 1. *)
Definition half_points (r : Repo.t) : Z :=
  if (Repo.size r <? 1000)%Z then 2%Z
  else if (Repo.size r <? 5000)%Z then 1%Z else 0%Z.

Definition size_score (repos : list Repo.t) : float :=
  Float.rnd (inject_Z (sum (map half_points repos)) / inject_Z (2 * len repos)).

(** The accumulator of the size loop holds exactly [h] halves. *)
Definition size_exact (h : Z) (st : num) : Prop :=
  match st with
  | Int c => h = (2 * c)%Z
  | Flt x => x = Float.rnd (inject_Z h / 2)
  end.

(** What the documentation loop tests on a repository. *)
Definition described (r : Repo.t) : bool := truthy (Repo.description r).
Definition well_described (r : Repo.t) : bool :=
  truthy (Repo.description r) && (20 <? len_str (get (Repo.description r) ""))%Z.

(** [r'] is documented at least as well as [r]. *)
Definition documented_no_less (r r' : Repo.t) : Prop :=
  (Repo.has_wiki r = true -> Repo.has_wiki r' = true)
  /\ (described r = true -> described r' = true)
  /\ (well_described r = true -> well_described r' = true).

(** [r'] has at least the stars of [r], issues enabled where [r] has
    them, and is in a size class at least as good. *)
Definition kept_no_worse (r r' : Repo.t) : Prop :=
  (0 <= Repo.stargazers_count r <= Repo.stargazers_count r')%Z
  /\ (Repo.has_issues r = true -> Repo.has_issues r' = true)
  /\ (half_points r <= half_points r')%Z.

End Snapshot.

(** ** Further inputs used as examples *)

Module Cases.
Import Py.
Open Scope string_scope.

(** A data source whose first fetch fails. *)
Definition offline : GitHubAPI.t :=
  {| GitHubAPI.get_user_profile :=
       fun _ => Raise (Exception "Failed to fetch profile: 404 Client Error");
     GitHubAPI.get_user_repos := fun _ => Ok [];
     GitHubAPI.get_user_contributions := fun _ => Ok [] |}.

End Cases.

(** ** The results page and the animated label *)

(** The dictionary handed to the results page.  The page reads every key
    with [.get]: [None] is a missing key. *)
Module Results.
Record t : Type := mk {
  score : option Py.float;
  metrics : option (Py.dict Py.float);
  strengths : option (list string);
  weaknesses : option (list string);
  recommendations : option (list string);
  appreciation : option string;
  avatar_url : option string
}.

(** The dictionary [analyze_profile] returns has all seven keys. *)
Definition of_bundle (b : Bundle.t) : t :=
  {| score := Some (Bundle.score b);
     metrics := Some (Bundle.metrics b);
     strengths := Some (Bundle.strengths b);
     weaknesses := Some (Bundle.weaknesses b);
     recommendations := Some (Bundle.recommendations b);
     appreciation := Some (Bundle.appreciation b);
     avatar_url := Some (Bundle.avatar_url b) |}.
End Results.

(** [ResultsPage.display_results]: the texts it sets on the labels of the
    page.  The avatar is fetched over the network; of it the model keeps
    the address that is requested, if any. *)
Module ResultsPage.
Import Py.
Open Scope string_scope.

(** [str(n)] for an int. *)
Definition show_int (n : Z) : string :=
  if (n <? 0)%Z then "-" ++ decimal (- n) else decimal n.

(** [f"{x:.2f}"]: the exact value of [x] rounded to two decimals, ties
    to even, printed with both decimals. *)
Definition format_2f (x : float) : string :=
  let n := Z.abs (Float.rne (x * 100)) in
  (if Qle_bool 0 x then "" else "-")
  ++ decimal (n / 100) ++ "." ++ decimal (n / 10 mod 10) ++ decimal (n mod 10).

(** [int(x)] for a float: the fraction is cut off. *)
Definition int (x : float) : Z :=
  if Qle_bool 0 x then Qfloor x else Qceiling x.

(** [s.title()] for a name in ASCII, as the keys of the metrics are: a
    letter that follows a letter is put in lower case, any other letter
    in upper case. *)
Fixpoint title_from (previous_is_cased : bool) (s : string) : string :=
  match s with
  | EmptyString => EmptyString
  | String c s' =>
      let n := N_of_ascii c in
      let lower := ((97 <=? n) && (n <=? 122))%N in
      let upper := ((65 <=? n) && (n <=? 90))%N in
      let c' :=
        if lower then (if previous_is_cased then c else ascii_of_N (n - 32))
        else if upper then (if previous_is_cased then ascii_of_N (n + 32) else c)
        else c in
      String c' (title_from (lower || upper) s')
  end.
Definition title (s : string) : string := title_from false s.

(** [sep.join(items)]. *)
Fixpoint join (sep : string) (items : list string) : string :=
  match items with
  | [] => ""
  | [s] => s
  | s :: rest => s ++ sep ++ join sep rest
  end.

Definition score_color (score : float) : string :=
  if Qle_bool 8 score then "#2ea44f"
  else if Qle_bool 5 score then "#e36209"
  else "#cb2431".

(** The text of the score label. *)
Definition score_html (color : string) (score : float) : string :=
  "
            <div style='font-size:48px; color:"
  ++ color
  ++ "'>"
  ++ format_2f score
  ++ "<span style='font-size:32px; color:#586069'>/10</span></div>
            <div style='font-size:16px; color:#586069'>Overall Profile Score</div>
        ".

(** One bar of the metrics label. *)
Definition metric_html (metric_color metric : string) (value : float) : string :=
  let percentage := int (fmul value 100) in
  "
                <div style='margin-bottom:8px;'>
                    <div style='font-weight:bold;'>"
  ++ title (replace "_" " " metric)
  ++ "</div>
                    <div style='width:100%; height:20px; background:#f6f8fa; border-radius:3px; margin:3px 0;'>
                        <div style='width:"
  ++ show_int percentage
  ++ "%; height:100%; background:"
  ++ metric_color
  ++ "; border-radius:3px;'></div>
                    </div>
                    <div style='text-align:right;'>"
  ++ show_int percentage
  ++ "%</div>
                </div>
                ".

Definition metrics_html (color : string) (metrics : dict float) : string :=
  if nonempty metrics
  then fold_left (fun html '(metric, value) => html ++ metric_html color metric value)
                 metrics ""
  else "No detailed metrics available.".

(** ["<br>... ".join([""] + items)]. *)
Definition bullets (items : list string) : string :=
  join "<br>â€¢ " ("" :: items).

Definition appreciation_html (appreciation : string) : string :=
  "
            <div style='font-size:18px; font-weight:bold; margin:20px 0 10px;'>"
  ++ appreciation
  ++ "</div>
            <div style='color:#586069;'>Keep up the great work on your GitHub journey!</div>
        ".

Record labels : Type := mk_labels {
  avatar_request : option string;
  score_label : string;
  metrics_label : string;
  strengths_label : string;
  weaknesses_label : string;
  recommendations_label : string;
  appreciation_label : string
}.

Definition display_results (results : Results.t) : labels :=
  let score := get (Results.score results) 0 in
  let color := score_color score in
  {| avatar_request :=
       match Results.avatar_url results with
       | Some (String c s) => Some (String c s)
       | _ => None
       end;
     score_label := score_html color score;
     metrics_label := metrics_html color (get (Results.metrics results) []);
     strengths_label :=
       bullets (get (Results.strengths results)
                    ["No significant strengths identified"]);
     weaknesses_label :=
       bullets (get (Results.weaknesses results)
                    ["No significant weaknesses identified"]);
     recommendations_label :=
       bullets (get (Results.recommendations results)
                    ["No specific recommendations at this time."]);
     appreciation_label :=
       appreciation_html (get (Results.appreciation results) "Analysis Complete.") |}.

End ResultsPage.

(** [AnimatedLabel.paintEvent]: the stops of the gradient it paints
    with, a position and a colour each, in the order they are set. *)
Module AnimatedLabel.
Import Py.
Open Scope string_scope.

Definition fsub (x y : float) : float := Float.rnd (x - y).

(** [max(x, y)]: the first argument unless the second is greater. *)
Definition max (x y : float) : float := if Qle_bool y x then x else y.

Definition stops (gradient_pos : float) : list (float * string) :=
  [ (max (lit 0.0) (fsub gradient_pos (lit 0.5)), "#6366f1");
    (gradient_pos, "#8b5cf6");
    (min (lit 1.0) (fadd gradient_pos (lit 0.5)), "#6366f1") ].

End AnimatedLabel.
(** * Properties *)

(** ** Rounding *)

Module FloatFacts.
Import Float.

Lemma pow2_pos e : 0 < pow2 e.
Proof. apply Qpower_0_lt. reflexivity. Qed.

Lemma pow2_add a b : pow2 (a + b) == pow2 a * pow2 b.
Proof. apply Qpower_plus. discriminate. Qed.

Lemma pow2_le a b : (a <= b)%Z -> pow2 a <= pow2 b.
Proof. intros H. apply Qpower_le_compat_l; [exact H | discriminate]. Qed.

Lemma pow2_lt a b : (a < b)%Z -> pow2 a < pow2 b.
Proof. intros H. apply Qpower_lt_compat_l; [exact H | reflexivity]. Qed.

Lemma pow2_lt_inv a b : pow2 a < pow2 b -> (a < b)%Z.
Proof. intros H. apply Qpower_lt_compat_l_inv with (q := 2); [exact H | reflexivity]. Qed.

Lemma pow2_Z e : (0 <= e)%Z -> pow2 e == inject_Z (2 ^ e).
Proof. intros H. unfold pow2. now rewrite Zpower_Qpower. Qed.

Lemma pow2_sub a b : pow2 (a - b) == pow2 a / pow2 b.
Proof.
  unfold Z.sub. rewrite pow2_add. unfold pow2 at 2. rewrite Qpower_opp. reflexivity.
Qed.

Lemma rne_Z z : rne (inject_Z z) = z.
Proof.
  unfold rne. rewrite Qfloor_Z.
  assert (E : inject_Z z - inject_Z z == 0) by ring.
  rewrite E. reflexivity.
Qed.

Lemma rne_floor x : (Qfloor x <= rne x <= Qfloor x + 1)%Z.
Proof.
  unfold rne. destruct (_ ?= _); [destruct (Z.even _) | |]; lia.
Qed.

Lemma rne_mono x y : x <= y -> (rne x <= rne y)%Z.
Proof.
  intros H. pose proof (Qfloor_resp_le _ _ H) as Hf.
  destruct (Z.eq_dec (Qfloor x) (Qfloor y)) as [E | N].
  - unfold rne. rewrite E.
    destruct (Qcompare_spec (x - inject_Z (Qfloor y)) (1 # 2));
    destruct (Qcompare_spec (y - inject_Z (Qfloor y)) (1 # 2));
    try (destruct (Z.even (Qfloor y))); try lia; exfalso; lra.
  - pose proof (rne_floor x). pose proof (rne_floor y). lia.
Qed.

#[global] Instance rne_comp : Proper (Qeq ==> eq) rne.
Proof.
  intros x y E. unfold rne. rewrite (Qfloor_comp _ _ E).
  assert (E' : x - inject_Z (Qfloor y) == y - inject_Z (Qfloor y)) by (rewrite E; reflexivity).
  rewrite (Qcompare_comp _ _ E' (1#2) (1#2) (Qeq_refl _)). reflexivity.
Qed.


Lemma Qmake_div n d : n # d == inject_Z n / inject_Z (Zpos d).
Proof. rewrite Qmake_Qdiv. reflexivity. Qed.

Lemma inject_Z_pow2 e : (0 <= e)%Z -> inject_Z (2 ^ e) == pow2 e.
Proof. intros H. symmetry. now apply pow2_Z. Qed.

Lemma ilog2_coarse x :
  0 < x ->
  let e0 := (Z.log2 (Qnum x) - Z.log2 (Zpos (Qden x)))%Z in
  pow2 (e0 - 1) <= x /\ x < pow2 (e0 + 1).
Proof.
  destruct x as [n d]. intros Hx. cbn [Qnum Qden].
  assert (Hn : (0 < n)%Z) by (unfold Qlt in Hx; cbn [Qnum Qden] in Hx; lia).
  pose proof (Z.log2_spec n Hn) as [Hn1 Hn2].
  pose proof (Z.log2_spec (Zpos d) (Pos2Z.is_pos d)) as [Hd1 Hd2].
  pose proof (Z.log2_nonneg n) as Hln.
  pose proof (Z.log2_nonneg (Zpos d)) as Hld.
  set (ln := Z.log2 n) in *. set (ld := Z.log2 (Zpos d)) in *.
  assert (Dpos : 0 < inject_Z (Zpos d)) by (rewrite <- (Zlt_Qlt 0); lia).
  rewrite Qmake_div. split.
  - apply Qle_shift_div_l; [exact Dpos |].
    apply Qle_trans with (pow2 (ln - ld - 1) * pow2 (ld + 1)).
    + apply Qmult_le_l; [apply pow2_pos |].
      rewrite <- inject_Z_pow2 by lia. rewrite <- Zle_Qle. unfold Z.succ in Hd2. lia.
    + rewrite <- pow2_add. replace (ln - ld - 1 + (ld + 1))%Z with ln by lia.
      rewrite <- inject_Z_pow2 by lia. now rewrite <- Zle_Qle.
  - apply Qlt_shift_div_r; [exact Dpos |].
    apply Qlt_le_trans with (pow2 (ln - ld + 1) * pow2 ld).
    + rewrite <- pow2_add. replace (ln - ld + 1 + ld)%Z with (ln + 1)%Z by lia.
      rewrite <- inject_Z_pow2 by lia. rewrite <- Zlt_Qlt. unfold Z.succ in Hn2. lia.
    + apply Qmult_le_l; [apply pow2_pos |].
      rewrite <- inject_Z_pow2 by lia. now rewrite <- Zle_Qle.
Qed.

Lemma ilog2_spec x : 0 < x -> pow2 (ilog2 x) <= x /\ x < pow2 (ilog2 x + 1).
Proof.
  intros Hx. destruct (ilog2_coarse x Hx) as [Hl Hu]. unfold ilog2.
  destruct (Qle_bool _ x) eqn:B.
  - apply Qle_bool_iff in B. split; assumption.
  - split; [exact Hl |].
    match goal with |- _ < pow2 (?a - 1 + 1) => replace (a - 1 + 1)%Z with a by lia end.
    apply Qnot_le_lt. intros C. apply Qle_bool_iff in C. congruence.
Qed.

Lemma ilog2_unique x e : pow2 e <= x -> x < pow2 (e + 1) -> ilog2 x = e.
Proof.
  intros Hl Hu.
  assert (Hx : 0 < x) by (eapply Qlt_le_trans; [apply (pow2_pos e) | exact Hl]).
  destruct (ilog2_spec x Hx) as [Sl Su].
  assert (ilog2 x < e + 1)%Z by (apply pow2_lt_inv; eapply Qle_lt_trans; eassumption).
  assert (e < ilog2 x + 1)%Z by (apply pow2_lt_inv; eapply Qle_lt_trans; eassumption).
  lia.
Qed.

Lemma ilog2_mono x y : 0 < x -> x <= y -> (ilog2 x <= ilog2 y)%Z.
Proof.
  intros Hx Hxy.
  assert (Hy : 0 < y) by (eapply Qlt_le_trans; eassumption).
  destruct (ilog2_spec x Hx) as [Sl _]. destruct (ilog2_spec y Hy) as [_ Su].
  assert (ilog2 x < ilog2 y + 1)%Z; [| lia].
  apply pow2_lt_inv. eapply Qle_lt_trans; [exact Sl |]. eapply Qle_lt_trans; eassumption.
Qed.

Lemma ilog2_comp x y : 0 < x -> x == y -> ilog2 x = ilog2 y.
Proof.
  intros Hx E. symmetry. destruct (ilog2_spec x Hx) as [Sl Su].
  apply ilog2_unique; rewrite <- E; assumption.
Qed.

Lemma qexp_mono x y : 0 < x -> x <= y -> (qexp x <= qexp y)%Z.
Proof. intros Hx Hxy. pose proof (ilog2_mono x y Hx Hxy). unfold qexp. lia. Qed.

Lemma qexp_min x : (emin - (prec - 1) <= qexp x)%Z.
Proof. unfold qexp. lia. Qed.

Lemma rnd_pos_eq x :
  rnd_pos x == inject_Z (rne (x / pow2 (qexp x))) * pow2 (qexp x).
Proof. unfold rnd_pos. apply Qred_correct. Qed.

Lemma rnd_pos_comp x y : 0 < x -> x == y -> rnd_pos x = rnd_pos y.
Proof.
  intros Hx E. unfold rnd_pos, qexp. rewrite (ilog2_comp x y Hx E).
  apply Qred_complete. rewrite E. reflexivity.
Qed.

(** The scaled significand of a positive number stays below [2^53]. *)
Lemma scaled_upper x : 0 < x -> x / pow2 (qexp x) < inject_Z (2 ^ prec).
Proof.
  intros Hx. destruct (ilog2_spec x Hx) as [_ Su].
  apply Qlt_shift_div_r; [apply pow2_pos |].
  rewrite (inject_Z_pow2 prec) by (unfold prec; lia). rewrite <- pow2_add.
  eapply Qlt_le_trans; [exact Su |]. apply pow2_le. unfold qexp. lia.
Qed.

(** In the normal range it is at least [2^52]. *)
Lemma scaled_lower x :
  0 < x -> (emin <= ilog2 x)%Z -> inject_Z (2 ^ (prec - 1)) <= x / pow2 (qexp x).
Proof.
  intros Hx Hn. destruct (ilog2_spec x Hx) as [Sl _].
  apply Qle_shift_div_l; [apply pow2_pos |].
  rewrite (inject_Z_pow2 (prec - 1)) by (unfold prec; lia). rewrite <- pow2_add.
  eapply Qle_trans; [| exact Sl]. apply pow2_le. unfold qexp. lia.
Qed.

Lemma rnd_pos_nonneg x : 0 < x -> 0 <= rnd_pos x.
Proof.
  intros Hx. rewrite rnd_pos_eq. apply Qmult_le_0_compat; [| apply Qlt_le_weak, pow2_pos].
  rewrite <- (Zle_Qle 0). rewrite <- (rne_Z 0). apply rne_mono.
  apply Qle_shift_div_l; [apply pow2_pos |]. rewrite Qmult_0_l. now apply Qlt_le_weak.
Qed.

Lemma rnd_pos_upper x : 0 < x -> rnd_pos x <= pow2 (qexp x + prec).
Proof.
  intros Hx. rewrite rnd_pos_eq, Z.add_comm, pow2_add.
  apply Qmult_le_compat_r; [| apply Qlt_le_weak, pow2_pos].
  rewrite <- (inject_Z_pow2 prec) by (unfold prec; lia). rewrite <- Zle_Qle.
  rewrite <- (rne_Z (2 ^ prec)). apply rne_mono. apply Qlt_le_weak. now apply scaled_upper.
Qed.

Lemma rnd_pos_lower x :
  0 < x -> (emin <= ilog2 x)%Z -> pow2 (ilog2 x) <= rnd_pos x.
Proof.
  intros Hx Hn. rewrite rnd_pos_eq.
  replace (ilog2 x) with ((prec - 1) + qexp x)%Z at 1 by (unfold qexp; lia).
  rewrite pow2_add. apply Qmult_le_compat_r; [| apply Qlt_le_weak, pow2_pos].
  rewrite <- (inject_Z_pow2 (prec - 1)) by (unfold prec; lia). rewrite <- Zle_Qle.
  rewrite <- (rne_Z (2 ^ (prec - 1))). apply rne_mono. now apply scaled_lower.
Qed.

Lemma rnd_pos_mono x y : 0 < x -> x <= y -> rnd_pos x <= rnd_pos y.
Proof.
  intros Hx Hxy.
  assert (Hy : 0 < y) by (eapply Qlt_le_trans; eassumption).
  pose proof (qexp_mono x y Hx Hxy) as He.
  destruct (Z.eq_dec (qexp x) (qexp y)) as [E | N].
  - rewrite !rnd_pos_eq, E.
    apply Qmult_le_compat_r; [| apply Qlt_le_weak, pow2_pos].
    rewrite <- Zle_Qle. apply rne_mono.
    apply Qmult_le_compat_r; [exact Hxy |].
    apply Qlt_le_weak, Qinv_lt_0_compat, pow2_pos.
  - assert (Hn : (emin <= ilog2 y)%Z) by (unfold qexp in *; lia).
    eapply Qle_trans; [apply rnd_pos_upper; exact Hx |].
    eapply Qle_trans; [| apply rnd_pos_lower; assumption].
    apply pow2_le. unfold qexp in *. lia.
Qed.


Lemma eq_trans_Qeq {a : Q} {b : Q} (E : Qred a == b) : a == b.
Proof. now rewrite <- (Qred_correct a). Qed.

Lemma rnd_pos_canon a b : rnd_pos a == rnd_pos b -> rnd_pos a = rnd_pos b.
Proof.
  intros E. unfold rnd_pos in *. apply Qred_complete.
  rewrite !Qred_correct in E. exact E.
Qed.

Lemma rnd_zero x : x == 0 -> rnd x = 0.
Proof. intros E. unfold rnd. rewrite (proj1 (Qeq_alt x 0) E). reflexivity. Qed.

Lemma rnd_positive x : 0 < x -> rnd x = rnd_pos x.
Proof. intros H. unfold rnd. rewrite (proj1 (Qgt_alt x 0) H). reflexivity. Qed.

Lemma rnd_negative x : x < 0 -> rnd x = - rnd_pos (- x).
Proof. intros H. unfold rnd. rewrite (proj1 (Qlt_alt x 0) H). reflexivity. Qed.

Lemma rnd_nonneg x : 0 <= x -> 0 <= rnd x.
Proof.
  intros H. destruct (Qlt_le_dec 0 x) as [P | N].
  - rewrite rnd_positive by exact P. now apply rnd_pos_nonneg.
  - rewrite rnd_zero by lra. apply Qle_refl.
Qed.

Lemma rnd_nonpos x : x <= 0 -> rnd x <= 0.
Proof.
  intros H. destruct (Qlt_le_dec x 0) as [P | N].
  - rewrite rnd_negative by exact P.
    assert (0 <= rnd_pos (- x)) by (apply rnd_pos_nonneg; lra). lra.
  - rewrite rnd_zero by lra. apply Qle_refl.
Qed.

(** Rounding is monotone. *)
Theorem rnd_mono x y : x <= y -> rnd x <= rnd y.
Proof.
  intros H. destruct (Qlt_le_dec 0 x) as [Px | Nx].
  - rewrite !rnd_positive by lra. now apply rnd_pos_mono.
  - destruct (Qlt_le_dec y 0) as [Ny | Py].
    + rewrite !rnd_negative by lra.
      assert (rnd_pos (- y) <= rnd_pos (- x)) by (apply rnd_pos_mono; lra). lra.
    + eapply Qle_trans; [apply rnd_nonpos; exact Nx | apply rnd_nonneg; exact Py].
Qed.

#[global] Instance rnd_comp : Proper (Qeq ==> eq) rnd.
Proof.
  intros x y E. destruct (Qlt_le_dec 0 x) as [Px | Nx].
  - rewrite !rnd_positive by lra. now apply rnd_pos_comp.
  - destruct (Qlt_le_dec x 0) as [Ny | Py].
    + rewrite !rnd_negative by lra. f_equal. apply rnd_pos_comp; lra.
    + rewrite !rnd_zero by lra. reflexivity.
Qed.

(** A significand below [2^53] scaled by a power of two no smaller than the
    least quantum is representable. *)
Lemma rnd_pos_repr m e :
  (0 < m < 2 ^ prec)%Z -> (emin - (prec - 1) <= e)%Z ->
  rnd_pos (inject_Z m * pow2 e) == inject_Z m * pow2 e.
Proof.
  intros Hm He. set (x := inject_Z m * pow2 e).
  assert (Hx : 0 < x).
  { apply Qmult_lt_0_compat; [rewrite <- (Zlt_Qlt 0); lia | apply pow2_pos]. }
  destruct (ilog2_spec x Hx) as [Sl _].
  assert (Hu : x < pow2 (e + prec)).
  { unfold x. rewrite Z.add_comm, pow2_add. apply Qmult_lt_compat_r; [apply pow2_pos |].
    rewrite <- (inject_Z_pow2 prec) by (unfold prec; lia). rewrite <- Zlt_Qlt. lia. }
  assert (Hl : (ilog2 x < e + prec)%Z).
  { apply pow2_lt_inv. eapply Qle_lt_trans; eassumption. }
  assert (Hq : (qexp x <= e)%Z) by (unfold qexp; lia).
  rewrite rnd_pos_eq.
  assert (E : x / pow2 (qexp x) == inject_Z (m * 2 ^ (e - qexp x))).
  { rewrite inject_Z_mult, (inject_Z_pow2 (e - qexp x)) by lia.
    rewrite pow2_sub. unfold x. field.
    apply Qnot_eq_sym, Qlt_not_eq, pow2_pos. }
  rewrite E, rne_Z, inject_Z_mult, (inject_Z_pow2 (e - qexp x)) by lia.
  rewrite pow2_sub. unfold x. field.
  apply Qnot_eq_sym, Qlt_not_eq, pow2_pos.
Qed.

(** Rounding is idempotent: a rounded value is representable. *)
Theorem rnd_idem x : rnd (rnd x) = rnd x.
Proof.
  assert (P : forall y, 0 < y -> rnd (rnd_pos y) = rnd_pos y).
  { intros y Hy.
    pose proof (rnd_pos_nonneg y Hy) as Hr.
    destruct (Qlt_le_dec 0 (rnd_pos y)) as [Pos | Z0].
    2:{ assert (E0 : rnd_pos y == 0) by lra. rewrite (rnd_zero _ E0).
        unfold rnd_pos in *. rewrite (Qred_complete _ 0 (eq_trans_Qeq E0)). reflexivity. }
    rewrite rnd_positive by exact Pos.
    set (r := rne (y / pow2 (qexp y))).
    assert (Er : rnd_pos y == inject_Z r * pow2 (qexp y)) by apply rnd_pos_eq.
    assert (Hr0 : (0 < r)%Z).
    { destruct (Z_lt_le_dec 0 r) as [|C]; [assumption | exfalso].
      assert (Hi : inject_Z r <= inject_Z 0) by (rewrite <- Zle_Qle; exact C).
      change (inject_Z 0) with 0 in Hi.
      pose proof (pow2_pos (qexp y)) as Hp. rewrite Er in Pos.
      revert Hi Hp Pos. generalize (inject_Z r) (pow2 (qexp y)). intros a b. nra. }
    assert (Hr1 : (r <= 2 ^ prec)%Z).
    { unfold r. rewrite <- (rne_Z (2 ^ prec)). apply rne_mono, Qlt_le_weak, scaled_upper, Hy. }
    assert (R : rnd_pos (rnd_pos y) == rnd_pos y).
    { destruct (Z.eq_dec r (2 ^ prec)%Z) as [Top | NTop].
      - assert (E2 : rnd_pos y == inject_Z (2 ^ (prec - 1)) * pow2 (qexp y + 1)).
        { rewrite Er, Top, pow2_add. change (pow2 1) with 2.
          rewrite (inject_Z_pow2 prec), (inject_Z_pow2 (prec - 1)) by (unfold prec; lia).
          change prec with (prec - 1 + 1)%Z at 1. rewrite pow2_add. change (pow2 1) with 2. ring. }
        rewrite (rnd_pos_comp _ _ Pos E2), E2.
        apply rnd_pos_repr; [unfold prec; lia | pose proof (qexp_min y); lia].
      - rewrite (rnd_pos_comp _ _ Pos Er), Er.
        apply rnd_pos_repr; [lia | apply qexp_min]. }
    apply rnd_pos_canon. exact R. }
  destruct (Qlt_le_dec 0 x) as [Px | Nx].
  - rewrite (rnd_positive x Px). now apply P.
  - destruct (Qlt_le_dec x 0) as [Ny | Py].
    + rewrite (rnd_negative x Ny).
      assert (Hy : 0 < - x) by lra. pose proof (rnd_pos_nonneg _ Hy) as Hr.
      destruct (Qlt_le_dec 0 (rnd_pos (- x))) as [Pos | Z0].
      * rewrite rnd_negative by lra.
        assert (E : - - rnd_pos (- x) == rnd_pos (- x)) by ring.
        assert (Hpp : 0 < - - rnd_pos (- x)) by lra.
        rewrite (rnd_pos_comp _ _ Hpp E).
        rewrite <- (rnd_positive _ Pos), (P _ Hy). reflexivity.
      * assert (E0 : rnd_pos (- x) == 0) by lra.
        rewrite rnd_zero by lra.
        unfold rnd_pos in *. rewrite (Qred_complete _ 0 (eq_trans_Qeq E0)). reflexivity.
    + rewrite !(rnd_zero x) by lra. now apply rnd_zero.
Qed.

(** *** Adding one to a rounded integer *)

Lemma Qfloor_unique x m : inject_Z m <= x -> x < inject_Z (m + 1) -> Qfloor x = m.
Proof.
  intros L U. pose proof (Qfloor_le x) as Fl. pose proof (Qlt_floor x) as Fu.
  assert (A : inject_Z (Qfloor x) < inject_Z (m + 1)) by lra.
  assert (B : inject_Z m < inject_Z (Qfloor x + 1)) by lra.
  rewrite <- Zlt_Qlt in A, B. lia.
Qed.

Lemma Qfloor_plus m d : 0 <= d -> d < 1 -> Qfloor (inject_Z m + d) = m.
Proof.
  intros D0 D1. apply Qfloor_unique; [lra |].
  rewrite inject_Z_plus. change (inject_Z 1) with 1. lra.
Qed.

Lemma rne_near m d : 0 <= d -> d < 1 # 2 -> rne (inject_Z m + d) = m.
Proof.
  intros D0 D1. unfold rne.
  rewrite (Qfloor_plus m d) by lra.
  destruct (Qcompare_spec (inject_Z m + d - inject_Z m) (1 # 2)); try reflexivity; exfalso; lra.
Qed.

Lemma rne_tie m : rne (inject_Z m + (1 # 2)) = if Z.even m then m else (m + 1)%Z.
Proof.
  unfold rne.
  rewrite (Qfloor_plus m (1 # 2)) by lra.
  destruct (Qcompare_spec (inject_Z m + (1 # 2) - inject_Z m) (1 # 2));
    try reflexivity; exfalso; lra.
Qed.

(** Half an integer that rounds upwards rounds to an even integer. *)
Lemma rne_half_up k :
  inject_Z k / 2 < inject_Z (rne (inject_Z k / 2)) ->
  Z.even (rne (inject_Z k / 2)) = true.
Proof.
  intros H. destruct (Z.Even_or_Odd k) as [[a ->] | [a ->]].
  - exfalso. assert (E : inject_Z (2 * a) / 2 == inject_Z a).
    { rewrite inject_Z_mult. change (inject_Z 2) with 2. field. }
    rewrite (rne_comp _ _ E), rne_Z, E in H. lra.
  - assert (E : inject_Z (2 * a + 1) / 2 == inject_Z a + (1 # 2)).
    { rewrite inject_Z_plus, inject_Z_mult. change (inject_Z 2) with 2.
      change (inject_Z 1) with 1. field. }
    rewrite (rne_comp _ _ E), rne_tie in *. rewrite E in H.
    destruct (Z.even a) eqn:Ea.
    + exfalso. lra.
    + rewrite Z.even_add, Ea. reflexivity.
Qed.

(** A significand [m] of 53 bits carrying an excess [d] of at most half a
    unit, exactly half only for an even [m], rounds to [m]. *)
Lemma rnd_pos_excess m e d :
  (2 ^ (prec - 1) <= m < 2 ^ prec)%Z -> (emin - (prec - 1) <= e)%Z ->
  0 <= d -> (d < 1 # 2 \/ (d == 1 # 2 /\ Z.even m = true)) ->
  rnd_pos ((inject_Z m + d) * pow2 e) == inject_Z m * pow2 e.
Proof.
  intros Hm He D0 D1. set (y := (inject_Z m + d) * pow2 e).
  pose proof (pow2_pos e) as Pe.
  assert (M0 : pow2 (prec - 1) <= inject_Z m).
  { rewrite <- (inject_Z_pow2 (prec - 1)) by (unfold prec; lia). rewrite <- Zle_Qle. lia. }
  assert (M1 : inject_Z m + 1 <= pow2 prec).
  { rewrite <- (inject_Z_pow2 prec) by (unfold prec; lia).
    change 1 with (inject_Z 1). rewrite <- inject_Z_plus, <- Zle_Qle. lia. }
  assert (D2 : d < 1) by (destruct D1 as [D1 | [D1 _]]; lra).
  assert (L : ilog2 y = (prec - 1 + e)%Z).
  { apply ilog2_unique; unfold y.
    - rewrite pow2_add. apply Qmult_le_compat_r; [lra | lra].
    - replace (prec - 1 + e + 1)%Z with (prec + e)%Z by lia. rewrite pow2_add.
      apply Qmult_lt_compat_r; [exact Pe | lra]. }
  assert (Q : qexp y = e) by (unfold qexp; rewrite L; lia).
  rewrite rnd_pos_eq, Q.
  assert (S : y / pow2 e == inject_Z m + d) by (unfold y; field; lra).
  rewrite S.
  destruct D1 as [D1 | [D1 Ev]].
  - now rewrite rne_near.
  - rewrite D1, rne_tie, Ev. reflexivity.
Qed.

(** When rounding moves an integer upwards, adding one to the result
    rounds back to it. *)
Lemma rnd_up_plus_one k :
  (0 <= k)%Z -> inject_Z k < rnd (inject_Z k) ->
  rnd (rnd (inject_Z k) + 1) == rnd (inject_Z k).
Proof.
  intros K0 Up. set (x := inject_Z k) in *.
  assert (Px : 0 < x).
  { destruct (Z.eq_dec k 0%Z) as [-> | N]; [vm_compute in Up; discriminate |].
    unfold x. rewrite <- (Zlt_Qlt 0). lia. }
  rewrite (rnd_positive x Px) in *.
  set (e := qexp x). set (r := rne (x / pow2 e)).
  pose proof (pow2_pos e) as Pe.
  assert (Er : rnd_pos x == inject_Z r * pow2 e) by apply rnd_pos_eq.
  assert (E1 : (1 <= e)%Z).
  { destruct (Z_lt_le_dec 0%Z e) as [|C]; [lia | exfalso].
    assert (S : x / pow2 e == inject_Z (k * 2 ^ (- e))).
    { rewrite inject_Z_mult, (inject_Z_pow2 (- e)) by lia.
      unfold pow2 at 2. rewrite Qpower_opp. fold (pow2 e). unfold x. field. lra. }
    assert (R : r = (k * 2 ^ (- e))%Z) by (unfold r; now rewrite S, rne_Z).
    rewrite Er, R, inject_Z_mult, (inject_Z_pow2 (- e)) in Up by lia.
    unfold pow2 at 1 in Up. rewrite Qpower_opp in Up. fold (pow2 e) in Up.
    assert (inject_Z k * / pow2 e * pow2 e == x) by (unfold x; field; lra).
    lra. }
  assert (L : ilog2 x = (e + (prec - 1))%Z) by (unfold e, qexp, emin, prec in *; lia).
  assert (R0 : (2 ^ (prec - 1) <= r)%Z).
  { unfold r. rewrite <- (rne_Z (2 ^ (prec - 1))). apply rne_mono.
    apply scaled_lower; [exact Px | unfold emin, prec in *; lia]. }
  assert (R1 : (r <= 2 ^ prec)%Z).
  { unfold r. rewrite <- (rne_Z (2 ^ prec)). apply rne_mono, Qlt_le_weak, scaled_upper, Px. }
  assert (Pr : 0 < rnd_pos x + 1) by (pose proof (rnd_pos_nonneg x Px); lra).
  rewrite (rnd_positive _ Pr).
  assert (Inv : / pow2 e == pow2 (- e)).
  { unfold pow2 at 2. now rewrite Qpower_opp. }
  destruct (Z.eq_dec r (2 ^ prec)%Z) as [Top | NTop].
  - (* the result is the next power of two *)
    assert (Ey : rnd_pos x + 1
                 == (inject_Z (2 ^ (prec - 1)) + pow2 (- (e + 1))) * pow2 (e + 1)).
    { rewrite Er, Top, Qmult_plus_distr_l, <- pow2_add.
      replace (- (e + 1) + (e + 1))%Z with 0%Z by lia. change (pow2 0) with 1.
      rewrite pow2_add. change (pow2 1) with 2.
      rewrite !inject_Z_pow2 by (unfold prec; lia).
      change prec with (prec - 1 + 1)%Z at 1. rewrite pow2_add. change (pow2 1) with 2. ring. }
    rewrite (rnd_pos_comp _ _ Pr Ey).
    rewrite rnd_pos_excess.
    + rewrite Er, Top, pow2_add. change (pow2 1) with 2.
      rewrite !inject_Z_pow2 by (unfold prec; lia).
      change prec with (prec - 1 + 1)%Z at 2. rewrite pow2_add. change (pow2 1) with 2. ring.
    + unfold prec. lia.
    + unfold emin, prec in *. lia.
    + apply Qlt_le_weak, pow2_pos.
    + left. apply Qle_lt_trans with (pow2 (-2)); [apply pow2_le; lia | reflexivity].
  - assert (Ey : rnd_pos x + 1 == (inject_Z r + pow2 (- e)) * pow2 e).
    { rewrite Er, Qmult_plus_distr_l, <- pow2_add.
      replace (- e + e)%Z with 0%Z by lia. change (pow2 0) with 1. reflexivity. }
    rewrite (rnd_pos_comp _ _ Pr Ey).
    rewrite rnd_pos_excess.
    + symmetry. exact Er.
    + lia.
    + unfold emin, prec in *. lia.
    + apply Qlt_le_weak, pow2_pos.
    + destruct (Z.eq_dec e 1%Z) as [E | N].
      * right. split; [rewrite E; reflexivity |].
        assert (S : x / pow2 e == inject_Z k / 2).
        { rewrite E. change (pow2 1) with 2. reflexivity. }
        assert (Rr : rne (inject_Z k / 2) = r) by (unfold r; now rewrite (rne_comp _ _ S)).
        rewrite <- Rr. apply rne_half_up. rewrite Rr, <- S.
        apply Qlt_shift_div_r; [exact Pe |]. rewrite <- Er. exact Up.
      * left. apply Qle_lt_trans with (pow2 (-2)); [apply pow2_le; lia | reflexivity].
Qed.

(** Counting in floating point never overtakes the count: one more than
    the float of [k] rounds to at most the float of [k + 1]. *)
Theorem rnd_succ_int k :
  (0 <= k)%Z -> rnd (rnd (inject_Z k) + 1) <= rnd (inject_Z (k + 1)).
Proof.
  intros K0. destruct (Qlt_le_dec (inject_Z k) (rnd (inject_Z k))) as [Up | Down].
  - rewrite (rnd_up_plus_one k K0 Up). apply rnd_mono.
    rewrite <- Zle_Qle. lia.
  - apply rnd_mono. rewrite inject_Z_plus. change (inject_Z 1) with 1. lra.
Qed.

(** *** Agreement with the Standard Library's binary64 *)

(** On the operations the worked examples perform, rounding the exact
    result with [rnd] is what [SpecFloat] computes: products of weights,
    sums that tie, quotients of small integers and a subnormal quotient. *)
Lemma rnd_agrees_with_SpecFloat :
  spec_mul (rnd 0.2) (rnd 0.7) = Some (rnd (rnd 0.2 * rnd 0.7))
  /\ spec_mul (rnd 0.3) (rnd 0.15) = Some (rnd (rnd 0.3 * rnd 0.15))
  /\ spec_mul (rnd 7.996) 100 = Some (rnd (rnd 7.996 * 100))
  /\ spec_add (rnd 0.1) (rnd 0.2) = Some (rnd (rnd 0.1 + rnd 0.2))
  /\ spec_add (rnd 0.7) (rnd 0.3) = Some (rnd (rnd 0.7 + rnd 0.3))
  /\ spec_add (pow2 53) 1 = Some (rnd (pow2 53 + 1))
  /\ spec_add (pow2 53 + 2) 1 = Some (rnd (pow2 53 + 2 + 1))
  /\ spec_div 29 30 = Some (rnd (29 / 30))
  /\ spec_div 7 50 = Some (rnd (7 / 50))
  /\ spec_div 1 3 = Some (rnd (1 / 3))
  /\ spec_div (pow2 (-1060)) 3 = Some (rnd (pow2 (-1060) / 3)).
Proof. repeat split; vm_compute; reflexivity. Qed.

End FloatFacts.

(** ** Arithmetic of the runtime *)

Module PyFacts.
Import Float FloatFacts Py Bounds.

(** Closed comparisons of floats are decided by evaluation. *)
Ltac qle_compute := apply Qle_bool_iff; vm_compute; reflexivity.

Lemma unit_float_0 : unit_float 0.
Proof. repeat split; try qle_compute. Qed.

Lemma lit_float q : rnd (lit q) = lit q.
Proof. apply rnd_idem. Qed.

Lemma lit_nonneg q : 0 <= q -> 0 <= lit q.
Proof. apply rnd_nonneg. Qed.

Lemma fadd_float x y : rnd (fadd x y) = fadd x y.
Proof. apply rnd_idem. Qed.

Lemma fmul_float x y : rnd (fmul x y) = fmul x y.
Proof. apply rnd_idem. Qed.

Lemma fadd_mono x x' y y' : x <= x' -> y <= y' -> fadd x y <= fadd x' y'.
Proof. intros Hx Hy. apply rnd_mono. lra. Qed.

Lemma fadd_nonneg x y : 0 <= x -> 0 <= y -> 0 <= fadd x y.
Proof. intros Hx Hy. apply rnd_nonneg. lra. Qed.

Lemma fmul_mono x x' w : 0 <= w -> x <= x' -> fmul x w <= fmul x' w.
Proof. intros Hw Hx. apply rnd_mono. now apply Qmult_le_compat_r. Qed.

Lemma fmul_nonneg x w : 0 <= x -> 0 <= w -> 0 <= fmul x w.
Proof. intros Hx Hw. apply rnd_nonneg. now apply Qmult_le_0_compat. Qed.

Lemma fmul_comm x y : fmul x y = fmul y x.
Proof. unfold fmul. apply rnd_comp. ring. Qed.

Lemma fadd_0_l x : rnd x = x -> fadd 0 x = x.
Proof.
  intros F. unfold fadd. rewrite <- F at 2. apply rnd_comp. ring.
Qed.

Lemma min_cases x y : (x <= y /\ min x y = x) \/ (y < x /\ min x y = y).
Proof.
  unfold min. destruct (Qle_bool x y) eqn:B.
  - left. split; [now apply Qle_bool_iff | reflexivity].
  - right. split; [| reflexivity].
    apply Qnot_le_lt. intros C. apply Qle_bool_iff in C. congruence.
Qed.

Lemma min_unit x : 0 <= x -> rnd x = x -> unit_float (min x 1).
Proof.
  intros Hx Fx. destruct (min_cases x 1) as [[H ->] | [H ->]].
  - repeat split; assumption.
  - repeat split; try qle_compute.
Qed.

Lemma rnd_1 : rnd 1 = 1.
Proof. vm_compute. reflexivity. Qed.

Lemma rnd_big : rnd (inject_Z big) = inject_Z big.
Proof. vm_compute. reflexivity. Qed.

Lemma finite_below x : 0 <= x -> x <= inject_Z big -> finite (rnd x) = true.
Proof.
  intros H0 H1. unfold finite. apply negb_true_iff.
  destruct (Qle_bool _ _) eqn:B; [exfalso | reflexivity].
  apply Qle_bool_iff in B.
  rewrite Qabs_pos in B by now apply rnd_nonneg.
  pose proof (rnd_mono _ _ H1) as Hm. rewrite rnd_big in Hm.
  assert (L : inject_Z big < pow2 emax) by (apply Qlt_alt; vm_compute; reflexivity).
  lra.
Qed.

Lemma quotient_bounds a b :
  (0 <= a)%Z -> (0 < b)%Z ->
  0 <= inject_Z a / inject_Z b /\ inject_Z a / inject_Z b <= inject_Z a.
Proof.
  intros Ha Hb.
  assert (Qa : 0 <= inject_Z a) by (rewrite <- (Zle_Qle 0); exact Ha).
  assert (Qb : 1 <= inject_Z b) by (rewrite <- (Zle_Qle 1); lia).
  split.
  - apply Qle_shift_div_l; lra.
  - apply Qle_shift_div_r; [lra |]. nra.
Qed.

(** Integer true division of a non-negative numerator below [2^1023]. *)
Lemma truediv_ok a b :
  (0 <= a < big)%Z -> (0 < b)%Z ->
  truediv a b = Ok (rnd (inject_Z a / inject_Z b)).
Proof.
  intros Ha Hb. unfold truediv.
  destruct (Z.eqb_spec b 0) as [E | _]; [lia |].
  destruct (quotient_bounds a b) as [Q0 Q1]; [lia | lia |].
  rewrite finite_below; [reflexivity | exact Q0 |].
  eapply Qle_trans; [exact Q1 |]. rewrite <- Zle_Qle. lia.
Qed.

(** A proper fraction needs no bound on its terms. *)
Lemma truediv_fraction a b :
  (0 <= a <= b)%Z -> (0 < b)%Z ->
  truediv a b = Ok (rnd (inject_Z a / inject_Z b))
  /\ unit_float (rnd (inject_Z a / inject_Z b)).
Proof.
  intros Ha Hb.
  destruct (quotient_bounds a b) as [Q0 Q1]; [lia | lia |].
  assert (Qb : 0 < inject_Z b) by (rewrite <- (Zlt_Qlt 0); exact Hb).
  assert (Q2 : inject_Z a / inject_Z b <= 1).
  { apply Qle_shift_div_r; [exact Qb |]. rewrite Qmult_1_l, <- Zle_Qle. lia. }
  assert (U : unit_float (rnd (inject_Z a / inject_Z b))).
  { repeat split.
    - now apply rnd_nonneg.
    - rewrite <- rnd_1. now apply rnd_mono.
    - apply rnd_idem. }
  split; [| exact U].
  unfold truediv. destruct (Z.eqb_spec b 0) as [E | _]; [lia |].
  rewrite finite_below; [reflexivity | exact Q0 |].
  eapply Qle_trans; [exact Q2 |]. qle_compute.
Qed.

Lemma ratio_ok a b :
  (0 <= a < big)%Z -> (0 < b)%Z ->
  exists v, GitHubProfileAnalyzer.ratio a b = Ok v /\ unit_float v.
Proof.
  intros Ha Hb. unfold GitHubProfileAnalyzer.ratio.
  rewrite (truediv_ok a b Ha Hb). cbn [bind].
  eexists. split; [reflexivity |]. apply min_unit.
  - apply rnd_nonneg. apply quotient_bounds; lia.
  - apply rnd_idem.
Qed.

(** Non-negative integers up to [2^53] are floats. *)
Lemma rnd_int n : (0 <= n <= 2 ^ prec)%Z -> rnd (inject_Z n) == inject_Z n.
Proof.
  intros Hn.
  destruct (Z.eq_dec n 0%Z) as [-> | N0]; [reflexivity |].
  destruct (Z.eq_dec n (2 ^ prec)%Z) as [-> | NT]; [vm_compute; reflexivity |].
  assert (P : 0 < inject_Z n) by (rewrite <- (Zlt_Qlt 0); lia).
  rewrite (rnd_positive _ P).
  assert (E : inject_Z n == inject_Z n * pow2 0) by (change (pow2 0) with 1; ring).
  rewrite (rnd_pos_comp _ _ P E).
  rewrite rnd_pos_repr; [symmetry; exact E | lia | unfold emin, prec; lia].
Qed.

End PyFacts.

(** ** The metric functions *)

Module EngineFacts.
Import Float FloatFacts Py Bounds PyFacts GitHubProfileAnalyzer.

Lemma unit_ge0 v : unit_float v -> 0 <= v.
Proof. intros H. apply H. Qed.

Lemma unit_le1 v : unit_float v -> v <= 1.
Proof. intros H. apply H. Qed.

(** A weighted sum of unit floats is a unit float as soon as the sum of
    the rounded weights, accumulated in the same order, does not exceed 1;
    that last comparison is closed and evaluated. *)
Ltac nonneg :=
  match goal with
  | |- 0 <= fadd _ _ => apply fadd_nonneg; nonneg
  | |- 0 <= fmul _ _ => apply fmul_nonneg; nonneg
  | |- 0 <= lit _ => apply lit_nonneg; discriminate
  | |- 0 <= _ => apply unit_ge0; assumption
  end.

Ltac at_most_weights :=
  match goal with
  | |- fadd _ _ <= _ => apply fadd_mono; at_most_weights
  | |- fmul _ (lit _) <= _ =>
      apply fmul_mono; [apply lit_nonneg; discriminate | apply unit_le1; assumption]
  end.

Ltac weighted_sum :=
  repeat split;
  [ nonneg
  | eapply Qle_trans; [at_most_weights | qle_compute]
  | apply fadd_float ].

Lemma len_nonneg {A} (l : list A) : (0 <= len l)%Z.
Proof. unfold len. lia. Qed.

Lemma len_cons {A} (a : A) l : len (a :: l) = (len l + 1)%Z.
Proof. unfold len. cbn [length]. lia. Qed.

Lemma nonempty_len {A} (l : list A) : nonempty l = true -> (0 < len l)%Z.
Proof. destruct l; [discriminate | intros _; rewrite len_cons; pose proof (len_nonneg l); lia]. Qed.

(** *** Activity *)

(** The recency filter reads the clock once per element and never raises. *)
Lemma filterM_recent {A} (now : clock) (days : Z) (stamp : A -> Z) l i :
  exists l',
    filterM (fun a => is_recent now days (stamp a)) l i = (Ok l', (i + length l)%nat)
    /\ (len l' <= len l)%Z.
Proof.
  revert i. induction l as [| a l IH]; intros i.
  - exists []. cbn. rewrite Nat.add_0_r. split; [reflexivity | lia].
  - destruct (IH (S i)) as (l' & E & L).
    cbn [filterM]. unfold mbind at 1. unfold is_recent at 1, mbind at 1, datetime_now, ret at 1.
    unfold mbind. rewrite E. unfold ret.
    eexists. split.
    + f_equal. cbn [length]. lia.
    + rewrite len_cons. destruct (_ <? _)%Z; [rewrite len_cons |]; lia.
Qed.

Lemma activity_unit (now : clock) contributions repos i :
  (len contributions < big)%Z ->
  exists v j,
    _calculate_activity_metric now contributions repos i = (Ok v, j)
    /\ unit_float v.
Proof.
  intros B. unfold _calculate_activity_metric.
  destruct (nonempty contributions) eqn:NE; cbn [negb].
  2:{ exists 0, i. split; [reflexivity | apply unit_float_0]. }
  destruct (filterM_recent now 30 Event.created_at contributions i) as (es & Ee & Le).
  destruct (filterM_recent now 90 Repo.updated_at repos (i + length contributions))
    as (rs & Er & Lr).
  destruct (ratio_ok (len es) 30) as (e & Re & Ue);
    [pose proof (len_nonneg es); lia | lia |].
  assert (R : exists r, (if nonempty repos then ratio (len rs) (len repos) else Ok 0) = Ok r
                        /\ unit_float r).
  { destruct (nonempty repos) eqn:NR.
    - unfold ratio.
      destruct (truediv_fraction (len rs) (len repos)) as [T U];
        [pose proof (len_nonneg rs); lia | now apply nonempty_len |].
      rewrite T. cbn [bind]. eexists. split; [reflexivity |].
      apply min_unit; apply U.
    - exists 0. split; [reflexivity | apply unit_float_0]. }
  destruct R as (r & Rr & Ur).
  unfold mbind. rewrite Ee, Er. unfold lift. rewrite Re, Rr. unfold ret.
  do 2 eexists. split; [reflexivity |]. weighted_sum.
Qed.


(** *** Diversity *)

Lemma size_union_le (X Y : gset string) :
  (base.size (X ∪ Y) <= base.size X + base.size Y)%nat.
Proof.
  rewrite size_union_alt.
  assert (base.size (Y ∖ X) <= base.size Y)%nat
    by (apply subseteq_size, subseteq_difference_l; reflexivity).
  lia.
Qed.

Lemma size_list_to_set_le (l : list string) :
  (base.size (list_to_set l : gset string) <= length l)%nat.
Proof.
  induction l as [| s l IH]; cbn [list_to_set length].
  - rewrite size_empty. lia.
  - pose proof (size_union_le {[ s ]} (list_to_set l)) as U.
    rewrite size_singleton in U. lia.
Qed.

Lemma language_values_length repos :
  (length (Spec.language_values repos) <= length repos)%nat.
Proof.
  induction repos as [| r repos IH]; [cbn; lia |].
  unfold Spec.language_values in *. cbn [flat_map]. rewrite length_app. cbn [length].
  destruct (Repo.language r) as [[[| c s] |] |]; cbn [length]; lia.
Qed.

(** The first loop collects the true language values, provided every
    record has the key. *)
Lemma languages_loop repos (acc : gset string) :
  Forall (fun r => Repo.language r <> None) repos ->
  for_each add_language repos acc = Ok (list_to_set (Spec.language_values repos) ∪ acc).
Proof.
  intros H. revert acc. induction H as [| r repos Hr _ IH]; intros acc.
  - cbn. now rewrite (left_id_L ∅ (∪)).
  - cbn [for_each]. unfold add_language at 1.
    assert (E : Spec.language_values (r :: repos)
                = match Repo.language r with
                  | Some (Some (String c s)) => [String c s]
                  | _ => []
                  end ++ Spec.language_values repos) by reflexivity.
    rewrite E, list_to_set_app_L. clear E.
    destruct (Repo.language r) as [[[| c s] |] |]; [| | | congruence];
      cbn [subscript bind truthy]; rewrite IH; f_equal; cbn [list_to_set].
    + now rewrite (left_id_L ∅ (∪)).
    + rewrite (right_id_L ∅ (∪)), (assoc_L (∪) (list_to_set _)).
      now rewrite (comm_L (∪) (list_to_set _) {[String c s]}).
    + now rewrite (left_id_L ∅ (∪)).
Qed.

(** It raises [KeyError] as soon as one record lacks the key. *)
Lemma languages_loop_missing repos (acc : gset string) :
  Exists (fun r => Repo.language r = None) repos ->
  for_each add_language repos acc = Raise (KeyError "language").
Proof.
  intros H. revert acc. induction repos as [| r repos IH]; intros acc.
  - inversion H.
  - cbn [for_each]. unfold add_language at 1.
    destruct (Repo.language r) as [l |] eqn:E; [| reflexivity].
    cbn [subscript bind]. apply IH.
    inversion H as [? ? H0 | ? ? H0]; subst; [congruence | exact H0].
Qed.

Lemma diversity_missing_language repos :
  Exists (fun r => Repo.language r = None) repos ->
  _calculate_diversity_metric repos = Raise (KeyError "language").
Proof.
  intros H. unfold _calculate_diversity_metric.
  destruct repos as [| r repos]; [inversion H |].
  cbn [nonempty negb]. now rewrite (languages_loop_missing _ _ H).
Qed.

(** The second loop never raises: a missing [topics] key reads as no
    topics. *)
Lemma topics_loop repos (acc : gset string) :
  for_each add_topics repos acc = Ok (list_to_set (Spec.topic_values repos) ∪ acc).
Proof.
  revert acc. induction repos as [| r repos IH]; intros acc.
  - cbn. now rewrite (left_id_L ∅ (∪)).
  - cbn [for_each]. unfold add_topics at 1.
    assert (E : Spec.topic_values (r :: repos)
                = get (Repo.topics r) [] ++ Spec.topic_values repos) by reflexivity.
    rewrite E, list_to_set_app_L. clear E.
    destruct (Repo.topics r) as [[| t ts] |];
      cbn [get nonempty subscript bind]; rewrite IH; f_equal.
    + cbn [list_to_set]. now rewrite (left_id_L ∅ (∪)).
    + rewrite (assoc_L (∪) (list_to_set (Spec.topic_values repos))).
      now rewrite (comm_L (∪) (list_to_set (Spec.topic_values repos))).
    + cbn [list_to_set]. now rewrite (left_id_L ∅ (∪)).
Qed.

Lemma ratio_value a b :
  (0 <= a < big)%Z -> (0 < b)%Z ->
  ratio a b = Ok (min (rnd (inject_Z a / inject_Z b)) 1)
  /\ unit_float (min (rnd (inject_Z a / inject_Z b)) 1).
Proof.
  intros Ha Hb. unfold ratio. rewrite (truediv_ok a b Ha Hb). cbn [bind].
  split; [reflexivity |]. apply min_unit.
  - apply rnd_nonneg. apply quotient_bounds; lia.
  - apply rnd_idem.
Qed.

(** With every [language] key present the metric is the specification's
    formula and lies in the unit interval. *)
Lemma diversity_value repos :
  Forall (fun r => Repo.language r <> None) repos ->
  (Z.of_nat (base.size (Spec.distinct_languages repos)) < big)%Z ->
  (Z.of_nat (base.size (Spec.distinct_topics repos)) < big)%Z ->
  _calculate_diversity_metric repos = Ok (Spec.diversity repos)
  /\ unit_float (Spec.diversity repos).
Proof.
  intros HL BL BT. unfold _calculate_diversity_metric, Spec.diversity.
  destruct repos as [| r repos]; [split; [reflexivity | apply unit_float_0] |].
  cbn [nonempty negb].
  rewrite (languages_loop _ ∅ HL). cbn [bind]. rewrite topics_loop. cbn [bind].
  rewrite !(right_id_L ∅ (∪)).
  fold (Spec.distinct_languages (r :: repos)). fold (Spec.distinct_topics (r :: repos)).
  destruct (ratio_value (Z.of_nat (base.size (Spec.distinct_languages (r :: repos)))) 5)
    as [E1 U1]; [lia | lia |].
  destruct (ratio_value (Z.of_nat (base.size (Spec.distinct_topics (r :: repos)))) 10)
    as [E2 U2]; [lia | lia |].
  rewrite E1, E2. cbn [bind]. change (inject_Z 5) with 5. change (inject_Z 10) with 10.
  rewrite (fmul_comm (lit 0.7)), (fmul_comm (lit 0.3)).
  split; [reflexivity |]. weighted_sum.
Qed.


(** *** Sums and counts *)

Lemma fold_add_shift l a : fold_left Z.add l a = (a + fold_left Z.add l 0)%Z.
Proof.
  revert a. induction l as [| x l IH]; intros a; cbn [fold_left].
  - lia.
  - rewrite (IH (a + x)%Z), (IH (0 + x)%Z). lia.
Qed.

Lemma sum_cons x l : sum (x :: l) = (x + sum l)%Z.
Proof. unfold sum. cbn [fold_left]. rewrite fold_add_shift. lia. Qed.

Lemma sum_nonneg l : Forall (fun x => 0 <= x)%Z l -> (0 <= sum l)%Z.
Proof.
  induction 1 as [| x l Hx _ IH]; [unfold sum; cbn; lia |].
  rewrite sum_cons. lia.
Qed.

Lemma count_bounds test repos : (0 <= count test repos <= len repos)%Z.
Proof.
  unfold count. induction repos as [| r repos IH]; [unfold sum, len; cbn; lia |].
  rewrite len_cons. cbn [List.filter]. destruct (test r); [cbn [map]; rewrite sum_cons |]; lia.
Qed.

Lemma ratio_fraction a b :
  (0 <= a <= b)%Z -> (0 < b)%Z -> exists v, ratio a b = Ok v /\ unit_float v.
Proof.
  intros Ha Hb. unfold ratio. destruct (truediv_fraction a b Ha Hb) as [T U].
  rewrite T. cbn [bind]. eexists. split; [reflexivity |]. apply min_unit; apply U.
Qed.

(** *** Community *)

Lemma community_unit profile repos :
  Spec.profile_conforms profile -> Forall Spec.repo_conforms repos ->
  (get (Profile.followers profile) 0 < big)%Z ->
  (get (Profile.following profile) 0 < big)%Z ->
  (sum (map Repo.forks_count repos) < big)%Z ->
  exists v, _calculate_community_metric profile repos = Ok v /\ unit_float v.
Proof.
  intros [P1 P2] HR B1 B2 B3. unfold _calculate_community_metric.
  destruct (ratio_ok (get (Profile.followers profile) 0%Z) 100) as (f & Ef & Uf); [lia | lia |].
  destruct (ratio_ok (get (Profile.following profile) 0%Z) 50) as (g & Eg & Ug); [lia | lia |].
  rewrite Ef, Eg. cbn [bind].
  assert (F0 : (0 <= sum (map Repo.forks_count repos))%Z).
  { apply sum_nonneg. clear B3.
    induction HR as [| r rs Hr _ IH]; cbn [map]; constructor; [apply Hr | exact IH]. }
  destruct (nonempty repos) eqn:NE.
  - pose proof (nonempty_len _ NE) as L.
    destruct (ratio_ok (sum (map Repo.forks_count repos)) (len repos * 5))
      as (k & Ek & Uk); [lia | lia |].
    destruct (ratio_fraction (count Repo.fork repos) (len repos))
      as (c & Ec & Uc); [apply count_bounds | exact L |].
    rewrite Ek, Ec. cbn [bind]. eexists. split; [reflexivity |]. weighted_sum.
  - cbn [bind]. pose proof unit_float_0 as U0.
    eexists. split; [reflexivity |]. weighted_sum.
Qed.

(** *** Documentation *)

Lemma count_docs_step c r :
  (readme_count c <= readme_count (count_docs c r) <= readme_count c + 1)%Z
  /\ (wiki_count c <= wiki_count (count_docs c r) <= wiki_count c + 1)%Z
  /\ (description_count c <= description_count (count_docs c r)
      <= description_count c + 1)%Z.
Proof.
  unfold count_docs. cbn [readme_count wiki_count description_count].
  destruct (Repo.has_wiki r), (truthy (Repo.description r)),
    (20 <? len_str (get (Repo.description r) ""))%Z; cbn [andb]; lia.
Qed.

Lemma count_docs_bounds repos c :
  let c' := fold_left count_docs repos c in
  (readme_count c <= readme_count c' <= readme_count c + len repos)%Z
  /\ (wiki_count c <= wiki_count c' <= wiki_count c + len repos)%Z
  /\ (description_count c <= description_count c'
      <= description_count c + len repos)%Z.
Proof.
  revert c. induction repos as [| r repos IH]; intros c; cbn [fold_left].
  - unfold len. cbn. lia.
  - specialize (IH (count_docs c r)). cbn zeta in IH. rewrite len_cons.
    pose proof (count_docs_step c r). lia.
Qed.

(** The three ratios are proper fractions: the metric needs no clamp and
    no bound on the input. *)
Lemma documentation_unit repos :
  exists v, _calculate_documentation_metric repos = Ok v /\ unit_float v.
Proof.
  unfold _calculate_documentation_metric.
  destruct (nonempty repos) eqn:NE; cbn [negb].
  2:{ exists 0. split; [reflexivity | apply unit_float_0]. }
  pose proof (nonempty_len _ NE) as L.
  pose proof (count_docs_bounds repos (mk_counts 0 0 0)) as (B1 & B2 & B3).
  cbn zeta in B1, B2, B3. cbn [readme_count wiki_count description_count] in B1, B2, B3.
  set (c := fold_left count_docs repos (mk_counts 0 0 0)) in *.
  destruct (truediv_fraction (readme_count c) (len repos)) as [E1 U1]; [lia | lia |].
  destruct (truediv_fraction (wiki_count c) (len repos)) as [E2 U2]; [lia | lia |].
  destruct (truediv_fraction (description_count c) (len repos)) as [E3 U3]; [lia | lia |].
  rewrite E1, E2, E3. cbn [bind]. eexists. split; [reflexivity |]. weighted_sum.
Qed.


(** *** Code quality *)

Lemma to_float_ok n :
  (0 <= n < big)%Z -> to_float n = Ok (rnd (inject_Z n)).
Proof.
  intros Hn. unfold to_float. rewrite finite_below; [reflexivity | |].
  - rewrite <- (Zle_Qle 0). lia.
  - rewrite <- Zle_Qle. lia.
Qed.

Lemma to_float_1 : to_float 1 = Ok 1.
Proof. vm_compute. reflexivity. Qed.

Lemma half : lit 0.5 == 1 # 2.
Proof. vm_compute. reflexivity. Qed.

(** A float that is at most the float of [k], plus at most one, is at
    most the float of [k + 1]. *)
Lemma count_step k s c :
  (0 <= k)%Z -> s <= rnd (inject_Z k) -> c <= 1 ->
  rnd (s + c) <= rnd (inject_Z (k + 1)).
Proof.
  intros K0 Hs Hc. eapply Qle_trans; [| apply rnd_succ_int; exact K0].
  apply rnd_mono. lra.
Qed.

Lemma add_size_step k st r :
  (0 <= k < big)%Z -> size_inv k st ->
  exists st', add_size st r = Ok st' /\ size_inv (k + 1) st'.
Proof.
  intros Hk I. unfold add_size.
  destruct (Repo.size r <? 1000)%Z; [| destruct (Repo.size r <? 5000)%Z].
  - destruct st as [c | s]; cbn [add_int size_inv] in *.
    + eexists. split; [reflexivity |]. cbn [size_inv]. lia.
    + rewrite to_float_1. cbn [bind]. eexists. split; [reflexivity |].
      cbn [size_inv]. split.
      * apply rnd_nonneg. lra.
      * apply count_step; [lia | tauto | lra].
  - pose proof half as Hh.
    destruct st as [c | s]; cbn [add_float size_inv] in *.
    + rewrite to_float_ok by lia. cbn [bind]. eexists. split; [reflexivity |].
      cbn [size_inv].
      assert (C0 : 0 <= rnd (inject_Z c))
        by (apply rnd_nonneg; rewrite <- (Zle_Qle 0); lia).
      split.
      * apply rnd_nonneg. lra.
      * apply count_step; [lia | | lra].
        apply rnd_mono. rewrite <- Zle_Qle. lia.
    + eexists. split; [reflexivity |]. cbn [size_inv]. split.
      * apply rnd_nonneg. lra.
      * apply count_step; [lia | tauto | lra].
  - exists st. split; [reflexivity |].
    destruct st as [c | s]; cbn [size_inv] in *; [lia |].
    split; [tauto |]. eapply Qle_trans; [apply I |].
    apply rnd_mono. rewrite <- Zle_Qle. lia.
Qed.

Lemma size_loop repos k st :
  (0 <= k)%Z -> (k + len repos < big)%Z -> size_inv k st ->
  exists st', for_each add_size repos st = Ok st' /\ size_inv (k + len repos) st'.
Proof.
  revert k st. induction repos as [| r repos IH]; intros k st K0 K1 I.
  - exists st. split; [reflexivity |]. unfold len. cbn [length]. now rewrite Z.add_0_r.
  - rewrite len_cons in *. pose proof (len_nonneg repos).
    destruct (add_size_step k st r) as (st1 & E1 & I1); [lia | exact I |].
    destruct (IH (k + 1)%Z st1) as (st' & E' & I'); [lia | lia | exact I1 |].
    exists st'. cbn [for_each]. rewrite E1. cbn [bind]. split; [exact E' |].
    now replace (k + (len repos + 1))%Z with (k + 1 + len repos)%Z by lia.
Qed.

Lemma div_int_unit st n :
  (0 < n < big)%Z -> size_inv n st ->
  exists v, div_int st n = Ok v /\ unit_float v.
Proof.
  intros Hn I. destruct st as [c | s]; cbn [div_int size_inv] in *.
  - destruct (truediv_fraction c n) as [E U]; [lia | lia |]. eauto.
  - rewrite to_float_ok by lia. cbn [bind]. unfold fdiv.
    set (y := rnd (inject_Z n)) in *.
    assert (Py : 1 <= y).
    { unfold y. rewrite <- rnd_1. apply rnd_mono. rewrite <- (Zle_Qle 1). lia. }
    destruct (Qeq_bool y 0) eqn:Z0.
    { apply Qeq_bool_iff in Z0. lra. }
    eexists. split; [reflexivity |]. repeat split.
    + apply rnd_nonneg. apply Qle_shift_div_l; lra.
    + rewrite <- rnd_1. apply rnd_mono. apply Qle_shift_div_r; lra.
    + apply rnd_idem.
Qed.

Lemma to_float_10 : to_float 10 = Ok 10.
Proof. vm_compute. reflexivity. Qed.

Lemma code_quality_unit repos :
  Forall Spec.repo_conforms repos ->
  (len repos < big)%Z ->
  (sum (map Repo.stargazers_count repos) < big)%Z ->
  exists v, _calculate_code_quality_metric repos = Ok v /\ unit_float v.
Proof.
  intros HR BL BS. unfold _calculate_code_quality_metric.
  destruct (nonempty repos) eqn:NE; cbn [negb].
  2:{ exists 0. split; [reflexivity | apply unit_float_0]. }
  pose proof (nonempty_len _ NE) as L.
  assert (S0 : (0 <= sum (map Repo.stargazers_count repos))%Z).
  { apply sum_nonneg. clear BS BL NE L.
    induction HR as [| r rs Hr _ IH]; cbn [map]; constructor; [apply Hr | exact IH]. }
  rewrite (truediv_ok _ (len repos)) by lia. cbn [bind].
  set (avg_stars := rnd (_ / _)).
  assert (A0 : 0 <= avg_stars) by (apply rnd_nonneg, quotient_bounds; lia).
  destruct (size_loop repos 0 (Int 0)) as (st & Es & Is);
    [lia | lia | cbn; lia |].
  rewrite Es. cbn [bind]. rewrite Z.add_0_l in Is.
  destruct (div_int_unit st (len repos)) as (z & Ez & Uz); [lia | exact Is |].
  rewrite Ez. cbn [bind]. rewrite to_float_10. cbn [bind]. unfold fdiv.
  change (Qeq_bool 10 0) with false. cbn [bind].
  assert (Ustar : unit_float (min (rnd (avg_stars / 10)) 1)).
  { apply min_unit; [| apply rnd_idem]. apply rnd_nonneg. apply Qle_shift_div_l; lra. }
  destruct (truediv_fraction (count Repo.has_issues repos) (len repos)) as [Ei Ui];
    [apply count_bounds | exact L |].
  rewrite Ei. cbn [bind]. eexists. split; [reflexivity |]. weighted_sum.
Qed.

(** *** The five metrics together *)

Lemma distinct_languages_small repos :
  (len repos < big)%Z ->
  (Z.of_nat (base.size (Spec.distinct_languages repos)) < big)%Z.
Proof.
  intros H. unfold Spec.distinct_languages.
  pose proof (size_list_to_set_le (Spec.language_values repos)).
  pose proof (language_values_length repos).
  unfold len in *. lia.
Qed.

Lemma metrics_unit (now : clock) profile repos contributions i :
  Spec.profile_conforms profile -> Forall Spec.repo_conforms repos ->
  Forall (fun r => Repo.language r <> None) repos ->
  in_float_range profile repos contributions ->
  exists a d c doc cq j,
    _calculate_metrics now profile repos contributions i
    = (Ok (Spec.metric_set a d c doc cq), j)
    /\ unit_float a /\ unit_float d /\ unit_float c
    /\ unit_float doc /\ unit_float cq.
Proof.
  intros HP HR HL (B1 & B2 & B3 & B4 & B5 & B6 & B7).
  destruct (activity_unit now contributions repos i B5) as (a & j & Ea & Ua).
  destruct (diversity_value repos HL (distinct_languages_small repos B7) B6) as [Ed Ud].
  destruct (community_unit profile repos HP HR B1 B2 B3) as (c & Ec & Uc).
  destruct (documentation_unit repos) as (doc & Edoc & Udoc).
  destruct (code_quality_unit repos HR B7 B4) as (cq & Ecq & Ucq).
  exists a, (Spec.diversity repos), c, doc, cq, j.
  unfold _calculate_metrics, mbind, lift, ret.
  rewrite Ea, Ed, Ec, Edoc, Ecq. repeat split; assumption || apply Ua || apply Ud
    || apply Uc || apply Udoc || apply Ucq.
Qed.


(** *** The score *)

Lemma metrics_shape (now : clock) profile repos contributions i m j :
  _calculate_metrics now profile repos contributions i = (Ok m, j) ->
  exists a d c doc cq, m = Spec.metric_set a d c doc cq.
Proof.
  unfold _calculate_metrics, mbind, lift, ret.
  destruct (_calculate_activity_metric _ _ _ _) as [[a | e] k]; [| discriminate].
  destruct (_calculate_diversity_metric _) as [d | e]; [| discriminate].
  destruct (_calculate_community_metric _ _) as [c | e]; [| discriminate].
  destruct (_calculate_documentation_metric _) as [doc | e]; [| discriminate].
  destruct (_calculate_code_quality_metric _) as [cq | e]; [| discriminate].
  intros E. injection E as <- _. now exists a, d, c, doc, cq.
Qed.

(** The loop over the weight table computes the specification's sum. *)
Lemma score_value a d c doc cq :
  _calculate_score (Spec.metric_set a d c doc cq)
  = Ok (fmul (Spec.weighted_sum a d c doc cq) 10).
Proof.
  unfold _calculate_score, weights, Spec.metric_set, Spec.weighted_sum.
  cbn [for_each add_weighted bind getitem String.eqb Ascii.eqb Bool.eqb].
  rewrite (fadd_0_l _ (fmul_float _ _)).
  now rewrite !(fmul_comm _ (lit _)).
Qed.

Lemma round2_mono x y : x <= y -> round2 x <= round2 y.
Proof.
  intros H. unfold round2. apply rnd_mono.
  apply Qmult_le_compat_r; [| discriminate].
  rewrite <- Zle_Qle. apply rne_mono. lra.
Qed.

Lemma round2_nonneg x : 0 <= x -> 0 <= round2 x.
Proof.
  intros H. unfold round2. apply rnd_nonneg.
  apply Qle_shift_div_l; [reflexivity |]. rewrite Qmult_0_l.
  rewrite <- (Zle_Qle 0), <- (rne_Z 0). apply rne_mono. change (inject_Z 0) with 0. lra.
Qed.

Lemma weighted_sum_bounds a d c doc cq :
  0 <= a <= 1 -> 0 <= d <= 1 -> 0 <= c <= 1 -> 0 <= doc <= 1 -> 0 <= cq <= 1 ->
  0 <= Spec.weighted_sum a d c doc cq
  /\ Spec.weighted_sum a d c doc cq <= Spec.weighted_sum 1 1 1 1 1.
Proof.
  intros Ha Hd Hc Hdoc Hcq. unfold Spec.weighted_sum.
  assert (M : forall w x y, 0 <= w -> x <= y -> fmul (lit w) x <= fmul (lit w) y).
  { intros w x y Hw Hxy. rewrite !(fmul_comm (lit w)). apply fmul_mono; [now apply lit_nonneg | exact Hxy]. }
  assert (N : forall w x, 0 <= w -> 0 <= x -> 0 <= fmul (lit w) x).
  { intros w x Hw Hx. apply fmul_nonneg; [now apply lit_nonneg | exact Hx]. }
  split.
  - repeat match goal with
           | |- 0 <= fadd _ _ => apply fadd_nonneg
           | |- 0 <= fmul (lit _) _ => apply N; [discriminate | tauto]
           end.
  - repeat match goal with
           | |- fadd _ _ <= fadd _ _ => apply fadd_mono
           | |- fmul (lit _) _ <= fmul (lit _) _ => apply M; [discriminate | tauto]
           end.
Qed.

Lemma composite_bounds a d c doc cq :
  0 <= a <= 1 -> 0 <= d <= 1 -> 0 <= c <= 1 -> 0 <= doc <= 1 -> 0 <= cq <= 1 ->
  0 <= Spec.composite a d c doc cq <= 10.
Proof.
  intros Ha Hd Hc Hdoc Hcq.
  destruct (weighted_sum_bounds a d c doc cq Ha Hd Hc Hdoc Hcq) as [L U].
  unfold Spec.composite. split.
  - apply round2_nonneg, fmul_nonneg; [discriminate | exact L].
  - eapply Qle_trans.
    + apply round2_mono. rewrite !(fmul_comm 10). apply fmul_mono; [discriminate | exact U].
    + qle_compute.
Qed.

(** *** The analysis *)

(** What a successful analysis has computed. *)
Lemma analyze_profile_ok api (now : clock) username i b j :
  analyze_profile api now username i = (Ok b, j) ->
  exists profile repos contributions metrics score recommendations,
    GitHubAPI.get_user_profile api username = Ok profile
    /\ GitHubAPI.get_user_repos api username = Ok repos
    /\ GitHubAPI.get_user_contributions api username = Ok contributions
    /\ repos <> []
    /\ _calculate_metrics now profile repos contributions i = (Ok metrics, j)
    /\ _calculate_score metrics = Ok score
    /\ _get_recommendations metrics = Ok recommendations
    /\ b = {| Bundle.score := round2 score;
              Bundle.metrics := metrics;
              Bundle.strengths := _get_strengths metrics;
              Bundle.weaknesses := _get_weaknesses metrics;
              Bundle.recommendations := recommendations;
              Bundle.appreciation := _get_appreciation score;
              Bundle.avatar_url := get (Profile.avatar_url profile) "" |}.
Proof.
  unfold analyze_profile, wrap_failure, mbind, lift, raise, ret.
  destruct (GitHubAPI.get_user_profile api username) as [profile | e]; [| discriminate].
  destruct (GitHubAPI.get_user_repos api username) as [repos | e]; [| discriminate].
  destruct (GitHubAPI.get_user_contributions api username) as [contributions | e];
    [| discriminate].
  destruct repos as [| r repos]; cbn [nonempty negb]; [discriminate |].
  destruct (_calculate_metrics _ _ _ _ _) as [[metrics | e] k] eqn:Em; [| discriminate].
  destruct (_calculate_score metrics) as [score | e] eqn:Es; [| discriminate].
  destruct (_get_recommendations metrics) as [recs | e] eqn:Er; [| discriminate].
  intros E. injection E as <- <-.
  exists profile, (r :: repos), contributions, metrics, score, recs.
  do 3 (split; [reflexivity |]). split; [discriminate |].
  split; [exact Em |]. split; [exact Es |]. split; [exact Er | reflexivity].
Qed.

(** *** The clock *)

Lemma filterM_recent_from {A} (now : clock) days (stamp : A -> Z) l i :
  filterM (fun a => is_recent now days (stamp a)) l i
  = (Ok (recent_from now days stamp l i), (i + length l)%nat).
Proof.
  revert i. induction l as [| a l IH]; intros i.
  - cbn. now rewrite Nat.add_0_r.
  - cbn [filterM recent_from length]. unfold mbind at 1.
    unfold is_recent at 1, mbind at 1, datetime_now, ret at 1.
    unfold mbind. rewrite IH. unfold ret. f_equal. lia.
Qed.

Lemma recent_from_ext {A} (now1 now2 : clock) days (stamp : A -> Z) l i1 i2 :
  (forall k, (k < length l)%nat -> now1 (i1 + k)%nat = now2 (i2 + k)%nat) ->
  recent_from now1 days stamp l i1 = recent_from now2 days stamp l i2.
Proof.
  revert i1 i2. induction l as [| a l IH]; intros i1 i2 H; [reflexivity |].
  cbn [recent_from].
  rewrite (IH (S i1) (S i2)).
  - pose proof (H 0%nat ltac:(cbn; lia)) as H0. rewrite !Nat.add_0_r in H0.
    now rewrite H0.
  - intros k Hk. pose proof (H (S k) ltac:(cbn; lia)) as Hs.
    now rewrite !Nat.add_succ_r in Hs.
Qed.

(** The activity metric depends on the clock through the readings taken
    for the events and then for the repositories, and on nothing else. *)
Lemma activity_ext (now1 now2 : clock) contributions repos i1 i2 :
  (forall k, (k < length contributions + length repos)%nat ->
             now1 (i1 + k)%nat = now2 (i2 + k)%nat) ->
  fst (_calculate_activity_metric now1 contributions repos i1)
  = fst (_calculate_activity_metric now2 contributions repos i2).
Proof.
  intros H. unfold _calculate_activity_metric.
  destruct (nonempty contributions); cbn [negb]; [| reflexivity].
  unfold mbind. rewrite !filterM_recent_from.
  rewrite (recent_from_ext now1 now2 30 Event.created_at contributions i1 i2)
    by (intros k Hk; apply H; lia).
  rewrite (recent_from_ext now1 now2 90 Repo.updated_at repos
             (i1 + length contributions) (i2 + length contributions)).
  2:{ intros k Hk. rewrite <- !Nat.add_assoc. apply H. lia. }
  unfold lift, ret.
  destruct (ratio _ 30) as [e | e]; [| reflexivity].
  destruct (if nonempty repos then _ else _) as [r | e']; reflexivity.
Qed.

Lemma metrics_ext (now1 now2 : clock) profile repos contributions i1 i2 :
  fst (_calculate_activity_metric now1 contributions repos i1)
  = fst (_calculate_activity_metric now2 contributions repos i2) ->
  fst (_calculate_metrics now1 profile repos contributions i1)
  = fst (_calculate_metrics now2 profile repos contributions i2).
Proof.
  intros H. unfold _calculate_metrics, mbind, lift, ret.
  destruct (_calculate_activity_metric now1 _ _ _) as [[a1 | e1] j1];
    destruct (_calculate_activity_metric now2 _ _ _) as [[a2 | e2] j2];
    cbn [fst] in H; try discriminate; injection H as ->; [| reflexivity].
  destruct (_calculate_diversity_metric _); [| reflexivity].
  destruct (_calculate_community_metric _ _); [| reflexivity].
  destruct (_calculate_documentation_metric _); [| reflexivity].
  destruct (_calculate_code_quality_metric _); reflexivity.
Qed.

Lemma analyze_ext api (now1 now2 : clock) username i1 i2 :
  (forall profile repos contributions,
      GitHubAPI.get_user_profile api username = Ok profile ->
      GitHubAPI.get_user_repos api username = Ok repos ->
      GitHubAPI.get_user_contributions api username = Ok contributions ->
      fst (_calculate_metrics now1 profile repos contributions i1)
      = fst (_calculate_metrics now2 profile repos contributions i2)) ->
  fst (analyze_profile api now1 username i1) = fst (analyze_profile api now2 username i2).
Proof.
  intros H. unfold analyze_profile, wrap_failure, mbind, lift, raise, ret.
  destruct (GitHubAPI.get_user_profile api username) as [profile | e]; [| reflexivity].
  destruct (GitHubAPI.get_user_repos api username) as [repos | e]; [| reflexivity].
  destruct (GitHubAPI.get_user_contributions api username) as [contributions | e];
    [| reflexivity].
  specialize (H profile repos contributions eq_refl eq_refl eq_refl).
  destruct (nonempty repos); cbn [negb]; [| reflexivity].
  destruct (_calculate_metrics now1 _ _ _ _) as [[m1 | e1] j1];
    destruct (_calculate_metrics now2 _ _ _ _) as [[m2 | e2] j2];
    cbn [fst] in H; try discriminate; injection H as ->; [| reflexivity].
  destruct (_calculate_score m2); [| reflexivity].
  destruct (_get_recommendations m2); reflexivity.
Qed.

(** *** Whatever is returned is in the unit interval *)

(** The lemmas above give the metrics under bounds that exclude overflow.
    Without those bounds a metric may raise, but a metric that is returned
    is a float of the unit interval all the same. *)

Lemma truediv_sound a b x :
  truediv a b = Ok x -> (0 <= a)%Z -> (0 < b)%Z ->
  x = rnd (inject_Z a / inject_Z b) /\ 0 <= x.
Proof.
  unfold truediv. intros H Ha Hb.
  destruct (b =? 0)%Z; [discriminate |].
  destruct (finite _); [| discriminate]. injection H as <-.
  split; [reflexivity |]. apply rnd_nonneg, quotient_bounds; lia.
Qed.

Lemma ratio_sound a b v :
  ratio a b = Ok v -> (0 <= a)%Z -> (0 < b)%Z -> unit_float v.
Proof.
  unfold ratio. intros H Ha Hb.
  destruct (truediv a b) as [x | e] eqn:E; [| discriminate].
  cbn [bind] in H. injection H as <-.
  destruct (truediv_sound a b x E Ha Hb) as [-> X0].
  apply min_unit; [exact X0 | apply rnd_idem].
Qed.

Lemma ratio_if_sound (guard : bool) a b v :
  (if guard then ratio a b else Ok 0) = Ok v ->
  (0 <= a)%Z -> (guard = true -> (0 < b)%Z) -> unit_float v.
Proof.
  destruct guard; intros H Ha Hb.
  - eapply ratio_sound; eauto.
  - injection H as <-. apply unit_float_0.
Qed.

Lemma activity_sound (now : clock) contributions repos i v j :
  _calculate_activity_metric now contributions repos i = (Ok v, j) -> unit_float v.
Proof.
  unfold _calculate_activity_metric.
  destruct (nonempty contributions); cbn [negb].
  2:{ intros [= <- _]. apply unit_float_0. }
  unfold mbind. rewrite !filterM_recent_from. unfold lift, ret.
  destruct (ratio _ 30) as [e | x] eqn:Ee; [| discriminate].
  destruct (if nonempty repos then _ else _) as [r | x] eqn:Er; [| discriminate].
  intros [= <- _].
  pose proof (ratio_sound _ _ _ Ee (len_nonneg _) ltac:(lia)) as Ue.
  pose proof (ratio_if_sound _ _ _ _ Er (len_nonneg _) (nonempty_len _)) as Ur.
  weighted_sum.
Qed.

Lemma diversity_sound repos v :
  _calculate_diversity_metric repos = Ok v -> unit_float v.
Proof.
  unfold _calculate_diversity_metric.
  destruct (nonempty repos); cbn [negb].
  2:{ intros [= <-]. apply unit_float_0. }
  destruct (for_each add_language repos ∅) as [languages | x]; [| discriminate].
  destruct (for_each add_topics repos ∅) as [topics | x]; [| discriminate].
  cbn [bind].
  destruct (ratio _ 5) as [l | x] eqn:El; [| discriminate].
  destruct (ratio _ 10) as [t | x] eqn:Et; [| discriminate].
  cbn [bind]. intros [= <-].
  pose proof (ratio_sound _ _ _ El ltac:(lia) ltac:(lia)) as Ul.
  pose proof (ratio_sound _ _ _ Et ltac:(lia) ltac:(lia)) as Ut.
  weighted_sum.
Qed.

Lemma forks_nonneg repos :
  Forall Spec.repo_conforms repos -> (0 <= sum (map Repo.forks_count repos))%Z.
Proof.
  intros HR. apply sum_nonneg.
  induction HR as [| r rs Hr _ IH]; cbn [map]; constructor; [apply Hr | exact IH].
Qed.

Lemma stars_nonneg repos :
  Forall Spec.repo_conforms repos -> (0 <= sum (map Repo.stargazers_count repos))%Z.
Proof.
  intros HR. apply sum_nonneg.
  induction HR as [| r rs Hr _ IH]; cbn [map]; constructor; [apply Hr | exact IH].
Qed.

Lemma community_sound profile repos v :
  Spec.profile_conforms profile -> Forall Spec.repo_conforms repos ->
  _calculate_community_metric profile repos = Ok v -> unit_float v.
Proof.
  intros [P1 P2] HR. unfold _calculate_community_metric.
  destruct (ratio _ 100) as [f | x] eqn:Ef; [| discriminate].
  destruct (ratio _ 50) as [g | x] eqn:Eg; [| discriminate].
  cbn [bind].
  destruct (if nonempty repos then ratio _ (len repos * 5) else _) as [k | x] eqn:Ek;
    [| discriminate].
  destruct (if nonempty repos then ratio _ (len repos) else _) as [c | x] eqn:Ec;
    [| discriminate].
  cbn [bind]. intros [= <-].
  pose proof (ratio_sound _ _ _ Ef P1 ltac:(lia)) as Uf.
  pose proof (ratio_sound _ _ _ Eg P2 ltac:(lia)) as Ug.
  assert (Uk : unit_float k).
  { eapply ratio_if_sound; [exact Ek | now apply forks_nonneg |].
    intros NE. pose proof (nonempty_len _ NE). lia. }
  assert (Uc : unit_float c).
  { eapply ratio_if_sound; [exact Ec | apply count_bounds | apply nonempty_len]. }
  weighted_sum.
Qed.

Lemma to_float_sound n x : to_float n = Ok x -> x = rnd (inject_Z n).
Proof.
  unfold to_float. destruct (finite _); [| discriminate]. now intros [= <-].
Qed.

Lemma add_size_sound k st r st' :
  (0 <= k)%Z -> size_inv k st -> add_size st r = Ok st' -> size_inv (k + 1) st'.
Proof.
  intros Hk I. unfold add_size.
  destruct (Repo.size r <? 1000)%Z; [| destruct (Repo.size r <? 5000)%Z].
  - destruct st as [c | s]; cbn [add_int size_inv] in *.
    + intros [= <-]. cbn [size_inv]. lia.
    + rewrite to_float_1. cbn [bind]. intros [= <-]. cbn [size_inv]. split.
      * apply rnd_nonneg. lra.
      * apply count_step; [lia | tauto | lra].
  - pose proof half as Hh.
    destruct st as [c | s]; cbn [add_float size_inv] in *.
    + destruct (to_float c) as [x | e] eqn:Ex; [| discriminate].
      apply to_float_sound in Ex. subst x. cbn [bind]. intros [= <-]. cbn [size_inv].
      assert (C0 : 0 <= rnd (inject_Z c))
        by (apply rnd_nonneg; rewrite <- (Zle_Qle 0); lia).
      split.
      * apply rnd_nonneg. lra.
      * apply count_step; [lia | | lra].
        apply rnd_mono. rewrite <- Zle_Qle. lia.
    + intros [= <-]. cbn [size_inv]. split.
      * apply rnd_nonneg. lra.
      * apply count_step; [lia | tauto | lra].
  - intros [= <-].
    destruct st as [c | s]; cbn [size_inv] in *; [lia |].
    split; [tauto |]. eapply Qle_trans; [apply I |].
    apply rnd_mono. rewrite <- Zle_Qle. lia.
Qed.

Lemma size_loop_sound repos k st st' :
  (0 <= k)%Z -> size_inv k st -> for_each add_size repos st = Ok st' ->
  size_inv (k + len repos) st'.
Proof.
  revert k st. induction repos as [| r repos IH]; intros k st K0 I.
  - intros [= <-]. unfold len. cbn [length]. now rewrite Z.add_0_r.
  - cbn [for_each]. destruct (add_size st r) as [st1 | e] eqn:E1; [| discriminate].
    cbn [bind]. intros E'. rewrite len_cons.
    replace (k + (len repos + 1))%Z with (k + 1 + len repos)%Z by lia.
    apply (IH (k + 1)%Z st1); [lia | | exact E'].
    eapply add_size_sound; eauto.
Qed.

Lemma div_int_sound st n v :
  (0 < n)%Z -> size_inv n st -> div_int st n = Ok v -> unit_float v.
Proof.
  intros Hn I. destruct st as [c | s]; cbn [div_int size_inv] in *.
  - intros E. destruct (truediv_fraction c n) as [E' U]; [lia | lia |].
    rewrite E' in E. injection E as <-. exact U.
  - destruct (to_float n) as [y | e] eqn:Ey; [| discriminate].
    apply to_float_sound in Ey. cbn [bind]. unfold fdiv.
    assert (Py : 1 <= y).
    { subst y. rewrite <- rnd_1. apply rnd_mono. rewrite <- (Zle_Qle 1). lia. }
    destruct (Qeq_bool y 0) eqn:Z0.
    { apply Qeq_bool_iff in Z0. lra. }
    intros [= <-]. subst y. repeat split.
    + apply rnd_nonneg. apply Qle_shift_div_l; lra.
    + rewrite <- rnd_1. apply rnd_mono. apply Qle_shift_div_r; lra.
    + apply rnd_idem.
Qed.

Lemma code_quality_sound repos v :
  Forall Spec.repo_conforms repos ->
  _calculate_code_quality_metric repos = Ok v -> unit_float v.
Proof.
  intros HR. unfold _calculate_code_quality_metric.
  destruct (nonempty repos) eqn:NE; cbn [negb].
  2:{ intros [= <-]. apply unit_float_0. }
  pose proof (nonempty_len _ NE) as L.
  destruct (truediv _ (len repos)) as [avg | x] eqn:Ea; [| discriminate].
  cbn [bind].
  destruct (truediv_sound _ _ _ Ea (stars_nonneg _ HR) L) as [_ A0].
  destruct (for_each add_size repos (Int 0)) as [st | x] eqn:Es; [| discriminate].
  cbn [bind].
  pose proof (size_loop_sound repos 0 (Int 0) st ltac:(lia) ltac:(cbn; lia) Es) as Is.
  rewrite Z.add_0_l in Is.
  destruct (div_int st (len repos)) as [z | x] eqn:Ez; [| discriminate].
  cbn [bind].
  pose proof (div_int_sound _ _ _ L Is Ez) as Uz.
  rewrite to_float_10. cbn [bind]. unfold fdiv.
  change (Qeq_bool 10 0) with false. cbn [bind].
  assert (Ustar : unit_float (min (rnd (avg / 10)) 1)).
  { apply min_unit; [| apply rnd_idem]. apply rnd_nonneg. apply Qle_shift_div_l; lra. }
  destruct (truediv_fraction (count Repo.has_issues repos) (len repos)) as [Ei Ui];
    [apply count_bounds | exact L |].
  rewrite Ei. cbn [bind]. intros [= <-]. weighted_sum.
Qed.

Lemma documentation_sound repos v :
  _calculate_documentation_metric repos = Ok v -> unit_float v.
Proof.
  intros H. destruct (documentation_unit repos) as (w & E & U).
  rewrite E in H. now injection H as <-.
Qed.

Lemma metrics_sound (now : clock) profile repos contributions i m j :
  Spec.profile_conforms profile -> Forall Spec.repo_conforms repos ->
  _calculate_metrics now profile repos contributions i = (Ok m, j) ->
  exists a d c doc cq,
    m = Spec.metric_set a d c doc cq
    /\ unit_float a /\ unit_float d /\ unit_float c
    /\ unit_float doc /\ unit_float cq.
Proof.
  intros HP HR. unfold _calculate_metrics, mbind, lift, ret.
  destruct (_calculate_activity_metric _ _ _ _) as [[a | e] k] eqn:Ea; [| discriminate].
  destruct (_calculate_diversity_metric _) as [d | e] eqn:Ed; [| discriminate].
  destruct (_calculate_community_metric _ _) as [c | e] eqn:Ec; [| discriminate].
  destruct (_calculate_documentation_metric _) as [doc | e] eqn:Edoc; [| discriminate].
  destruct (_calculate_code_quality_metric _) as [cq | e] eqn:Ecq; [| discriminate].
  intros [= <- _]. exists a, d, c, doc, cq. split; [reflexivity |].
  split; [eapply activity_sound; eauto |].
  split; [eapply diversity_sound; eauto |].
  split; [eapply community_sound; eauto |].
  split; [eapply documentation_sound; eauto |].
  eapply code_quality_sound; eauto.
Qed.

End EngineFacts.

(** ** The claims of the specification *)

Module Claims.
Import Float FloatFacts Py Bounds PyFacts GitHubProfileAnalyzer EngineFacts.
Open Scope string_scope.

(** Conformance of a closed input to the data model is evaluated. *)
Ltac conforms_by_evaluation :=
  unfold Spec.conforms, Spec.profile_conforms;
  split; [split; vm_compute; discriminate |];
  split; [repeat constructor; vm_compute; discriminate | discriminate].

(** *** C1: the composite score *)

(** C1.  The score of a result bundle is
    [round(10 * (0.30*activity + 0.20*diversity + 0.20*community +
    0.15*documentation + 0.15*code_quality), 2)] of the five metrics of
    that bundle; the weight table is the fixed one and its values add up,
    in floating point, to exactly [1.0]; and for every metric set whose
    five values are in [0,1] the score is computed and lies in [0,10]. *)
Theorem C1_composite_score :
  (forall api (now : clock) username i b j,
      analyze_profile api now username i = (Ok b, j) ->
      exists a d c doc cq,
        Bundle.metrics b = Spec.metric_set a d c doc cq
        /\ Bundle.score b = Spec.composite a d c doc cq)
  /\ (weights = Spec.metric_set (lit 0.30) (lit 0.20) (lit 0.20) (lit 0.15) (lit 0.15)
      /\ fold_left fadd (map snd weights) 0 = 1)
  /\ (forall a d c doc cq,
        0 <= a <= 1 -> 0 <= d <= 1 -> 0 <= c <= 1 -> 0 <= doc <= 1 -> 0 <= cq <= 1 ->
        exists s,
          _calculate_score (Spec.metric_set a d c doc cq) = Ok s
          /\ round2 s = Spec.composite a d c doc cq
          /\ 0 <= round2 s <= 10).
Proof.
  split; [| split].
  - intros api now username i b j H.
    destruct (analyze_profile_ok _ _ _ _ _ _ H)
      as (profile & repos & contributions & metrics & score & recs
          & _ & _ & _ & _ & Hm & Hs & _ & ->).
    destruct (metrics_shape _ _ _ _ _ _ _ Hm) as (a & d & c & doc & cq & ->).
    exists a, d, c, doc, cq. split; [reflexivity |].
    rewrite score_value in Hs. injection Hs as <-.
    cbn [Bundle.score]. unfold Spec.composite. now rewrite fmul_comm.
  - split; vm_compute; reflexivity.
  - intros a d c doc cq Ha Hd Hc Hdoc Hcq.
    exists (fmul (Spec.weighted_sum a d c doc cq) 10).
    assert (E : round2 (fmul (Spec.weighted_sum a d c doc cq) 10)
                = Spec.composite a d c doc cq)
      by (unfold Spec.composite; now rewrite fmul_comm).
    split; [apply score_value |]. split; [exact E |].
    rewrite E. now apply composite_bounds.
Qed.

(** The section 8 example is such an analysis, and the metric set that is
    1 everywhere reaches the score 10. *)
Lemma C1_witness :
  (exists b,
      analyze_profile
        (GitHubAPI.frozen Examples.newcomer [Examples.go_repo 0] [])
        Examples.still "octocat" 0%nat = (Ok b, 0%nat)
      /\ exists a d c doc cq,
        Bundle.metrics b = Spec.metric_set a d c doc cq
        /\ Bundle.score b = Spec.composite a d c doc cq)
  /\ exists s,
      _calculate_score (Spec.metric_set 1 1 1 1 1) = Ok s
      /\ round2 s = Spec.composite 1 1 1 1 1
      /\ 0 <= round2 s <= 10.
Proof.
  split.
  - eexists. split.
    + vm_compute. reflexivity.
    + apply (proj1 C1_composite_score
               (GitHubAPI.frozen Examples.newcomer [Examples.go_repo 0] [])
               Examples.still "octocat" 0%nat _ 0%nat).
      vm_compute. reflexivity.
  - apply (proj2 (proj2 C1_composite_score)); split; discriminate.
Defined.

(** *** C2: the five metrics lie in the unit interval *)

(** C2.  For every input that conforms to the data model (non-negative
    counts and sizes, a non-empty repository collection), each of the five
    sub-metrics the metric engine returns is a float in [0,1].  The
    documentation metric is always returned and is in [0,1] although its
    three ratios are not clamped: they are proper fractions.  The engine
    returns the five metrics as soon as every repository record carries
    the [language] key and the integers it converts to float are in
    range. *)
Theorem C2_metrics_in_unit_interval :
  forall (now : clock) profile repos contributions i,
    Spec.conforms profile repos ->
    (forall m j,
        _calculate_metrics now profile repos contributions i = (Ok m, j) ->
        exists a d c doc cq,
          m = Spec.metric_set a d c doc cq
          /\ unit_float a /\ unit_float d /\ unit_float c
          /\ unit_float doc /\ unit_float cq)
    /\ (exists doc, _calculate_documentation_metric repos = Ok doc /\ unit_float doc)
    /\ (Forall (fun r => Repo.language r <> None) repos ->
        in_float_range profile repos contributions ->
        exists m j, _calculate_metrics now profile repos contributions i = (Ok m, j)).
Proof.
  intros now profile repos contributions i (HP & HR & _).
  split; [| split].
  - intros m j H. eapply metrics_sound; eauto.
  - apply documentation_unit.
  - intros HL HB.
    destruct (metrics_unit now profile repos contributions i HP HR HL HB)
      as (a & d & c & doc & cq & j & E & _).
    eauto.
Qed.

Lemma C2_witness :
  (forall m j,
      _calculate_metrics Examples.still Examples.maintainer Examples.kept_repos
        Examples.busy_month 0%nat = (Ok m, j) ->
      exists a d c doc cq,
        m = Spec.metric_set a d c doc cq
        /\ unit_float a /\ unit_float d /\ unit_float c
        /\ unit_float doc /\ unit_float cq)
  /\ (exists doc,
        _calculate_documentation_metric Examples.kept_repos = Ok doc /\ unit_float doc)
  /\ exists m j,
      _calculate_metrics Examples.still Examples.maintainer Examples.kept_repos
        Examples.busy_month 0%nat = (Ok m, j).
Proof.
  destruct (C2_metrics_in_unit_interval Examples.still Examples.maintainer
              Examples.kept_repos Examples.busy_month 0%nat) as (S & D & T).
  - conforms_by_evaluation.
  - split; [exact S |]. split; [exact D |]. apply T.
    + repeat constructor; discriminate.
    + repeat split; vm_compute; reflexivity || discriminate.
Defined.

(** The two conditions under which the metrics are returned cannot be
    dropped: a record without the [language] key raises [KeyError], and
    true division of a follower count of [2^1100] overflows. *)
Lemma metrics_may_raise :
  (Spec.conforms Examples.newcomer [Examples.untyped_repo 0]
   /\ _calculate_metrics Examples.still Examples.newcomer [Examples.untyped_repo 0] [] 0%nat
      = (Raise (KeyError "language"), 0%nat))
  /\ (Spec.conforms Examples.crowd [Examples.go_repo 0]
      /\ _calculate_metrics Examples.still Examples.crowd [Examples.go_repo 0] [] 0%nat
         = (Raise (OverflowError "integer division result too large for a float"), 0%nat)).
Proof.
  split; (split; [conforms_by_evaluation | vm_compute; reflexivity]).
Qed.

(** *** C3: no events *)

(** The sentence as written fails: a repository updated at the analysis
    time gives [repo_score = 1.0], yet the metric is [0.0], not [0.4]. *)
Lemma C3_counterexample : ~ Stated.activity_without_events.
Proof.
  intros H.
  specialize (H Examples.still [Examples.go_repo Examples.noon] 0%nat ltac:(discriminate)).
  vm_compute in H. discriminate H.
Qed.

(** C3, amended.  With an empty event collection the activity metric is
    [0.0] whatever the repositories are: the guard returns before either
    term is computed, and the clock is not read. *)
Theorem C3_no_events_zero_activity :
  forall (now : clock) (repos : list Repo.t) (i : nat),
    _calculate_activity_metric now [] repos i = (Ok 0, i).
Proof. reflexivity. Qed.

(** *** C4: no repositories *)

(** C4.  Whatever the profile record and the event collection are, an
    analysis whose repository collection is empty raises the failure
    "No repositories found for this user" (wrapped as every failure of the
    analysis is), returns no result bundle and has not read the clock: no
    metric has been computed. *)
Theorem C4_empty_repositories_raise :
  forall (now : clock) (profile : Profile.t) (contributions : list Event.t)
         (username : string) (i : nat),
    analyze_profile (GitHubAPI.frozen profile [] contributions) now username i
    = (Raise (Exception "Analysis failed: No repositories found for this user"), i).
Proof. reflexivity. Qed.

(** *** C5: the clock *)

(** The sentence as written fails: two calls that start at the same
    instant, one with a clock that stands still and one with a clock that
    advances by a microsecond per reading, disagree on a repository that
    leaves the 90-day window between the first and the second reading. *)
Lemma C5_counterexample : ~ Stated.single_now.
Proof.
  intros H.
  specialize (H Examples.newcomer [Examples.edge_repo] Examples.one_event "octocat"
                Examples.late Examples.ticking 0%nat 0%nat eq_refl).
  vm_compute in H. discriminate H.
Qed.

(** C5, amended.  Two invocations on the same input collections yield the
    same result when the clock readings they take, one per event and then
    one per repository, are the same; the result depends on the time of
    day through those readings only. *)
Theorem C5_same_readings_same_result :
  forall profile repos contributions username (now1 now2 : clock) i1 i2,
    (forall k, (k < length contributions + length repos)%nat ->
               now1 (i1 + k)%nat = now2 (i2 + k)%nat) ->
    fst (analyze_profile (GitHubAPI.frozen profile repos contributions) now1 username i1)
    = fst (analyze_profile (GitHubAPI.frozen profile repos contributions) now2 username i2).
Proof.
  intros profile repos contributions username now1 now2 i1 i2 H.
  apply analyze_ext. cbn [GitHubAPI.frozen GitHubAPI.get_user_profile
    GitHubAPI.get_user_repos GitHubAPI.get_user_contributions].
  intros p r c [= <-] [= <-] [= <-].
  apply metrics_ext, activity_ext, H.
Qed.

(** A clock that stands still gives the same bundle at any two calls. *)
Lemma C5_witness :
  fst (analyze_profile
         (GitHubAPI.frozen Examples.maintainer Examples.kept_repos Examples.busy_month)
         Examples.still "octocat" 0%nat)
  = fst (analyze_profile
           (GitHubAPI.frozen Examples.maintainer Examples.kept_repos Examples.busy_month)
           Examples.still "octocat" 5%nat).
Proof.
  apply C5_same_readings_same_result. intros k _. reflexivity.
Defined.

(** *** C6: thresholds of the feedback *)

Lemma strengths_in metrics name v :
  In (name, v) metrics -> lit 0.7 <= v ->
  In (describe "Strong" name v) (_get_strengths metrics).
Proof.
  intros HI Hv. unfold _get_strengths.
  set (f := fun '(metric, value) =>
              if Qle_bool (lit 0.7) value then [describe "Strong" metric value] else []).
  assert (I : In (describe "Strong" name v) (flat_map f metrics)).
  { apply in_flat_map. exists (name, v). split; [exact HI |].
    unfold f. rewrite (proj2 (Qle_bool_iff _ _) Hv). now left. }
  destruct (flat_map f metrics); [destruct I | exact I].
Qed.

Lemma weaknesses_in metrics name v :
  In (name, v) metrics -> v <= lit 0.3 ->
  In (describe "Weak" name v) (_get_weaknesses metrics).
Proof.
  intros HI Hv. unfold _get_weaknesses.
  set (f := fun '(metric, value) =>
              if Qle_bool value (lit 0.3) then [describe "Weak" metric value] else []).
  assert (I : In (describe "Weak" name v) (flat_map f metrics)).
  { apply in_flat_map. exists (name, v). split; [exact HI |].
    unfold f. rewrite (proj2 (Qle_bool_iff _ _) Hv). now left. }
  destruct (flat_map f metrics); [destruct I | exact I].
Qed.

Lemma describe_at kind name v w :
  v == w -> describe kind name v = describe kind name w.
Proof.
  intros E. unfold describe, fmul. now rewrite (rnd_comp (v * 100) (w * 100)) by (now rewrite E).
Qed.

(** C6.  In every metric set, a metric whose value is exactly [0.70] is
    listed among the strengths (as 70%), a metric whose value is exactly
    [0.30] is listed among the weaknesses (as 30%), and a metric whose
    value is exactly [0.40] adds no recommendation, the test being a strict
    [<]; and when no metric qualifies, each of the three lists is its
    single placeholder string. *)
Theorem C6_feedback_thresholds :
  forall a d c doc cq,
    let metrics := Spec.metric_set a d c doc cq in
    (forall name v, In (name, v) metrics -> v == lit 0.7 ->
       In ("Strong " ++ replace "_" " " name ++ " (70%)") (_get_strengths metrics))
    /\ (forall name v, In (name, v) metrics -> v == lit 0.3 ->
          In ("Weak " ++ replace "_" " " name ++ " (30%)") (_get_weaknesses metrics))
    /\ (forall name v text, In (name, v) metrics -> In (name, text) advice ->
          v == lit 0.4 ->
          exists recommendations,
            _get_recommendations metrics = Ok recommendations
            /\ ~ In text recommendations)
    /\ ((forall name v, In (name, v) metrics -> v < lit 0.7) ->
        _get_strengths metrics = ["No significant strengths identified"])
    /\ ((forall name v, In (name, v) metrics -> lit 0.3 < v) ->
        _get_weaknesses metrics = ["No significant weaknesses identified"])
    /\ ((forall name v, In (name, v) metrics -> lit 0.4 <= v) ->
        _get_recommendations metrics
        = Ok ["Keep doing what you're doing! Your profile is well-balanced"]).
Proof.
  intros a d c doc cq metrics.
  split; [| split; [| split; [| split; [| split]]]].
  - intros name v HI E.
    assert (L : lit 0.7 <= v) by (rewrite E; apply Qle_refl).
    pose proof (strengths_in metrics name v HI L) as S.
    rewrite (describe_at _ _ _ _ E) in S. exact S.
  - intros name v HI E.
    assert (L : v <= lit 0.3) by (rewrite E; apply Qle_refl).
    pose proof (weaknesses_in metrics name v HI L) as S.
    rewrite (describe_at _ _ _ _ E) in S. exact S.
  - intros name v text HI HA E.
    assert (B : Qle_bool (lit 0.4) v = true) by (apply Qle_bool_iff; rewrite E; apply Qle_refl).
    unfold metrics, Spec.metric_set in HI. unfold _get_recommendations, advice.
    unfold metrics, Spec.metric_set.
    cbn [for_each recommend bind getitem String.eqb Ascii.eqb Bool.eqb].
    cbn [In] in HI.
    destruct HI as [HI | [HI | [HI | [HI | [HI | []]]]]]; injection HI as <- <-;
      rewrite B; cbn [negb];
      unfold advice in HA; cbn [In] in HA;
      destruct HA as [HA | [HA | [HA | [HA | [HA | []]]]]]; try discriminate HA;
      injection HA as <-;
      repeat match goal with
             | |- context [negb (Qle_bool (lit 0.4) ?x)] =>
                 destruct (negb (Qle_bool (lit 0.4) x))
             end;
      cbn [app nonempty]; eexists; (split; [reflexivity |]);
      cbn [In]; intuition discriminate.
  - intros H. unfold _get_strengths, metrics, Spec.metric_set in *. cbn [flat_map].
    assert (F : forall name v, In (name, v) (Spec.metric_set a d c doc cq) ->
                               Qle_bool (lit 0.7) v = false).
    { intros name v HI. specialize (H name v HI).
      destruct (Qle_bool (lit 0.7) v) eqn:B; [| reflexivity].
      apply Qle_bool_iff in B. lra. }
    unfold Spec.metric_set in F.
    rewrite (F "activity" a), (F "diversity" d), (F "community" c),
      (F "documentation" doc), (F "code_quality" cq) by (cbn [In]; tauto).
    reflexivity.
  - intros H. unfold _get_weaknesses, metrics, Spec.metric_set in *. cbn [flat_map].
    assert (F : forall name v, In (name, v) (Spec.metric_set a d c doc cq) ->
                               Qle_bool v (lit 0.3) = false).
    { intros name v HI. specialize (H name v HI).
      destruct (Qle_bool v (lit 0.3)) eqn:B; [| reflexivity].
      apply Qle_bool_iff in B. lra. }
    unfold Spec.metric_set in F.
    rewrite (F "activity" a), (F "diversity" d), (F "community" c),
      (F "documentation" doc), (F "code_quality" cq) by (cbn [In]; tauto).
    reflexivity.
  - intros H. unfold _get_recommendations, advice, metrics, Spec.metric_set in *.
    cbn [for_each recommend bind getitem String.eqb Ascii.eqb Bool.eqb].
    assert (F : forall name v, In (name, v) (Spec.metric_set a d c doc cq) ->
                               Qle_bool (lit 0.4) v = true).
    { intros name v HI. apply Qle_bool_iff. exact (H name v HI). }
    unfold Spec.metric_set in F.
    rewrite (F "activity" a), (F "diversity" d), (F "community" c),
      (F "documentation" doc), (F "code_quality" cq) by (cbn [In]; tauto).
    reflexivity.
Qed.

(** A metric set with one value on each threshold. *)
Lemma C6_witness :
  In "Strong activity (70%)"
     (_get_strengths (Spec.metric_set (lit 0.7) (lit 0.3) (lit 0.4) 1 (lit 0.5)))
  /\ In "Weak diversity (30%)"
        (_get_weaknesses (Spec.metric_set (lit 0.7) (lit 0.3) (lit 0.4) 1 (lit 0.5)))
  /\ (exists recommendations,
        _get_recommendations (Spec.metric_set (lit 0.7) (lit 0.3) (lit 0.4) 1 (lit 0.5))
        = Ok recommendations
        /\ ~ In "Engage more with the community by contributing to other projects and following developers"
                recommendations)
  /\ _get_weaknesses (Spec.metric_set 1 1 1 1 1)
     = ["No significant weaknesses identified"].
Proof.
  pose proof (C6_feedback_thresholds (lit 0.7) (lit 0.3) (lit 0.4) 1 (lit 0.5))
    as (S & W & R & _).
  pose proof (C6_feedback_thresholds 1 1 1 1 1) as (_ & _ & _ & _ & P & _).
  split; [| split; [| split]].
  - apply (S "activity" (lit 0.7)); [cbn; tauto | reflexivity].
  - apply (W "diversity" (lit 0.3)); [cbn; tauto | reflexivity].
  - apply (R "community" (lit 0.4)); [cbn; tauto | cbn; tauto | reflexivity].
  - apply P. cbn [Spec.metric_set In].
    intros name v [E | [E | [E | [E | [E | []]]]]]; injection E as _ <-; reflexivity.
Defined.

(** *** C7: the appreciation message *)

(** The sentence as written fails: the well kept account scores 7.996,
    which the bundle reports as 8.0 while the message is that of the
    second tier. *)
Lemma C7_counterexample : ~ Stated.appreciation_of_reported_score.
Proof.
  intros H.
  eassert (E : analyze_profile
                 (GitHubAPI.frozen Examples.maintainer Examples.kept_repos
                    Examples.busy_month) Examples.still "octocat" 0%nat = (Ok _, _))
    by (vm_compute; reflexivity).
  specialize (H _ _ _ _ _ _ E). vm_compute in H. discriminate H.
Qed.

(** C7, amended.  The appreciation string is selected by a four-tier
    bucket on the composite score before it is rounded: the bundle reports
    [round(s, 2)] and carries the message of [s], where [s] is ten times
    the weighted sum.  A score of at least 8 has the top-tier message, one
    in [6, 8) the second, one in [4, 6) the third, one below 4 the lowest,
    and the four messages differ; 8.0 is in the top tier, 7.99 in the
    second, 3.99 in the lowest. *)
Theorem C7_appreciation_tiers :
  (forall api (now : clock) username i b j,
      analyze_profile api now username i = (Ok b, j) ->
      exists s,
        _calculate_score (Bundle.metrics b) = Ok s
        /\ Bundle.score b = round2 s
        /\ Bundle.appreciation b = _get_appreciation s)
  /\ (forall s,
        (8 <= s -> _get_appreciation s = _get_appreciation 8)
        /\ (6 <= s -> s < 8 -> _get_appreciation s = _get_appreciation 6)
        /\ (4 <= s -> s < 6 -> _get_appreciation s = _get_appreciation 4)
        /\ (s < 4 -> _get_appreciation s = _get_appreciation 0))
  /\ List.NoDup [_get_appreciation 8; _get_appreciation 6;
            _get_appreciation 4; _get_appreciation 0]
  /\ _get_appreciation (lit 8.0) = _get_appreciation 8
  /\ _get_appreciation (lit 7.99) = _get_appreciation 6
  /\ _get_appreciation (lit 3.99) = _get_appreciation 0.
Proof.
  split; [| split; [| split; [| repeat split; vm_compute; reflexivity]]].
  - intros api now username i b j H.
    destruct (analyze_profile_ok _ _ _ _ _ _ H)
      as (profile & repos & contributions & metrics & score & recs
          & _ & _ & _ & _ & _ & Hs & _ & ->).
    exists score. cbn [Bundle.metrics Bundle.score Bundle.appreciation]. auto.
  - intros s.
    assert (T : forall x y, x <= y -> Qle_bool x y = true)
      by (intros x y L; now apply Qle_bool_iff).
    assert (F : forall x y, y < x -> Qle_bool x y = false).
    { intros x y L. destruct (Qle_bool x y) eqn:B; [| reflexivity].
      apply Qle_bool_iff in B. lra. }
    unfold _get_appreciation. repeat split.
    + intros L. now rewrite (T 8 s L).
    + intros L U. now rewrite (F 8 s U), (T 6 s L).
    + intros L U. rewrite (F 8 s), (F 6 s U), (T 4 s L) by lra. reflexivity.
    + intros U. rewrite (F 8 s), (F 6 s), (F 4 s U) by lra. reflexivity.
  - vm_compute.
    repeat (constructor; [cbn [In]; intuition discriminate |]). constructor.
Qed.

Lemma C7_witness :
  exists b s,
    analyze_profile
      (GitHubAPI.frozen Examples.maintainer Examples.kept_repos Examples.busy_month)
      Examples.still "octocat" 0%nat = (Ok b, 34%nat)
    /\ _calculate_score (Bundle.metrics b) = Ok s
    /\ Bundle.score b = round2 s
    /\ Bundle.appreciation b = _get_appreciation s
    /\ s < 8 /\ Bundle.score b == 8.
Proof.
  eexists.
  eassert (E : analyze_profile
                 (GitHubAPI.frozen Examples.maintainer Examples.kept_repos
                    Examples.busy_month) Examples.still "octocat" 0%nat = (Ok _, _))
    by (vm_compute; reflexivity).
  destruct (proj1 C7_appreciation_tiers _ _ _ _ _ _ E) as (s & Hs & Hr & Ha).
  exists s. split; [exact E |]. split; [exact Hs |]. split; [exact Hr |].
  split; [exact Ha |].
  vm_compute in Hs. injection Hs as <-. split; vm_compute; reflexivity.
Defined.

(** *** C8: the worked example *)

(** C8.  For one Go repository without topics, forks, wiki, description,
    issues or stars, of size 500, updated 200 days before the analysis,
    no events and a profile with no followers and nobody followed, the
    engine produces activity 0, documentation 0, community 0,
    code_quality 0.3 and the composite score 0.73.  Its diversity is the
    product 0.7*(1/5) the example writes, which is 0.14 to the two
    decimals the example prints: rounding it to two decimals gives the
    float 0.14, from which it differs by no more than 2^-55. *)
Theorem C8_worked_example :
  forall (now : clock) username i,
    exists b,
      fst (analyze_profile
             (GitHubAPI.frozen Examples.newcomer
                [Examples.go_repo (now i - timedelta 200)] []) now username i)
      = Ok b
      /\ Bundle.metrics b
         = Spec.metric_set 0 Stated.example_diversity 0 0 (lit 0.3)
      /\ round2 Stated.example_diversity = lit 0.14
      /\ Qabs (Stated.example_diversity - lit 0.14) <= pow2 (-55)
      /\ Bundle.score b = lit 0.73.
Proof.
  intros now username i. eexists. split; [vm_compute; reflexivity |].
  split; [vm_compute; reflexivity |].
  split; [vm_compute; reflexivity |].
  split; [apply Qle_bool_iff; vm_compute; reflexivity |].
  vm_compute. reflexivity.
Qed.

(** *** C9: the diversity metric on records with missing keys *)

(** The sentence as written fails: a record without the [language] key
    makes the metric raise [KeyError]. *)
Lemma C9_counterexample : ~ Stated.diversity_total.
Proof.
  intros H. destruct (H [Examples.untyped_repo 0]) as (v & E & _).
  vm_compute in E. discriminate E.
Qed.

(** C9, amended.  On a repository collection whose records all carry the
    [language] key (a string or null), with [topics] present or absent
    and fewer than [2^1023] distinct languages and topics, the diversity
    metric returns a float in [0,1], the one the specification builds from
    the set of distinct non-null, non-empty languages and the set of
    distinct topics; as soon as one record lacks the [language] key it
    raises [KeyError]. *)
Theorem C9_diversity_on_present_languages :
  forall repos,
    (Forall (fun r => Repo.language r <> None) repos ->
     (Z.of_nat (base.size (Spec.distinct_languages repos)) < big)%Z ->
     (Z.of_nat (base.size (Spec.distinct_topics repos)) < big)%Z ->
     _calculate_diversity_metric repos = Ok (Spec.diversity repos)
     /\ unit_float (Spec.diversity repos))
    /\ (Exists (fun r => Repo.language r = None) repos ->
        _calculate_diversity_metric repos = Raise (KeyError "language")).
Proof.
  intros repos. split.
  - apply diversity_value.
  - apply diversity_missing_language.
Qed.

(** Records with a null language and without topics beside complete
    ones. *)
Lemma C9_witness :
  let repos :=
    [ Examples.kept_repo "Go" "cli" "http";
      {| Repo.language := Some None; Repo.topics := None;
         Repo.forks_count := 0; Repo.fork := true; Repo.has_wiki := false;
         Repo.description := None; Repo.has_issues := false;
         Repo.stargazers_count := 0; Repo.size := 7000; Repo.updated_at := 0 |} ] in
  (_calculate_diversity_metric repos = Ok (Spec.diversity repos)
   /\ unit_float (Spec.diversity repos))
  /\ _calculate_diversity_metric (Examples.untyped_repo 0 :: repos)
     = Raise (KeyError "language").
Proof.
  intros repos. split.
  - apply (proj1 (C9_diversity_on_present_languages repos)).
    + repeat constructor; discriminate.
    + vm_compute. reflexivity.
    + vm_compute. reflexivity.
  - apply (proj2 (C9_diversity_on_present_languages (Examples.untyped_repo 0 :: repos))).
    left. reflexivity.
Defined.

(** *** C10: the avatar *)

(** C10.  The [avatar_url] of the result bundle is the [avatar_url] of the
    profile record when the record has one and the empty string when it
    has none; and an analysis that succeeds on a profile record succeeds
    on the same record without [avatar_url], with the same bundle but for
    the empty string. *)
Theorem C10_avatar_url :
  forall profile repos contributions (now : clock) username i b j,
    analyze_profile (GitHubAPI.frozen profile repos contributions) now username i
    = (Ok b, j) ->
    Bundle.avatar_url b
    = match Profile.avatar_url profile with Some url => url | None => "" end
    /\ analyze_profile
         (GitHubAPI.frozen (Examples.without_avatar profile) repos contributions)
         now username i
       = (Ok (Examples.with_avatar_url "" b), j).
Proof.
  intros profile repos contributions now username i b j H.
  destruct (analyze_profile_ok _ _ _ _ _ _ H)
    as (p & r & c & metrics & score & recs & Hp & Hr & Hc & Hne & Hm & Hs & Hrec & ->).
  cbn [GitHubAPI.frozen GitHubAPI.get_user_profile GitHubAPI.get_user_repos
       GitHubAPI.get_user_contributions] in Hp, Hr, Hc.
  injection Hp as <-. injection Hr as <-. injection Hc as <-.
  split; [reflexivity |].
  unfold analyze_profile, wrap_failure, mbind, lift, raise, ret.
  cbn [GitHubAPI.frozen GitHubAPI.get_user_profile GitHubAPI.get_user_repos
       GitHubAPI.get_user_contributions].
  destruct repos as [| r0 repos]; [congruence |]. cbn [nonempty negb].
  change (_calculate_metrics now (Examples.without_avatar profile) (r0 :: repos)
            contributions i)
    with (_calculate_metrics now profile (r0 :: repos) contributions i).
  rewrite Hm, Hs, Hrec. reflexivity.
Qed.

Lemma C10_witness :
  exists b,
    analyze_profile
      (GitHubAPI.frozen Examples.maintainer Examples.kept_repos Examples.busy_month)
      Examples.still "octocat" 0%nat = (Ok b, 34%nat)
    /\ Bundle.avatar_url b = "https://example.org/a.png"
    /\ analyze_profile
         (GitHubAPI.frozen (Examples.without_avatar Examples.maintainer)
            Examples.kept_repos Examples.busy_month)
         Examples.still "octocat" 0%nat
       = (Ok (Examples.with_avatar_url "" b), 34%nat).
Proof.
  eexists.
  eassert (E : analyze_profile
                 (GitHubAPI.frozen Examples.maintainer Examples.kept_repos
                    Examples.busy_month) Examples.still "octocat" 0%nat = (Ok _, _))
    by (vm_compute; reflexivity).
  split; [exact E |].
  exact (C10_avatar_url _ _ _ _ _ _ _ _ E).
Defined.

End Claims.
(** ** Further properties of the analyzer *)

Module Further.
Import Float FloatFacts Py Bounds PyFacts GitHubProfileAnalyzer EngineFacts.
Open Scope string_scope.

Lemma ok_inj {A} (x y : A) : Ok x = Ok y -> x = y.
Proof. intros H. now injection H. Qed.

(** *** Failures of the analysis *)

(** X1.  Every failure of [analyze_profile] is an [Exception] whose text is
    "Analysis failed: " followed by the text of its cause; a fetch that
    fails is the cause, the profile before the repositories before the
    events. *)
Theorem analysis_failures_are_wrapped :
  forall api (now : clock) username i,
    (forall e j, analyze_profile api now username i = (Raise e, j) ->
       exists cause, e = Exception ("Analysis failed: " ++ str cause))
    /\ (forall cause, GitHubAPI.get_user_profile api username = Raise cause ->
          fst (analyze_profile api now username i)
          = Raise (Exception ("Analysis failed: " ++ str cause)))
    /\ (forall profile cause,
          GitHubAPI.get_user_profile api username = Ok profile ->
          GitHubAPI.get_user_repos api username = Raise cause ->
          fst (analyze_profile api now username i)
          = Raise (Exception ("Analysis failed: " ++ str cause)))
    /\ (forall profile repos cause,
          GitHubAPI.get_user_profile api username = Ok profile ->
          GitHubAPI.get_user_repos api username = Ok repos ->
          GitHubAPI.get_user_contributions api username = Raise cause ->
          fst (analyze_profile api now username i)
          = Raise (Exception ("Analysis failed: " ++ str cause))).
Proof.
  intros api now username i. split; [| split; [| split]].
  - intros e j. unfold analyze_profile, wrap_failure.
    destruct (mbind _ _ i) as [[b | cause] k]; [discriminate |].
    intros [= <- _]. now exists cause.
  - intros cause H. unfold analyze_profile, wrap_failure, mbind, lift.
    now rewrite H.
  - intros profile cause H1 H2. unfold analyze_profile, wrap_failure, mbind, lift.
    now rewrite H1, H2.
  - intros profile repos cause H1 H2 H3.
    unfold analyze_profile, wrap_failure, mbind, lift.
    now rewrite H1, H2, H3.
Qed.

Lemma analysis_failures_are_wrapped_witness :
  (exists cause,
      Exception "Analysis failed: 'language'"
      = Exception ("Analysis failed: " ++ str cause))
  /\ fst (analyze_profile Cases.offline Examples.still "octocat" 0%nat)
     = Raise (Exception
                "Analysis failed: Failed to fetch profile: 404 Client Error").
Proof.
  split.
  - apply (proj1 (analysis_failures_are_wrapped
                    (GitHubAPI.frozen Examples.newcomer [Examples.untyped_repo 0] [])
                    Examples.still "octocat" 0%nat) _ 0%nat).
    vm_compute. reflexivity.
  - exact (proj1 (proj2 (analysis_failures_are_wrapped Cases.offline Examples.still
                           "octocat" 0%nat))
             (Exception "Failed to fetch profile: 404 Client Error") eq_refl).
Defined.

(** *** The stages compose *)

Lemma recommendations_total a d c doc cq :
  exists recommendations,
    _get_recommendations (Spec.metric_set a d c doc cq) = Ok recommendations.
Proof.
  unfold _get_recommendations, advice, Spec.metric_set.
  cbn [for_each recommend bind getitem String.eqb Ascii.eqb Bool.eqb].
  eexists. reflexivity.
Qed.

Lemma analysis_follows_metrics :
  forall profile repos contributions (now : clock) username i,
    repos <> [] ->
    (forall m j,
        _calculate_metrics now profile repos contributions i = (Ok m, j) ->
        exists b,
          analyze_profile (GitHubAPI.frozen profile repos contributions) now username i
          = (Ok b, j)
          /\ Bundle.metrics b = m)
    /\ (forall e j,
          _calculate_metrics now profile repos contributions i = (Raise e, j) ->
          analyze_profile (GitHubAPI.frozen profile repos contributions) now username i
          = (Raise (Exception ("Analysis failed: " ++ str e)), j)).
Proof.
  intros profile repos contributions now username i NE.
  destruct repos as [| r repos]; [congruence |].
  split.
  - intros m j Hm.
    destruct (metrics_shape _ _ _ _ _ _ _ Hm) as (a & d & c & doc & cq & ->).
    destruct (recommendations_total a d c doc cq) as (recs & Hr).
    unfold analyze_profile, wrap_failure, mbind, lift, raise, ret.
    cbn [GitHubAPI.frozen GitHubAPI.get_user_profile GitHubAPI.get_user_repos
         GitHubAPI.get_user_contributions nonempty negb].
    rewrite Hm, score_value, Hr. eexists. split; reflexivity.
  - intros e j Hm.
    unfold analyze_profile, wrap_failure, mbind, lift, raise, ret.
    cbn [GitHubAPI.frozen GitHubAPI.get_user_profile GitHubAPI.get_user_repos
         GitHubAPI.get_user_contributions nonempty negb].
    now rewrite Hm.
Qed.

(** X2.  Once the five metrics are computed nothing else can fail: the score
    and the recommendations look up exactly the names the metric set has.
    With a non-empty repository collection the analysis returns a bundle
    that carries those metrics when they are computed, and fails with
    their failure otherwise. *)
Theorem analysis_succeeds_when_metrics_do :
  forall profile repos contributions (now : clock) username i,
    repos <> [] ->
    (forall m j,
        _calculate_metrics now profile repos contributions i = (Ok m, j) ->
        exists b,
          analyze_profile (GitHubAPI.frozen profile repos contributions) now username i
          = (Ok b, j)
          /\ Bundle.metrics b = m)
    /\ (forall e j,
          _calculate_metrics now profile repos contributions i = (Raise e, j) ->
          analyze_profile (GitHubAPI.frozen profile repos contributions) now username i
          = (Raise (Exception ("Analysis failed: " ++ str e)), j)).
Proof. exact analysis_follows_metrics. Qed.

Lemma analysis_succeeds_when_metrics_do_witness :
  (exists b,
      analyze_profile
        (GitHubAPI.frozen Examples.maintainer Examples.kept_repos Examples.busy_month)
        Examples.still "octocat" 0%nat = (Ok b, 34%nat)
      /\ Bundle.metrics b
         = Spec.metric_set (fadd (fmul (min (Float.rnd (29 / 30)) 1) (lit 0.6))
                                 (fmul 1 (lit 0.4)))
                           1 (fmul (lit 0.14) (lit 0.2)) 1 1)
  /\ analyze_profile
       (GitHubAPI.frozen Examples.crowd [Examples.go_repo 0] [])
       Examples.still "octocat" 0%nat
     = (Raise (Exception
                 "Analysis failed: integer division result too large for a float"),
        0%nat).
Proof.
  split.
  - apply (proj1 (analysis_succeeds_when_metrics_do Examples.maintainer Examples.kept_repos
                    Examples.busy_month Examples.still "octocat" 0%nat ltac:(discriminate))).
    vm_compute. reflexivity.
  - apply (proj2 (analysis_succeeds_when_metrics_do Examples.crowd [Examples.go_repo 0]
                    [] Examples.still "octocat" 0%nat ltac:(discriminate))
             (OverflowError "integer division result too large for a float")).
    vm_compute. reflexivity.
Defined.

(** *** The score grows with the metrics *)

Lemma weighted_sum_monotone a d c doc cq a' d' c' doc' cq' :
  a <= a' -> d <= d' -> c <= c' -> doc <= doc' -> cq <= cq' ->
  Spec.weighted_sum a d c doc cq <= Spec.weighted_sum a' d' c' doc' cq'.
Proof.
  intros Ha Hd Hc Hdoc Hcq. unfold Spec.weighted_sum.
  assert (M : forall w x y, 0 <= w -> x <= y -> fmul (lit w) x <= fmul (lit w) y).
  { intros w x y Hw Hxy. rewrite !(fmul_comm (lit w)).
    apply fmul_mono; [now apply lit_nonneg | exact Hxy]. }
  repeat match goal with
         | |- fadd _ _ <= fadd _ _ => apply fadd_mono
         | |- fmul (lit _) _ <= fmul (lit _) _ => apply M; [discriminate | assumption]
         end.
Qed.

(** X3.  Raising a metric never lowers the score, before or after it is
    rounded to two decimals: the rounding of every product and sum is
    monotone. *)
Theorem score_is_monotone :
  forall a d c doc cq a' d' c' doc' cq',
    a <= a' -> d <= d' -> c <= c' -> doc <= doc' -> cq <= cq' ->
    exists s s',
      _calculate_score (Spec.metric_set a d c doc cq) = Ok s
      /\ _calculate_score (Spec.metric_set a' d' c' doc' cq') = Ok s'
      /\ s <= s' /\ round2 s <= round2 s'.
Proof.
  intros a d c doc cq a' d' c' doc' cq' Ha Hd Hc Hdoc Hcq.
  do 2 eexists. split; [apply score_value |]. split; [apply score_value |].
  assert (L : fmul (Spec.weighted_sum a d c doc cq) 10
              <= fmul (Spec.weighted_sum a' d' c' doc' cq') 10).
  { apply fmul_mono; [discriminate |]. now apply weighted_sum_monotone. }
  split; [exact L | now apply round2_mono].
Qed.

Lemma score_is_monotone_witness :
  exists s s',
    _calculate_score (Spec.metric_set (lit 0.2) (lit 0.5) 0 (lit 0.3) 1) = Ok s
    /\ _calculate_score (Spec.metric_set (lit 0.2) (lit 0.6) 0 (lit 0.3) 1) = Ok s'
    /\ s <= s' /\ round2 s <= round2 s'.
Proof.
  apply score_is_monotone; try apply Qle_refl. apply Qle_bool_iff. vm_compute. reflexivity.
Defined.

(** *** What is weak is advised on, what is strong is not *)

Lemma recommendations_value a d c doc cq :
  let low v := negb (Qle_bool (lit 0.4) v) in
  let pick (v : float) (text : string) := if low v then [text] else [] in
  let chosen :=
    (pick a "Increase your activity by making regular commits and repository updates"
     ++ pick d "Expand your skill set by working with different programming languages"
     ++ pick c "Engage more with the community by contributing to other projects and following developers"
     ++ pick doc "Improve documentation by adding README files, wikis, and clear descriptions"
     ++ pick cq "Focus on code quality by creating smaller, focused repositories with good issue tracking")%list in
  _get_recommendations (Spec.metric_set a d c doc cq)
  = Ok (if nonempty chosen then chosen
        else ["Keep doing what you're doing! Your profile is well-balanced"]).
Proof.
  cbn zeta. unfold _get_recommendations, advice, Spec.metric_set.
  cbn [for_each recommend bind getitem String.eqb Ascii.eqb Bool.eqb].
  destruct (negb (Qle_bool (lit 0.4) a)), (negb (Qle_bool (lit 0.4) d)),
    (negb (Qle_bool (lit 0.4) c)), (negb (Qle_bool (lit 0.4) doc)),
    (negb (Qle_bool (lit 0.4) cq)); reflexivity.
Qed.

Lemma below_threshold x y : negb (Qle_bool x y) = true <-> y < x.
Proof.
  rewrite negb_true_iff. split.
  - intros B. apply Qnot_le_lt. intros C. apply Qle_bool_iff in C. congruence.
  - intros L. destruct (Qle_bool x y) eqn:B; [| reflexivity].
    apply Qle_bool_iff in B. lra.
Qed.

(** X4.  In every metric set the advice of a metric is among the
    recommendations exactly when the metric is below 0.4.  So a metric
    that is listed as weak (at most 0.3) always comes with its advice,
    and a metric that is listed as strong (at least 0.7) never does. *)
Theorem advice_follows_the_metric :
  forall a d c doc cq name v text,
    let metrics := Spec.metric_set a d c doc cq in
    In (name, v) metrics -> In (name, text) advice ->
    exists recommendations,
      _get_recommendations metrics = Ok recommendations
      /\ (In text recommendations <-> v < lit 0.4)
      /\ (v <= lit 0.3 ->
          In (describe "Weak" name v) (_get_weaknesses metrics)
          /\ In text recommendations)
      /\ (lit 0.7 <= v ->
          In (describe "Strong" name v) (_get_strengths metrics)
          /\ ~ In text recommendations).
Proof.
  intros a d c doc cq name v text metrics HI HA.
  assert (K : exists recommendations,
             _get_recommendations metrics = Ok recommendations
             /\ (In text recommendations <-> v < lit 0.4)).
  { unfold metrics. rewrite recommendations_value.
    eexists. split; [reflexivity |].
    rewrite <- below_threshold.
    unfold metrics, Spec.metric_set in HI. cbn [In] in HI.
    unfold advice in HA. cbn [In] in HA.
    destruct HI as [HI | [HI | [HI | [HI | [HI | []]]]]]; injection HI as <- <-;
      destruct HA as [HA | [HA | [HA | [HA | [HA | []]]]]]; try discriminate HA;
      injection HA as <-;
      destruct (negb (Qle_bool (lit 0.4) a)), (negb (Qle_bool (lit 0.4) d)),
        (negb (Qle_bool (lit 0.4) c)), (negb (Qle_bool (lit 0.4) doc)),
        (negb (Qle_bool (lit 0.4) cq));
      cbn [app nonempty In]; intuition discriminate. }
  destruct K as (recs & E & I). exists recs. split; [exact E |]. split; [exact I |].
  assert (L34 : lit 0.3 < lit 0.4) by (apply Qlt_alt; vm_compute; reflexivity).
  assert (L47 : lit 0.4 < lit 0.7) by (apply Qlt_alt; vm_compute; reflexivity).
  split.
  - intros W. split; [now apply Claims.weaknesses_in |]. apply I. lra.
  - intros S. split; [now apply Claims.strengths_in |]. rewrite I. lra.
Qed.

Lemma advice_follows_the_metric_witness :
  exists recommendations,
    _get_recommendations (Spec.metric_set (lit 0.2) 1 (lit 0.5) 1 1) = Ok recommendations
    /\ (In "Increase your activity by making regular commits and repository updates"
           recommendations <-> lit 0.2 < lit 0.4)
    /\ (lit 0.2 <= lit 0.3 ->
        In (describe "Weak" "activity" (lit 0.2))
           (_get_weaknesses (Spec.metric_set (lit 0.2) 1 (lit 0.5) 1 1))
        /\ In "Increase your activity by making regular commits and repository updates"
              recommendations)
    /\ (lit 0.7 <= lit 0.2 ->
        In (describe "Strong" "activity" (lit 0.2))
           (_get_strengths (Spec.metric_set (lit 0.2) 1 (lit 0.5) 1 1))
        /\ ~ In "Increase your activity by making regular commits and repository updates"
                recommendations).
Proof.
  apply (advice_follows_the_metric (lit 0.2) 1 (lit 0.5) 1 1 "activity" (lit 0.2)).
  - cbn. tauto.
  - cbn. tauto.
Defined.

(** *** The three lists *)

Lemma feedback_sizes :
  forall a d c doc cq,
    let metrics := Spec.metric_set a d c doc cq in
    (1 <= length (_get_strengths metrics) <= 5)%nat
    /\ (1 <= length (_get_weaknesses metrics) <= 5)%nat
    /\ exists recommendations,
         _get_recommendations metrics = Ok recommendations
         /\ (1 <= length recommendations <= 5)%nat.
Proof.
  intros a d c doc cq metrics. unfold metrics. split; [| split].
  - unfold _get_strengths, Spec.metric_set. cbn [flat_map].
    destruct (Qle_bool (lit 0.7) a), (Qle_bool (lit 0.7) d), (Qle_bool (lit 0.7) c),
      (Qle_bool (lit 0.7) doc), (Qle_bool (lit 0.7) cq); cbn [app nonempty length]; lia.
  - unfold _get_weaknesses, Spec.metric_set. cbn [flat_map].
    destruct (Qle_bool a (lit 0.3)), (Qle_bool d (lit 0.3)), (Qle_bool c (lit 0.3)),
      (Qle_bool doc (lit 0.3)), (Qle_bool cq (lit 0.3)); cbn [app nonempty length]; lia.
  - rewrite recommendations_value. eexists. split; [reflexivity |].
    destruct (negb (Qle_bool (lit 0.4) a)), (negb (Qle_bool (lit 0.4) d)),
      (negb (Qle_bool (lit 0.4) c)), (negb (Qle_bool (lit 0.4) doc)),
      (negb (Qle_bool (lit 0.4) cq)); cbn [app nonempty length]; lia.
Qed.

(** X5.  Each of the three lists of feedback has at least one entry, the
    placeholder when nothing qualifies, and at most five, one per
    metric. *)
Theorem feedback_lists_are_bounded :
  forall a d c doc cq,
    let metrics := Spec.metric_set a d c doc cq in
    (1 <= length (_get_strengths metrics) <= 5)%nat
    /\ (1 <= length (_get_weaknesses metrics) <= 5)%nat
    /\ exists recommendations,
         _get_recommendations metrics = Ok recommendations
         /\ (1 <= length recommendations <= 5)%nat.
Proof. exact feedback_sizes. Qed.

(** *** The message and the reported score *)

Lemma round2_fixed_thresholds : round2 4 = 4 /\ round2 6 = 6 /\ round2 8 = 8.
Proof. repeat split; vm_compute; reflexivity. Qed.

Lemma threshold_test_after_rounding t s :
  round2 t = t -> ~ round2 s == t -> Qle_bool t (round2 s) = Qle_bool t s.
Proof.
  intros T N.
  destruct (Qle_bool t s) eqn:B.
  - apply Qle_bool_iff in B. apply Qle_bool_iff.
    rewrite <- T. now apply round2_mono.
  - destruct (Qle_bool t (round2 s)) eqn:C; [| reflexivity].
    apply Qle_bool_iff in C.
    assert (L : s <= t).
    { destruct (Qlt_le_dec s t) as [L | L]; [now apply Qlt_le_weak |].
      apply Qle_bool_iff in L. congruence. }
    apply round2_mono in L. rewrite T in L.
    exfalso. apply N. now apply Qle_antisym.
Qed.

(** X6.  The message shown with a result is the one of the score it reports,
    except possibly when the reported score is exactly 4, 6 or 8: only
    there can rounding to two decimals move the score across a tier. *)
Theorem message_matches_reported_score :
  forall api (now : clock) username i b j,
    analyze_profile api now username i = (Ok b, j) ->
    ~ Bundle.score b == 4 -> ~ Bundle.score b == 6 -> ~ Bundle.score b == 8 ->
    Bundle.appreciation b = _get_appreciation (Bundle.score b).
Proof.
  intros api now username i b j H.
  destruct (analyze_profile_ok _ _ _ _ _ _ H)
    as (profile & repos & contributions & metrics & score & recs
        & _ & _ & _ & _ & _ & _ & _ & ->).
  cbn [Bundle.score Bundle.appreciation]. intros N4 N6 N8.
  destruct round2_fixed_thresholds as (T4 & T6 & T8).
  unfold _get_appreciation.
  now rewrite (threshold_test_after_rounding 8 score T8 N8),
    (threshold_test_after_rounding 6 score T6 N6),
    (threshold_test_after_rounding 4 score T4 N4).
Qed.

Lemma message_matches_reported_score_witness :
  exists b,
    analyze_profile
      (GitHubAPI.frozen Examples.newcomer
         [Examples.go_repo (Examples.noon - timedelta 200)] [])
      Examples.still "octocat" 0%nat = (Ok b, 0%nat)
    /\ Bundle.score b = lit 0.73
    /\ Bundle.appreciation b = _get_appreciation (Bundle.score b).
Proof.
  eexists.
  eassert (E : analyze_profile
                 (GitHubAPI.frozen Examples.newcomer
                    [Examples.go_repo (Examples.noon - timedelta 200)] [])
                 Examples.still "octocat" 0%nat = (Ok _, _))
    by (vm_compute; reflexivity).
  split; [exact E |]. split; [vm_compute; reflexivity |].
  apply (message_matches_reported_score _ _ _ _ _ _ E);
    vm_compute; intros C; discriminate C.
Defined.

(** *** The activity metric at one instant *)

Lemma recent_from_window {A} (now : clock) days (stamp : A -> Z) l i start stop instant :
  (forall k, (k < length l)%nat -> (start <= now (i + k)%nat <= stop)%Z) ->
  (start <= instant <= stop)%Z ->
  Forall (fun a => Snapshot.off_edge days start stop (stamp a)) l ->
  recent_from now days stamp l i
  = List.filter (fun a => (instant - timedelta days <? stamp a)%Z) l.
Proof.
  intros Hn Hi Hl. revert i Hn.
  induction Hl as [| a l Ha _ IH]; intros i Hn; [reflexivity |].
  cbn [recent_from List.filter].
  rewrite (IH (S i)).
  2:{ intros k Hk. specialize (Hn (S k) ltac:(cbn; lia)).
      now rewrite Nat.add_succ_r in Hn. }
  specialize (Hn 0%nat ltac:(cbn; lia)). rewrite Nat.add_0_r in Hn.
  assert (E : (now i - timedelta days <? stamp a)%Z
              = (instant - timedelta days <? stamp a)%Z).
  { unfold Snapshot.off_edge in Ha.
    destruct (Z.ltb_spec (now i - timedelta days) (stamp a)),
      (Z.ltb_spec (instant - timedelta days) (stamp a)); try reflexivity; lia. }
  now rewrite E.
Qed.

Lemma activity_at_instant :
  forall (now : clock) contributions repos i start stop instant,
    (forall k, (k < Snapshot.readings contributions repos)%nat ->
               (start <= now (i + k)%nat <= stop)%Z) ->
    (start <= instant <= stop)%Z ->
    Forall (fun e => Snapshot.off_edge 30 start stop (Event.created_at e)) contributions ->
    Forall (fun r => Snapshot.off_edge 90 start stop (Repo.updated_at r)) repos ->
    _calculate_activity_metric now contributions repos i
    = (Snapshot.activity instant contributions repos,
       (i + Snapshot.readings contributions repos)%nat).
Proof.
  intros now contributions repos i start stop instant Hn Hi He Hr.
  unfold _calculate_activity_metric, Snapshot.activity, Snapshot.readings in *.
  destruct (nonempty contributions); cbn [negb].
  { unfold mbind. rewrite !filterM_recent_from.
    rewrite (recent_from_window now 30 Event.created_at contributions i
               start stop instant); [| | exact Hi | exact He].
    2:{ intros k Hk. apply Hn. lia. }
    rewrite (recent_from_window now 90 Repo.updated_at repos (i + length contributions)
               start stop instant); [| | exact Hi | exact Hr].
    2:{ intros k Hk. rewrite <- Nat.add_assoc. apply Hn. lia. }
    fold (Snapshot.recent_events instant contributions).
    fold (Snapshot.recent_repos instant repos).
    unfold lift, ret.
    destruct (ratio (len (Snapshot.recent_events instant contributions)) 30);
      cbn [bind]; [| now rewrite Nat.add_assoc].
    destruct (if nonempty repos then _ else _); cbn [bind]; now rewrite Nat.add_assoc. }
  unfold ret. now rewrite Nat.add_0_r.
Qed.

(** X7.  If all the readings of the clock taken by one call lie between two
    instants, and no event or repository crosses the edge of its window
    between these two, the activity metric is the one of any single
    instant between them: the recent events and repositories are those of
    that instant.  The call reads the clock once per event and once per
    repository, and not at all without events. *)
Theorem activity_as_of_one_instant :
  forall (now : clock) contributions repos i start stop instant,
    (forall k, (k < Snapshot.readings contributions repos)%nat ->
               (start <= now (i + k)%nat <= stop)%Z) ->
    (start <= instant <= stop)%Z ->
    Forall (fun e => Snapshot.off_edge 30 start stop (Event.created_at e)) contributions ->
    Forall (fun r => Snapshot.off_edge 90 start stop (Repo.updated_at r)) repos ->
    _calculate_activity_metric now contributions repos i
    = (Snapshot.activity instant contributions repos,
       (i + Snapshot.readings contributions repos)%nat).
Proof. exact activity_at_instant. Qed.

Lemma activity_as_of_one_instant_witness :
  _calculate_activity_metric Examples.ticking Examples.one_event
    [Examples.go_repo Examples.noon] 0%nat
  = (Snapshot.activity (Examples.noon + 1000000) Examples.one_event
       [Examples.go_repo Examples.noon], 2%nat).
Proof.
  apply (activity_as_of_one_instant Examples.ticking Examples.one_event
           [Examples.go_repo Examples.noon] 0%nat
           (Examples.noon + 999999) (Examples.noon + 1000000) (Examples.noon + 1000000)).
  - intros k Hk. cbn in Hk. unfold Examples.ticking. lia.
  - lia.
  - constructor; [right; vm_compute; reflexivity | constructor].
  - constructor; [right; vm_compute; reflexivity | constructor].
Defined.

(** *** Diversity and the set of repositories *)

Lemma languages_present repos (acc s : gset string) :
  for_each add_language repos acc = Ok s ->
  Forall (fun r => Repo.language r <> None) repos.
Proof.
  revert acc. induction repos as [| r repos IH]; intros acc H; [constructor |].
  cbn [for_each] in H. unfold add_language at 1 in H.
  destruct (Repo.language r) as [l |] eqn:E; [| discriminate H].
  cbn [subscript bind] in H. constructor; [congruence | eapply IH; exact H].
Qed.

Lemma flat_map_incl {A B} (f : A -> list B) l l' :
  incl l l' -> incl (flat_map f l) (flat_map f l').
Proof.
  intros H x Hx. apply in_flat_map in Hx as (a & Ha & Hx).
  apply in_flat_map. exists a. split; [now apply H | exact Hx].
Qed.

Lemma size_list_to_set_incl (l l' : list string) :
  incl l l' ->
  (base.size (list_to_set l : gset string) <= base.size (list_to_set l' : gset string))%nat.
Proof.
  intros H. apply subseteq_size. intros x Hx.
  apply elem_of_list_to_set in Hx. apply elem_of_list_to_set.
  apply list_elem_of_In. apply H. now apply list_elem_of_In.
Qed.

Lemma min_mono x y : x <= y -> min x 1 <= min y 1.
Proof.
  intros H.
  destruct (min_cases x 1) as [[Lx ->] | [Lx ->]],
    (min_cases y 1) as [[Ly ->] | [Ly ->]]; lra.
Qed.

Lemma ratio_mono a a' b x x' :
  (0 <= a <= a')%Z -> (0 < b)%Z ->
  ratio a b = Ok x -> ratio a' b = Ok x' -> x <= x'.
Proof.
  intros Ha Hb. unfold ratio.
  destruct (truediv a b) as [q |] eqn:E; [| discriminate].
  destruct (truediv a' b) as [q' |] eqn:E'; [| discriminate].
  cbn [bind]. intros [= <-] [= <-].
  destruct (truediv_sound a b q E) as [-> _]; [lia | lia |].
  destruct (truediv_sound a' b q' E') as [-> _]; [lia | lia |].
  apply min_mono, rnd_mono.
  assert (Qb : 0 < inject_Z b) by (rewrite <- (Zlt_Qlt 0); exact Hb).
  apply Qmult_le_compat_r; [rewrite <- Zle_Qle; lia |].
  apply Qlt_le_weak. now apply Qinv_lt_0_compat.
Qed.

(** X8.  The diversity metric never goes down when repositories are added:
    if every repository of one collection is in another, and the metric
    is returned for both, that of the larger collection is at least that
    of the smaller. *)
Theorem diversity_grows_with_repositories :
  forall repos repos' d d',
    incl repos repos' ->
    _calculate_diversity_metric repos = Ok d ->
    _calculate_diversity_metric repos' = Ok d' ->
    d <= d'.
Proof.
  intros repos repos' d d' H E E'.
  destruct repos as [| r0 repos].
  { injection E as <-. apply (diversity_sound _ _ E'). }
  destruct repos' as [| r1 repos'].
  { exfalso. apply (H r0). now left. }
  remember (r0 :: repos) as rs eqn:Rs. remember (r1 :: repos') as rs' eqn:Rs'.
  unfold _calculate_diversity_metric in E, E'.
  rewrite Rs in E at 1. rewrite Rs' in E' at 1. cbn [nonempty negb] in E, E'.
  destruct (for_each add_language rs ∅) as [ls |] eqn:L; [| discriminate E].
  destruct (for_each add_language rs' ∅) as [ls' |] eqn:L'; [| discriminate E'].
  rewrite (languages_loop _ _ (languages_present _ _ _ L)) in L. injection L as <-.
  rewrite (languages_loop _ _ (languages_present _ _ _ L')) in L'. injection L' as <-.
  rewrite topics_loop in E, E'. cbn [bind] in E, E'.
  rewrite !(right_id_L ∅ (∪)) in E, E'.
  destruct (ratio (Z.of_nat (base.size (list_to_set (Spec.language_values rs)))) 5)
    as [l |] eqn:El; [| discriminate E].
  destruct (ratio (Z.of_nat (base.size (list_to_set (Spec.topic_values rs)))) 10)
    as [t |] eqn:Et; [| discriminate E].
  destruct (ratio (Z.of_nat (base.size (list_to_set (Spec.language_values rs')))) 5)
    as [l' |] eqn:El'; [| discriminate E'].
  destruct (ratio (Z.of_nat (base.size (list_to_set (Spec.topic_values rs')))) 10)
    as [t' |] eqn:Et'; [| discriminate E'].
  cbn [bind] in E, E'. injection E as <-. injection E' as <-.
  assert (Hl : l <= l').
  { eapply ratio_mono; [| | exact El | exact El']; [| lia].
    pose proof (size_list_to_set_incl _ _
                  (flat_map_incl _ _ _ H : incl (Spec.language_values rs)
                                                (Spec.language_values rs'))).
    lia. }
  assert (Ht : t <= t').
  { eapply ratio_mono; [| | exact Et | exact Et']; [| lia].
    pose proof (size_list_to_set_incl _ _
                  (flat_map_incl _ _ _ H : incl (Spec.topic_values rs)
                                                (Spec.topic_values rs'))).
    lia. }
  apply fadd_mono; (apply fmul_mono; [apply lit_nonneg; discriminate | assumption]).
Qed.

Lemma diversity_grows_with_repositories_witness :
  exists d d',
    _calculate_diversity_metric [Examples.go_repo Examples.noon] = Ok d
    /\ _calculate_diversity_metric (Examples.go_repo Examples.noon :: Examples.kept_repos)
       = Ok d'
    /\ d <= d'.
Proof.
  eexists. eexists.
  eassert (E : _calculate_diversity_metric [Examples.go_repo Examples.noon] = Ok _)
    by (vm_compute; reflexivity).
  eassert (E' : _calculate_diversity_metric
                  (Examples.go_repo Examples.noon :: Examples.kept_repos) = Ok _)
    by (vm_compute; reflexivity).
  split; [exact E |]. split; [exact E' |].
  apply (diversity_grows_with_repositories _ _ _ _
           (incl_cons (in_eq _ _) (incl_nil_l _)) E E').
Defined.

(** *** The percentages in the lists *)

Lemma shown_percentage v :
  0 <= v -> v <= 1 ->
  format_0f (fmul v 100) = decimal (Float.rne (fmul v 100)%Q)
  /\ (0 <= Float.rne (fmul v 100)%Q <= 100)%Z.
Proof.
  intros L U.
  assert (P : 0 <= fmul v 100) by (apply fmul_nonneg; [exact L | discriminate]).
  assert (B : (0 <= Float.rne (fmul v 100)%Q <= 100)%Z).
  { split.
    - rewrite <- (rne_Z 0). now apply rne_mono.
    - replace 100%Z with (Float.rne (fmul 1 100)%Q) by (vm_compute; reflexivity).
      apply rne_mono, fmul_mono; [discriminate | exact U]. }
  split; [| exact B].
  unfold format_0f. apply Qle_bool_iff in P. rewrite P.
  cbn zeta. cbn [String.append]. now rewrite Z.abs_eq by apply B.
Qed.

(** The metrics of an analysis of data that conforms to the data model
    are between 0 and 1, and its lists are those of its metrics. *)
Lemma analysed_metrics (now : clock) profile repos contributions username i b j :
  Spec.conforms profile repos ->
  analyze_profile (GitHubAPI.frozen profile repos contributions) now username i
  = (Ok b, j) ->
  Forall (fun item => 0 <= snd item /\ snd item <= 1) (Bundle.metrics b)
  /\ Bundle.strengths b = _get_strengths (Bundle.metrics b)
  /\ Bundle.weaknesses b = _get_weaknesses (Bundle.metrics b).
Proof.
  intros (HP & HR & _) H.
  destruct (analyze_profile_ok _ _ _ _ _ _ H)
    as (p & r & c & metrics & score & recs & Hp & Hr & Hc & _ & Hm & _ & _ & Hb).
  cbn [GitHubAPI.frozen GitHubAPI.get_user_profile GitHubAPI.get_user_repos
       GitHubAPI.get_user_contributions] in Hp, Hr, Hc.
  apply ok_inj in Hp. apply ok_inj in Hr. apply ok_inj in Hc. subst p r c.
  destruct (metrics_sound _ _ _ _ _ _ _ HP HR Hm)
    as (a & d & c & doc & cq & Em & Ua & Ud & Uc & Udoc & Ucq).
  rewrite Hb. cbn [Bundle.metrics Bundle.strengths Bundle.weaknesses].
  split; [| split; reflexivity].
  rewrite Em. unfold Spec.metric_set.
  repeat (constructor; [cbn [snd]; split; (apply unit_ge0 || apply unit_le1); assumption |]).
  constructor.
Qed.

(** In the model a float is the number it denotes.  The lemma is used
    for the metrics the engine computes from non-negative counts, which
    are sums of products of non-negative floats. *)
Lemma listed_in_unit_metrics :
  forall (metrics : dict float) entry,
    Forall (fun item => 0 <= snd item /\ snd item <= 1) metrics ->
    (In entry (_get_strengths metrics) ->
     entry = "No significant strengths identified"
     \/ exists name v p,
          In (name, v) metrics /\ lit 0.7 <= v /\ (70 <= p <= 100)%Z
          /\ entry = "Strong " ++ replace "_" " " name ++ " (" ++ decimal p ++ "%)")
    /\ (In entry (_get_weaknesses metrics) ->
        entry = "No significant weaknesses identified"
        \/ exists name v p,
             In (name, v) metrics /\ v <= lit 0.3 /\ (0 <= p <= 30)%Z
             /\ entry = "Weak " ++ replace "_" " " name ++ " (" ++ decimal p ++ "%)").
Proof.
  intros metrics entry HU.
  assert (U : forall name v, In (name, v) metrics -> 0 <= v /\ v <= 1).
  { intros name v HI. rewrite List.Forall_forall in HU. exact (HU _ HI). }
  split.
  - unfold _get_strengths.
    destruct (nonempty _); [| intros [<- | []]; now left].
    intros HI. apply in_flat_map in HI as ((name, v) & HM & HI).
    destruct (Qle_bool (lit 0.7) v) eqn:B; [| destruct HI].
    destruct HI as [<- | []]. apply Qle_bool_iff in B.
    destruct (U _ _ HM) as [L1 U1]. destruct (shown_percentage v L1 U1) as [F [_ P1]].
    right. exists name, v, (Float.rne (fmul v 100)%Q).
    split; [exact HM |]. split; [exact B |]. split.
    + split; [| exact P1].
      replace 70%Z with (Float.rne (fmul (lit 0.7) 100)%Q) by (vm_compute; reflexivity).
      apply rne_mono, fmul_mono; [discriminate | exact B].
    + unfold describe. now rewrite F.
  - unfold _get_weaknesses.
    destruct (nonempty _); [| intros [<- | []]; now left].
    intros HI. apply in_flat_map in HI as ((name, v) & HM & HI).
    destruct (Qle_bool v (lit 0.3)) eqn:B; [| destruct HI].
    destruct HI as [<- | []]. apply Qle_bool_iff in B.
    destruct (U _ _ HM) as [L1 U1]. destruct (shown_percentage v L1 U1) as [F [P0 _]].
    right. exists name, v, (Float.rne (fmul v 100)%Q).
    split; [exact HM |]. split; [exact B |]. split.
    + split; [exact P0 |].
      replace 30%Z with (Float.rne (fmul (lit 0.3) 100)%Q) by (vm_compute; reflexivity).
      apply rne_mono, fmul_mono; [discriminate | exact B].
    + unfold describe. now rewrite F.
Qed.

(** X9.  In every analysis of data that conforms to the data model, each
    entry of the list of strengths is the placeholder or has the form
    [Strong <name> (<p>%)] for one of the metrics of the bundle, with a
    whole percentage [p] from 70 to 100; each entry of the list of
    weaknesses is the placeholder or [Weak <name> (<p>%)] with [p] from 0
    to 30. *)
Theorem listed_percentages :
  forall (now : clock) profile repos contributions username i b j entry,
    Spec.conforms profile repos ->
    analyze_profile (GitHubAPI.frozen profile repos contributions) now username i
    = (Ok b, j) ->
    (In entry (Bundle.strengths b) ->
     entry = "No significant strengths identified"
     \/ exists name v p,
          In (name, v) (Bundle.metrics b) /\ lit 0.7 <= v /\ (70 <= p <= 100)%Z
          /\ entry = "Strong " ++ replace "_" " " name ++ " (" ++ decimal p ++ "%)")
    /\ (In entry (Bundle.weaknesses b) ->
        entry = "No significant weaknesses identified"
        \/ exists name v p,
             In (name, v) (Bundle.metrics b) /\ v <= lit 0.3 /\ (0 <= p <= 30)%Z
             /\ entry = "Weak " ++ replace "_" " " name ++ " (" ++ decimal p ++ "%)").
Proof.
  intros now profile repos contributions username i b j entry HC H.
  destruct (analysed_metrics _ _ _ _ _ _ _ _ HC H) as (U & -> & ->).
  now apply listed_in_unit_metrics.
Qed.

Lemma listed_percentages_witness :
  exists b,
    analyze_profile
      (GitHubAPI.frozen Examples.newcomer
         [Examples.go_repo (Examples.noon - timedelta 200)] [])
      Examples.still "octocat" 0%nat = (Ok b, 0%nat)
    /\ In "Weak diversity (14%)" (Bundle.weaknesses b)
    /\ exists name v p,
         In (name, v) (Bundle.metrics b) /\ v <= lit 0.3 /\ (0 <= p <= 30)%Z
         /\ "Weak diversity (14%)"
            = "Weak " ++ replace "_" " " name ++ " (" ++ decimal p ++ "%)".
Proof.
  eexists.
  eassert (E : analyze_profile
                 (GitHubAPI.frozen Examples.newcomer
                    [Examples.go_repo (Examples.noon - timedelta 200)] [])
                 Examples.still "octocat" 0%nat = (Ok _, _))
    by (vm_compute; reflexivity).
  split; [exact E |].
  assert (C : Spec.conforms Examples.newcomer
                [Examples.go_repo (Examples.noon - timedelta 200)]).
  { unfold Spec.conforms, Spec.profile_conforms.
    split; [split; vm_compute; discriminate |].
    split; [repeat constructor; vm_compute; discriminate | discriminate]. }
  split; [vm_compute; tauto |].
  destruct (proj2 (listed_percentages _ _ _ _ _ _ _ _ "Weak diversity (14%)" C E))
    as [P | P]; [vm_compute; tauto | discriminate P | exact P].
Defined.

(** *** The size score is exact *)

Lemma prec_below_big : (2 ^ prec < big)%Z.
Proof. vm_compute. reflexivity. Qed.

Lemma rnd_half h : (0 <= h < 2 ^ prec)%Z -> rnd (inject_Z h / 2) == inject_Z h / 2.
Proof.
  intros Hh. destruct (Z.eq_dec h 0%Z) as [-> | N0]; [reflexivity |].
  assert (P : 0 < inject_Z h / 2).
  { apply Qlt_shift_div_l; [reflexivity |]. rewrite Qmult_0_l, <- (Zlt_Qlt 0). lia. }
  assert (E : inject_Z h / 2 == inject_Z h * pow2 (-1)) by (change (pow2 (-1)) with (/ 2); field).
  rewrite (rnd_positive _ P), (rnd_pos_comp _ _ P E).
  rewrite rnd_pos_repr; [symmetry; exact E | lia | unfold emin, prec; lia].
Qed.

Lemma half_points_range r : (0 <= Snapshot.half_points r <= 2)%Z.
Proof.
  unfold Snapshot.half_points.
  destruct (Repo.size r <? 1000)%Z; [lia |]. destruct (Repo.size r <? 5000)%Z; lia.
Qed.

Lemma add_size_exact h st r :
  (0 <= h)%Z -> (h + 2 < 2 ^ prec)%Z -> Snapshot.size_exact h st ->
  exists st', add_size st r = Ok st'
              /\ Snapshot.size_exact (h + Snapshot.half_points r) st'.
Proof.
  intros H0 H1 I. pose proof prec_below_big as PB. pose proof half as Hh.
  unfold add_size, Snapshot.half_points.
  destruct (Repo.size r <? 1000)%Z; [| destruct (Repo.size r <? 5000)%Z].
  - destruct st as [c | x]; cbn [add_int Snapshot.size_exact] in *.
    + eexists. split; [reflexivity |]. cbn [Snapshot.size_exact]. lia.
    + rewrite to_float_1. cbn [bind]. eexists. split; [reflexivity |].
      cbn [Snapshot.size_exact]. unfold fadd. apply rnd_comp.
      rewrite I, rnd_half by lia. rewrite inject_Z_plus. change (inject_Z 2) with 2. field.
  - destruct st as [c | x]; cbn [add_float Snapshot.size_exact] in *.
    + rewrite to_float_ok by lia. cbn [bind]. eexists. split; [reflexivity |].
      cbn [Snapshot.size_exact]. unfold fadd. apply rnd_comp.
      rewrite rnd_int by lia. rewrite Hh, I, inject_Z_plus, inject_Z_mult.
      change (inject_Z 2) with 2. change (inject_Z 1) with 1. field.
    + eexists. split; [reflexivity |].
      cbn [Snapshot.size_exact]. unfold fadd. apply rnd_comp.
      rewrite I, rnd_half by lia. rewrite Hh, inject_Z_plus. change (inject_Z 1) with 1. field.
  - exists st. split; [reflexivity |]. now rewrite Z.add_0_r.
Qed.

Lemma size_loop_exact repos h st :
  (0 <= h)%Z -> (h + 2 * len repos < 2 ^ prec)%Z -> Snapshot.size_exact h st ->
  exists st', for_each add_size repos st = Ok st'
              /\ Snapshot.size_exact (h + sum (map Snapshot.half_points repos)) st'.
Proof.
  revert h st. induction repos as [| r repos IH]; intros h st H0 H1 I.
  - exists st. split; [reflexivity |]. unfold sum. cbn. now rewrite Z.add_0_r.
  - rewrite len_cons in H1. pose proof (len_nonneg repos) as L.
    pose proof (half_points_range r) as R.
    destruct (add_size_exact h st r) as (st1 & E1 & I1); [lia | lia | exact I |].
    destruct (IH (h + Snapshot.half_points r)%Z st1) as (st' & E' & I');
      [lia | lia | exact I1 |].
    exists st'. cbn [for_each]. rewrite E1. cbn [bind]. split; [exact E' |].
    cbn [map]. rewrite sum_cons.
    now replace (h + (Snapshot.half_points r + sum (map Snapshot.half_points repos)))%Z
      with (h + Snapshot.half_points r + sum (map Snapshot.half_points repos))%Z by lia.
Qed.

Lemma div_int_exact h st n :
  (0 <= h < 2 ^ prec)%Z -> (0 < n < 2 ^ prec)%Z -> Snapshot.size_exact h st ->
  div_int st n = Ok (rnd (inject_Z h / inject_Z (2 * n))).
Proof.
  intros Hh Hn I. pose proof prec_below_big as PB.
  assert (Qn : 0 < inject_Z n) by (rewrite <- (Zlt_Qlt 0); lia).
  destruct st as [c | x]; cbn [div_int Snapshot.size_exact] in *.
  - rewrite truediv_ok by lia. f_equal. apply rnd_comp.
    rewrite I, !inject_Z_mult. change (inject_Z 2) with 2. field. lra.
  - rewrite to_float_ok by lia. cbn [bind]. unfold fdiv.
    pose proof (rnd_int n ltac:(lia)) as En.
    destruct (Qeq_bool (rnd (inject_Z n)) 0) eqn:Z0.
    { apply Qeq_bool_iff in Z0. lra. }
    f_equal. apply rnd_comp.
    rewrite I, rnd_half, En, inject_Z_mult by lia. change (inject_Z 2) with 2. field. lra.
Qed.

Lemma size_score_exact repos :
  repos <> [] -> (len repos < 2 ^ 52)%Z ->
  exists size_score,
    for_each add_size repos (Int 0) = Ok size_score
    /\ div_int size_score (len repos) = Ok (Snapshot.size_score repos).
Proof.
  intros NE B.
  assert (L : (0 < len repos)%Z) by (destruct repos; [congruence | rewrite len_cons; pose proof (len_nonneg repos); lia]).
  assert (P : (2 ^ prec = 2 * 2 ^ 52)%Z) by reflexivity.
  destruct (size_loop_exact repos 0 (Int 0)) as (st & E & I);
    [lia | lia | reflexivity |].
  exists st. split; [exact E |]. rewrite Z.add_0_l in I.
  apply div_int_exact; [| lia | exact I].
  assert (S : (0 <= sum (map Snapshot.half_points repos) <= 2 * len repos)%Z).
  { clear. induction repos as [| r repos IH]; [unfold sum, len; cbn; lia |].
    cbn [map]. rewrite sum_cons, len_cons. pose proof (half_points_range r). lia. }
  lia.
Qed.

(** X10.  For fewer than 2^52 repositories the loop that adds 1 and 0.5 to
    the size score loses nothing to rounding: the score it leaves,
    divided by the number of repositories, is the quotient of the exact
    sum, rounded once. *)
Theorem size_score_is_exact :
  forall repos,
    repos <> [] -> (len repos < 2 ^ 52)%Z ->
    exists size_score,
      for_each add_size repos (Int 0) = Ok size_score
      /\ div_int size_score (len repos) = Ok (Snapshot.size_score repos).
Proof. intros repos. apply size_score_exact. Qed.

Lemma size_score_is_exact_witness :
  exists size_score,
    for_each add_size Examples.kept_repos (Int 0) = Ok size_score
    /\ div_int size_score (len Examples.kept_repos)
       = Ok (Snapshot.size_score Examples.kept_repos).
Proof.
  apply size_score_is_exact; [discriminate | vm_compute; reflexivity].
Defined.

(** *** The order of the records *)

Lemma sum_map_perm {A} (f : A -> Z) l l' :
  Permutation l l' -> sum (map f l) = sum (map f l').
Proof.
  induction 1 as [| x l l' _ IH | x y l | l l' l'' _ IH1 _ IH2]; cbn [map].
  - reflexivity.
  - now rewrite !sum_cons, IH.
  - rewrite !sum_cons. lia.
  - congruence.
Qed.

Lemma len_perm {A} (l l' : list A) : Permutation l l' -> len l = len l'.
Proof. intros H. unfold len. now rewrite (Permutation_length H). Qed.

Lemma nonempty_perm {A} (l l' : list A) : Permutation l l' -> nonempty l = nonempty l'.
Proof.
  intros H. pose proof (Permutation_length H).
  destruct l, l'; cbn in *; congruence.
Qed.

Lemma len_filter {A} (test : A -> bool) l :
  len (List.filter test l) = sum (map (fun a => if test a then 1%Z else 0%Z) l).
Proof.
  induction l as [| a l IH]; [reflexivity |].
  cbn [List.filter map]. rewrite sum_cons. destruct (test a); [rewrite len_cons |]; lia.
Qed.

Lemma len_filter_perm {A} (test : A -> bool) l l' :
  Permutation l l' -> len (List.filter test l) = len (List.filter test l').
Proof. intros H. rewrite !len_filter. now apply sum_map_perm. Qed.

Lemma count_len test repos : count test repos = len (List.filter test repos).
Proof.
  unfold count. induction (List.filter test repos) as [| r l IH]; [reflexivity |].
  cbn [map]. rewrite sum_cons, len_cons. lia.
Qed.

Lemma count_perm test repos repos' :
  Permutation repos repos' -> count test repos = count test repos'.
Proof. intros H. rewrite !count_len. now apply len_filter_perm. Qed.

Lemma snapshot_activity_perm instant contributions contributions' repos repos' :
  Permutation contributions contributions' -> Permutation repos repos' ->
  Snapshot.activity instant contributions repos
  = Snapshot.activity instant contributions' repos'.
Proof.
  intros Hc Hr. unfold Snapshot.activity, Snapshot.recent_events, Snapshot.recent_repos.
  rewrite (nonempty_perm _ _ Hc), (nonempty_perm _ _ Hr), (len_perm _ _ Hr).
  now rewrite (len_filter_perm _ _ _ Hc), (len_filter_perm _ _ _ Hr).
Qed.

Lemma language_keys repos :
  Forall (fun r => Repo.language r <> None) repos
  \/ Exists (fun r => Repo.language r = None) repos.
Proof.
  induction repos as [| r repos [IH | IH]].
  - left. constructor.
  - destruct (Repo.language r) eqn:E.
    + left. constructor; [congruence | exact IH].
    + right. now constructor.
  - right. now constructor 2.
Qed.

Lemma diversity_perm repos repos' :
  Permutation repos repos' ->
  _calculate_diversity_metric repos = _calculate_diversity_metric repos'.
Proof.
  intros H. destruct (language_keys repos) as [K | K].
  - pose proof (Permutation_Forall H K) as K'.
    unfold _calculate_diversity_metric.
    rewrite (nonempty_perm _ _ H), (languages_loop _ _ K), (languages_loop _ _ K'),
      !topics_loop.
    assert (EL : list_to_set (Spec.language_values repos)
                 = list_to_set (Spec.language_values repos') :> gset string)
      by (apply list_to_set_perm_L, Permutation_flat_map, H).
    assert (ET : list_to_set (Spec.topic_values repos)
                 = list_to_set (Spec.topic_values repos') :> gset string)
      by (apply list_to_set_perm_L, Permutation_flat_map, H).
    now rewrite EL, ET.
  - now rewrite (diversity_missing_language _ K),
      (diversity_missing_language _ (Permutation_Exists H K)).
Qed.

Lemma community_perm profile repos repos' :
  Permutation repos repos' ->
  _calculate_community_metric profile repos = _calculate_community_metric profile repos'.
Proof.
  intros H. unfold _calculate_community_metric.
  now rewrite (nonempty_perm _ _ H), (len_perm _ _ H), (sum_map_perm _ _ _ H),
    (count_perm _ _ _ H).
Qed.

Lemma count_docs_fold repos c :
  fold_left count_docs repos c
  = mk_counts
      (readme_count c
       + sum (map (fun r => if truthy (Repo.description r) then 1%Z else 0%Z) repos))
      (wiki_count c + sum (map (fun r => if Repo.has_wiki r then 1%Z else 0%Z) repos))
      (description_count c
       + sum (map (fun r => if truthy (Repo.description r)
                               && (20 <? len_str (get (Repo.description r) ""))%Z
                            then 1%Z else 0%Z) repos))%Z.
Proof.
  revert c. induction repos as [| r repos IH]; intros c.
  - unfold sum. cbn. rewrite !Z.add_0_r. now destruct c.
  - cbn [fold_left map]. rewrite IH, !sum_cons. unfold count_docs.
    cbn [readme_count wiki_count description_count].
    destruct (Repo.has_wiki r), (truthy (Repo.description r)),
      (20 <? len_str (get (Repo.description r) ""))%Z; cbn [andb]; f_equal; lia.
Qed.

Lemma documentation_perm repos repos' :
  Permutation repos repos' ->
  _calculate_documentation_metric repos = _calculate_documentation_metric repos'.
Proof.
  intros H. unfold _calculate_documentation_metric.
  rewrite !count_docs_fold. cbn [readme_count wiki_count description_count].
  now rewrite (nonempty_perm _ _ H), (len_perm _ _ H), !(sum_map_perm _ _ _ H).
Qed.

Lemma code_quality_perm repos repos' :
  Permutation repos repos' -> (len repos < 2 ^ 52)%Z ->
  _calculate_code_quality_metric repos = _calculate_code_quality_metric repos'.
Proof.
  intros H B. unfold _calculate_code_quality_metric.
  rewrite <- (nonempty_perm _ _ H), <- (len_perm _ _ H), <- (sum_map_perm _ _ _ H),
    <- (count_perm _ _ _ H).
  destruct (nonempty repos) eqn:NE; cbn [negb]; [| reflexivity].
  destruct (truediv _ (len repos)) as [avg_stars |]; [| reflexivity]. cbn [bind].
  assert (N : repos <> []) by (intros ->; discriminate NE).
  assert (N' : repos' <> []).
  { intros ->. apply Permutation_sym, Permutation_nil in H. congruence. }
  assert (B' : (len repos' < 2 ^ 52)%Z) by now rewrite <- (len_perm _ _ H).
  assert (S : forall rs, rs <> [] -> (len rs < 2 ^ 52)%Z ->
              (size_score <- for_each add_size rs (Int 0) ;; div_int size_score (len rs))
              = Ok (Snapshot.size_score rs)).
  { intros rs NEs Bs. destruct (size_score_exact rs NEs Bs) as (st & E1 & E2).
    now rewrite E1. }
  pose proof (S repos N B) as S1. pose proof (S repos' N' B') as S2.
  rewrite <- (len_perm _ _ H) in S2.
  assert (E : Snapshot.size_score repos = Snapshot.size_score repos').
  { unfold Snapshot.size_score. now rewrite (len_perm _ _ H), (sum_map_perm _ _ _ H). }
  rewrite <- E in S2.
  destruct (for_each add_size repos (Int 0)) as [st |]; [| discriminate S1].
  destruct (for_each add_size repos' (Int 0)) as [st' |]; [| discriminate S2].
  cbn [bind] in *. now rewrite S1, S2.
Qed.

Lemma metrics_perm (now : clock) profile repos repos' contributions contributions'
    i i' start stop :
  Permutation repos repos' -> Permutation contributions contributions' ->
  (len repos < 2 ^ 52)%Z ->
  (forall k, (k < Snapshot.readings contributions repos)%nat ->
             (start <= now (i + k)%nat <= stop)%Z
             /\ (start <= now (i' + k)%nat <= stop)%Z) ->
  Forall (fun e => Snapshot.off_edge 30 start stop (Event.created_at e)) contributions ->
  Forall (fun r => Snapshot.off_edge 90 start stop (Repo.updated_at r)) repos ->
  fst (_calculate_metrics now profile repos contributions i)
  = fst (_calculate_metrics now profile repos' contributions' i').
Proof.
  intros Hr Hc B Hn Fe Fr.
  assert (A : fst (_calculate_activity_metric now contributions repos i)
              = fst (_calculate_activity_metric now contributions' repos' i')).
  { destruct (nonempty contributions) eqn:NE.
    - assert (SS : (start <= start <= stop)%Z).
      { assert (R : (0 < Snapshot.readings contributions repos)%nat).
        { unfold Snapshot.readings. rewrite NE. destruct contributions; [discriminate |].
          cbn [length]. lia. }
        destruct (Hn 0%nat R) as [[L U] _]. lia. }
      assert (R' : Snapshot.readings contributions' repos'
                   = Snapshot.readings contributions repos).
      { unfold Snapshot.readings.
        now rewrite <- (nonempty_perm _ _ Hc), <- (Permutation_length Hc),
          <- (Permutation_length Hr). }
      rewrite (activity_at_instant now contributions repos i start stop start);
        [| intros k Hk; apply (Hn k Hk) | exact SS | exact Fe | exact Fr].
      rewrite (activity_at_instant now contributions' repos' i' start stop start);
        [| rewrite R'; intros k Hk; apply (Hn k Hk) | exact SS
         | exact (Permutation_Forall Hc Fe) | exact (Permutation_Forall Hr Fr)].
      cbn [fst]. now apply snapshot_activity_perm.
    - unfold _calculate_activity_metric.
      rewrite <- (nonempty_perm _ _ Hc), NE. reflexivity. }
  unfold _calculate_metrics, mbind, lift, ret.
  rewrite <- (diversity_perm _ _ Hr), <- (community_perm profile _ _ Hr),
    <- (documentation_perm _ _ Hr), <- (code_quality_perm _ _ Hr B).
  destruct (_calculate_activity_metric now contributions repos i) as [[a1 | e1] j1];
    destruct (_calculate_activity_metric now contributions' repos' i') as [[a2 | e2] j2];
    cbn [fst] in A; try discriminate A; injection A as ->; [| reflexivity].
  destruct (_calculate_diversity_metric _); [| reflexivity].
  destruct (_calculate_community_metric _ _); [| reflexivity].
  destruct (_calculate_documentation_metric _); [| reflexivity].
  destruct (_calculate_code_quality_metric _); reflexivity.
Qed.

(** X11.  The result of an analysis does not depend on the order in which the
    repositories and the events are listed, nor on the user name asked
    for once the data is fetched: for fewer than 2^52 repositories, and
    clock readings between two instants that no event and no repository
    crosses the edge of its window in between, two analyses of the same
    records in different orders return the same bundle or raise the same
    exception. *)
Theorem order_of_records_is_irrelevant :
  forall (now : clock) profile repos repos' contributions contributions'
         username username' i i' start stop,
    Permutation repos repos' -> Permutation contributions contributions' ->
    (len repos < 2 ^ 52)%Z ->
    (forall k, (k < Snapshot.readings contributions repos)%nat ->
               (start <= now (i + k)%nat <= stop)%Z
               /\ (start <= now (i' + k)%nat <= stop)%Z) ->
    Forall (fun e => Snapshot.off_edge 30 start stop (Event.created_at e)) contributions ->
    Forall (fun r => Snapshot.off_edge 90 start stop (Repo.updated_at r)) repos ->
    fst (analyze_profile (GitHubAPI.frozen profile repos contributions) now username i)
    = fst (analyze_profile (GitHubAPI.frozen profile repos' contributions') now
             username' i').
Proof.
  intros now profile repos repos' contributions contributions' username username'
    i i' start stop Hr Hc B Hn Fe Fr.
  pose proof (metrics_perm now profile repos repos' contributions contributions'
                i i' start stop Hr Hc B Hn Fe Fr) as M.
  unfold analyze_profile, wrap_failure, mbind, lift, raise, ret, GitHubAPI.frozen.
  cbn [GitHubAPI.get_user_profile GitHubAPI.get_user_repos
         GitHubAPI.get_user_contributions].
  rewrite <- (nonempty_perm _ _ Hr).
  destruct (nonempty repos); cbn [negb]; [| reflexivity].
  destruct (_calculate_metrics now profile repos contributions i) as [[m1 | e1] j1];
    destruct (_calculate_metrics now profile repos' contributions' i') as [[m2 | e2] j2];
    cbn [fst] in M; try discriminate M; injection M as ->; [| reflexivity].
  destruct (_calculate_score m2); [| reflexivity].
  destruct (_get_recommendations m2); reflexivity.
Qed.

Lemma order_of_records_is_irrelevant_witness :
  fst (analyze_profile
         (GitHubAPI.frozen Examples.maintainer Examples.kept_repos Examples.busy_month)
         Examples.ticking "octocat" 0%nat)
  = fst (analyze_profile
           (GitHubAPI.frozen Examples.maintainer (rev Examples.kept_repos)
              Examples.busy_month)
           Examples.ticking "octocat" 7%nat).
Proof.
  apply (order_of_records_is_irrelevant Examples.ticking Examples.maintainer
           Examples.kept_repos (rev Examples.kept_repos)
           Examples.busy_month Examples.busy_month "octocat" "octocat" 0%nat 7%nat
           Examples.noon (Examples.noon + 2000000)).
  - apply Permutation_rev.
  - apply Permutation_refl.
  - vm_compute. reflexivity.
  - intros k Hk. cbn in Hk. unfold Examples.ticking. lia.
  - apply List.Forall_forall. intros e He. apply repeat_spec in He. subst e.
    right. vm_compute. reflexivity.
  - unfold Examples.kept_repos.
    repeat (constructor; [right; vm_compute; reflexivity |]). constructor.
Defined.

(** *** Documentation *)

Lemma documentation_value repos :
  repos <> [] ->
  let share (test : Repo.t -> bool) :=
    rnd (inject_Z (sum (map (fun r => if test r then 1%Z else 0%Z) repos))
         / inject_Z (len repos)) in
  _calculate_documentation_metric repos
  = Ok (fadd (fadd (fmul (share Snapshot.described) (lit 0.5))
                   (fmul (share Repo.has_wiki) (lit 0.3)))
             (fmul (share Snapshot.well_described) (lit 0.2))).
Proof.
  intros NE. cbn zeta. unfold _calculate_documentation_metric.
  destruct repos as [| r0 repos0]; [congruence |]. cbn [nonempty negb].
  remember (r0 :: repos0) as repos eqn:R.
  assert (L : (0 < len repos)%Z).
  { rewrite R, len_cons. pose proof (len_nonneg repos0). lia. }
  pose proof (count_docs_bounds repos (mk_counts 0 0 0)) as (B1 & B2 & B3).
  cbn zeta in B1, B2, B3. rewrite count_docs_fold in *.
  cbn [readme_count wiki_count description_count] in *.
  rewrite !Z.add_0_l in *.
  fold Snapshot.described Snapshot.well_described in *.
  destruct (truediv_fraction _ (len repos) B1 L) as [-> _].
  destruct (truediv_fraction _ (len repos) B2 L) as [-> _].
  destruct (truediv_fraction _ (len repos) B3 L) as [-> _].
  cbn [bind]. reflexivity.
Qed.

Lemma share_mono (test test' : Repo.t -> bool) repos repos' :
  Forall2 (fun r r' => test r = true -> test' r' = true) repos repos' ->
  (sum (map (fun r => if test r then 1%Z else 0%Z) repos)
   <= sum (map (fun r => if test' r then 1%Z else 0%Z) repos'))%Z.
Proof.
  induction 1 as [| r r' repos repos' H _ IH]; [reflexivity |].
  cbn [map]. rewrite !sum_cons.
  destruct (test r), (test' r'); try lia; discriminate (H eq_refl).
Qed.

Lemma share_all (test : Repo.t -> bool) repos :
  Forall (fun r => test r = true) repos ->
  sum (map (fun r => if test r then 1%Z else 0%Z) repos) = len repos.
Proof.
  induction 1 as [| r repos H _ IH]; [reflexivity |].
  cbn [map]. rewrite sum_cons, len_cons, H. lia.
Qed.

Lemma share_none (test : Repo.t -> bool) repos :
  Forall (fun r => test r = false) repos ->
  sum (map (fun r => if test r then 1%Z else 0%Z) repos) = 0%Z.
Proof.
  induction 1 as [| r repos H _ IH]; [reflexivity |].
  cbn [map]. rewrite sum_cons, H. lia.
Qed.

(** X12.  Documenting a repository better never lowers the documentation
    metric: if the repositories of one collection are, one by one,
    documented at least as well as those of another (a wiki where there
    was one, a description where there was one, a description of more
    than 20 characters where there was one), its metric is at least the
    other's.  The metric is 1.0 when every repository has a wiki and a
    description of more than 20 characters, and 0.0 when none has a wiki
    or a description. *)
Theorem documentation_rewards_documenting :
  forall repos repos',
    repos <> [] ->
    Forall2 Snapshot.documented_no_less repos repos' ->
    exists v v',
      _calculate_documentation_metric repos = Ok v
      /\ _calculate_documentation_metric repos' = Ok v'
      /\ v <= v'
      /\ (Forall (fun r => Repo.has_wiki r = true /\ Snapshot.well_described r = true)
            repos -> v = 1)
      /\ (Forall (fun r => Repo.has_wiki r = false /\ Snapshot.described r = false)
            repos -> v = 0).
Proof.
  intros repos repos' NE H.
  assert (NE' : repos' <> []).
  { destruct H; [congruence | discriminate]. }
  assert (EL : len repos' = len repos).
  { unfold len. f_equal. symmetry. eapply Forall2_length. exact H. }
  assert (L : (0 < len repos)%Z).
  { destruct repos; [congruence |]. rewrite len_cons. pose proof (len_nonneg repos). lia. }
  assert (QL : 0 < inject_Z (len repos)) by (rewrite <- (Zlt_Qlt 0); exact L).
  rewrite (documentation_value repos NE), (documentation_value repos' NE'), EL.
  do 2 eexists. split; [reflexivity |]. split; [reflexivity |].
  assert (M : forall (test : Repo.t -> bool),
             Forall2 (fun r r' => test r = true -> test r' = true) repos repos' ->
             rnd (inject_Z (sum (map (fun r => if test r then 1%Z else 0%Z) repos))
                  / inject_Z (len repos))
             <= rnd (inject_Z (sum (map (fun r => if test r then 1%Z else 0%Z) repos'))
                     / inject_Z (len repos))).
  { intros test HT. apply rnd_mono.
    apply Qmult_le_compat_r; [| apply Qlt_le_weak; now apply Qinv_lt_0_compat].
    rewrite <- Zle_Qle. now apply share_mono. }
  assert (One : forall (test : Repo.t -> bool),
             Forall (fun r => test r = true) repos ->
             rnd (inject_Z (sum (map (fun r => if test r then 1%Z else 0%Z) repos))
                  / inject_Z (len repos)) = 1).
  { intros test HT. rewrite (share_all test repos HT), <- rnd_1.
    apply rnd_comp. field. lra. }
  assert (Zero : forall (test : Repo.t -> bool),
             Forall (fun r => test r = false) repos ->
             rnd (inject_Z (sum (map (fun r => if test r then 1%Z else 0%Z) repos))
                  / inject_Z (len repos)) = 0).
  { intros test HT. rewrite (share_none test repos HT). apply rnd_zero.
    change (inject_Z 0) with 0. field. lra. }
  split; [| split].
  - apply fadd_mono; [apply fadd_mono |];
      (apply fmul_mono; [apply lit_nonneg; discriminate |]); apply M;
      (eapply Forall2_impl; [exact H |]); intros r r' D; apply D.
  - intros A.
    assert (W : Forall (fun r => Repo.has_wiki r = true) repos)
      by (eapply List.Forall_impl; [| exact A]; intros r D; apply D).
    assert (D2 : Forall (fun r => Snapshot.well_described r = true) repos)
      by (eapply List.Forall_impl; [| exact A]; intros r D; apply D).
    assert (D1 : Forall (fun r => Snapshot.described r = true) repos).
    { eapply List.Forall_impl; [| exact D2]. intros r D.
      unfold Snapshot.well_described in D. now apply andb_true_iff in D. }
    rewrite (One _ W), (One _ D1), (One _ D2). vm_compute. reflexivity.
  - intros A.
    assert (W : Forall (fun r => Repo.has_wiki r = false) repos)
      by (eapply List.Forall_impl; [| exact A]; intros r D; apply D).
    assert (D1 : Forall (fun r => Snapshot.described r = false) repos)
      by (eapply List.Forall_impl; [| exact A]; intros r D; apply D).
    assert (D2 : Forall (fun r => Snapshot.well_described r = false) repos).
    { eapply List.Forall_impl; [| exact D1]. intros r D.
      unfold Snapshot.well_described. unfold Snapshot.described in D. now rewrite D. }
    rewrite (Zero _ W), (Zero _ D1), (Zero _ D2). vm_compute. reflexivity.
Qed.

Lemma documentation_rewards_documenting_witness :
  exists v v',
    _calculate_documentation_metric [Examples.go_repo Examples.noon] = Ok v
    /\ _calculate_documentation_metric [Examples.kept_repo "Go" "cli" "http"] = Ok v'
    /\ v <= v'
    /\ (Forall (fun r => Repo.has_wiki r = true /\ Snapshot.well_described r = true)
          [Examples.go_repo Examples.noon] -> v = 1)
    /\ (Forall (fun r => Repo.has_wiki r = false /\ Snapshot.described r = false)
          [Examples.go_repo Examples.noon] -> v = 0).
Proof.
  apply documentation_rewards_documenting; [discriminate |].
  constructor; [| constructor]. repeat split; intros C; discriminate C.
Defined.

(** *** Community *)

Lemma ratio_capped a b x :
  (0 < b)%Z -> (b <= a)%Z -> ratio a b = Ok x -> x = 1.
Proof.
  intros Hb Ha. unfold ratio.
  destruct (truediv a b) as [q |] eqn:E; [| discriminate].
  cbn [bind]. intros H. apply ok_inj in H. subst x.
  destruct (truediv_sound a b q E) as [-> _]; [lia | lia |].
  assert (Qb : 0 < inject_Z b) by (rewrite <- (Zlt_Qlt 0); exact Hb).
  assert (Q1 : 1 <= inject_Z a / inject_Z b).
  { apply Qle_shift_div_l; [exact Qb |]. rewrite Qmult_1_l, <- Zle_Qle. exact Ha. }
  apply rnd_mono in Q1. rewrite rnd_1 in Q1.
  destruct (min_cases (rnd (inject_Z a / inject_Z b)) 1) as [[L ->] | [_ ->]];
    [| reflexivity].
  rewrite <- rnd_1, <- (rnd_idem (inject_Z a / inject_Z b)).
  apply rnd_comp. now apply Qle_antisym.
Qed.

(** X13.  More followers and more accounts followed never lower the community
    metric, and beyond 100 followers and 50 accounts followed they no
    longer raise it: for the same repositories and two profiles, the
    second with at least the counts of the first, the metric of the second
    is at least that of the first, and the two are equal when the first
    has reached both caps. *)
Theorem community_grows_up_to_the_caps :
  forall profile profile' repos c c',
    (0 <= get (Profile.followers profile) 0 <= get (Profile.followers profile') 0)%Z ->
    (0 <= get (Profile.following profile) 0 <= get (Profile.following profile') 0)%Z ->
    _calculate_community_metric profile repos = Ok c ->
    _calculate_community_metric profile' repos = Ok c' ->
    c <= c'
    /\ ((100 <= get (Profile.followers profile) 0)%Z ->
        (50 <= get (Profile.following profile) 0)%Z -> c = c').
Proof.
  intros profile profile' repos c c' Hf Hg. unfold _calculate_community_metric.
  destruct (ratio (get (Profile.followers profile) 0%Z) 100) as [f |] eqn:Ef;
    [| discriminate].
  destruct (ratio (get (Profile.following profile) 0%Z) 50) as [g |] eqn:Eg;
    [| discriminate].
  destruct (ratio (get (Profile.followers profile') 0%Z) 100) as [f' |] eqn:Ef';
    [| discriminate].
  destruct (ratio (get (Profile.following profile') 0%Z) 50) as [g' |] eqn:Eg';
    [| discriminate].
  cbn [bind].
  destruct (if nonempty repos then ratio _ (len repos * 5) else Ok 0) as [k |];
    [| discriminate].
  destruct (if nonempty repos then ratio _ (len repos) else Ok 0) as [l |];
    [| discriminate].
  cbn [bind]. intros E E'. apply ok_inj in E. apply ok_inj in E'. subst c c'.
  split.
  - assert (Lf : f <= f') by (eapply ratio_mono; [| | exact Ef | exact Ef']; lia).
    assert (Lg : g <= g') by (eapply ratio_mono; [| | exact Eg | exact Eg']; lia).
    repeat match goal with
           | |- fadd _ _ <= fadd _ _ => apply fadd_mono
           | |- fmul ?x (lit _) <= fmul ?x (lit _) => apply Qle_refl
           | |- fmul _ (lit _) <= fmul _ (lit _) =>
               apply fmul_mono; [apply lit_nonneg; discriminate | assumption]
           end.
  - intros Cf Cg.
    assert (P100 : (0 < 100)%Z) by lia. assert (P50 : (0 < 50)%Z) by lia.
    assert (Cf' : (100 <= get (Profile.followers profile') 0)%Z) by lia.
    assert (Cg' : (50 <= get (Profile.following profile') 0)%Z) by lia.
    rewrite (ratio_capped _ _ _ P100 Cf Ef), (ratio_capped _ _ _ P50 Cg Eg).
    now rewrite (ratio_capped _ _ _ P100 Cf' Ef'), (ratio_capped _ _ _ P50 Cg' Eg').
Qed.

Lemma community_grows_up_to_the_caps_witness :
  exists c c',
    _calculate_community_metric Examples.newcomer Examples.kept_repos = Ok c
    /\ _calculate_community_metric Examples.maintainer Examples.kept_repos = Ok c'
    /\ c <= c'.
Proof.
  eexists. eexists.
  eassert (E : _calculate_community_metric Examples.newcomer Examples.kept_repos = Ok _)
    by (vm_compute; reflexivity).
  eassert (E' : _calculate_community_metric Examples.maintainer Examples.kept_repos = Ok _)
    by (vm_compute; reflexivity).
  split; [exact E |]. split; [exact E' |].
  apply (community_grows_up_to_the_caps Examples.newcomer Examples.maintainer
           Examples.kept_repos _ _); [vm_compute | vm_compute | exact E | exact E'];
    split; discriminate.
Defined.

(** *** Code quality *)

Lemma code_quality_value repos v :
  repos <> [] -> (len repos < 2 ^ 52)%Z ->
  (0 <= sum (map Repo.stargazers_count repos))%Z ->
  _calculate_code_quality_metric repos = Ok v ->
  v = fadd (fadd (fmul (min (rnd (rnd (inject_Z (sum (map Repo.stargazers_count repos))
                                       / inject_Z (len repos)) / 10)) 1) (lit 0.4))
                 (fmul (rnd (inject_Z (count Repo.has_issues repos)
                             / inject_Z (len repos))) (lit 0.3)))
           (fmul (Snapshot.size_score repos) (lit 0.3)).
Proof.
  intros NE B S0. unfold _calculate_code_quality_metric.
  destruct (size_score_exact repos NE B) as (st & E1 & E2).
  assert (L : (0 < len repos)%Z).
  { destruct repos; [congruence |]. rewrite len_cons. pose proof (len_nonneg repos). lia. }
  destruct repos as [| r0 repos0]; [congruence |]. cbn [nonempty negb].
  remember (r0 :: repos0) as repos eqn:R.
  destruct (truediv _ (len repos)) as [avg |] eqn:Ea; [| discriminate].
  destruct (truediv_sound _ _ _ Ea S0 L) as [-> _].
  cbn [bind]. rewrite E1. cbn [bind]. rewrite E2. cbn [bind].
  rewrite to_float_10. cbn [bind]. unfold fdiv.
  change (Qeq_bool 10 0) with false. cbn [bind].
  destruct (truediv_fraction (count Repo.has_issues repos) (len repos)) as [Ei _];
    [apply count_bounds | exact L |].
  rewrite Ei. cbn [bind]. intros H. apply ok_inj in H. now subst v.
Qed.

Lemma sum_map_mono {A} (R : A -> A -> Prop) (f : A -> Z) l l' :
  (forall a a', R a a' -> (f a <= f a')%Z) ->
  Forall2 R l l' -> (sum (map f l) <= sum (map f l'))%Z.
Proof.
  intros HR. induction 1 as [| a a' l l' H _ IH]; [reflexivity |].
  cbn [map]. rewrite !sum_cons. specialize (HR _ _ H). lia.
Qed.

(** X14.  Repositories that are kept at least as well never have a lower code
    quality metric: for fewer than 2^52 repositories, if those of one
    collection have, one by one, at least the stars of those of another,
    issues enabled where the other has them, and a size class at least
    as good (below 1000, below 5000, larger), the metric of the first
    collection is at least that of the other. *)
Theorem code_quality_rewards_upkeep :
  forall repos repos' v v',
    repos <> [] -> (len repos < 2 ^ 52)%Z ->
    Forall2 Snapshot.kept_no_worse repos repos' ->
    _calculate_code_quality_metric repos = Ok v ->
    _calculate_code_quality_metric repos' = Ok v' ->
    v <= v'.
Proof.
  intros repos repos' v v' NE B H E E'.
  assert (NE' : repos' <> []) by (destruct H; [congruence | discriminate]).
  assert (EL : len repos' = len repos).
  { unfold len. f_equal. symmetry. eapply Forall2_length. exact H. }
  assert (L : (0 < len repos)%Z).
  { destruct repos; [congruence |]. rewrite len_cons. pose proof (len_nonneg repos). lia. }
  assert (QL : 0 < inject_Z (len repos)) by (rewrite <- (Zlt_Qlt 0); exact L).
  assert (IL : 0 <= / inject_Z (len repos))
    by (apply Qlt_le_weak; now apply Qinv_lt_0_compat).
  assert (S0 : (0 <= sum (map Repo.stargazers_count repos))%Z).
  { apply sum_nonneg. clear - H.
    induction H as [| r r' l l' K _ IH]; cbn [map]; constructor; [apply K | exact IH]. }
  assert (S1 : (sum (map Repo.stargazers_count repos)
                <= sum (map Repo.stargazers_count repos'))%Z).
  { apply (sum_map_mono Snapshot.kept_no_worse); [| exact H]. intros a a' K. apply K. }
  assert (I1 : (count Repo.has_issues repos <= count Repo.has_issues repos')%Z).
  { rewrite !count_len, !len_filter. apply share_mono.
    eapply Forall2_impl; [exact H |]. intros r r' K. apply K. }
  assert (H1 : (sum (map Snapshot.half_points repos)
                <= sum (map Snapshot.half_points repos'))%Z).
  { apply (sum_map_mono Snapshot.kept_no_worse); [| exact H]. intros a a' K. apply K. }
  rewrite (code_quality_value repos v NE B S0 E).
  rewrite (code_quality_value repos' v' NE' ltac:(now rewrite EL) ltac:(lia) E').
  unfold Snapshot.size_score. rewrite EL.
  assert (Q2 : 0 <= / inject_Z (2 * len repos)).
  { apply Qlt_le_weak, Qinv_lt_0_compat. rewrite <- (Zlt_Qlt 0). lia. }
  apply fadd_mono; [apply fadd_mono |];
    (apply fmul_mono; [apply lit_nonneg; discriminate |]).
  - apply min_mono, rnd_mono. apply Qmult_le_compat_r; [| discriminate].
    apply rnd_mono. apply Qmult_le_compat_r; [| exact IL]. now rewrite <- Zle_Qle.
  - apply rnd_mono. apply Qmult_le_compat_r; [| exact IL]. now rewrite <- Zle_Qle.
  - apply rnd_mono. apply Qmult_le_compat_r; [| exact Q2]. now rewrite <- Zle_Qle.
Qed.

Lemma code_quality_rewards_upkeep_witness :
  exists v v',
    _calculate_code_quality_metric [Examples.go_repo Examples.noon] = Ok v
    /\ _calculate_code_quality_metric [Examples.kept_repo "Go" "cli" "http"] = Ok v'
    /\ v <= v'.
Proof.
  eexists. eexists.
  eassert (E : _calculate_code_quality_metric [Examples.go_repo Examples.noon] = Ok _)
    by (vm_compute; reflexivity).
  eassert (E' : _calculate_code_quality_metric [Examples.kept_repo "Go" "cli" "http"]
                = Ok _)
    by (vm_compute; reflexivity).
  split; [exact E |]. split; [exact E' |].
  apply (code_quality_rewards_upkeep [Examples.go_repo Examples.noon]
           [Examples.kept_repo "Go" "cli" "http"] _ _);
    [discriminate | vm_compute; reflexivity | | exact E | exact E'].
  constructor; [| constructor].
  split; [vm_compute; split; discriminate |].
  split; [intros C; discriminate C | vm_compute; discriminate].
Defined.

(** *** Well-formed data is always analysed *)

Lemma bundle_fields api (now : clock) username i b j :
  analyze_profile api now username i = (Ok b, j) ->
  exists score recommendations,
    _calculate_score (Bundle.metrics b) = Ok score
    /\ _get_recommendations (Bundle.metrics b) = Ok recommendations
    /\ Bundle.score b = round2 score
    /\ Bundle.strengths b = _get_strengths (Bundle.metrics b)
    /\ Bundle.weaknesses b = _get_weaknesses (Bundle.metrics b)
    /\ Bundle.recommendations b = recommendations
    /\ Bundle.appreciation b = _get_appreciation score.
Proof.
  intros H.
  destruct (analyze_profile_ok _ _ _ _ _ _ H)
    as (profile & repos & contributions & metrics & score & recs
        & _ & _ & _ & _ & _ & Hs & Hr & ->).
  exists score, recs. cbn [Bundle.metrics Bundle.score Bundle.strengths
                            Bundle.weaknesses Bundle.recommendations
                            Bundle.appreciation].
  repeat split; assumption.
Qed.

Lemma score_range a d c doc cq :
  unit_float a -> unit_float d -> unit_float c -> unit_float doc -> unit_float cq ->
  0 <= round2 (fmul (Spec.weighted_sum a d c doc cq) 10)
  /\ round2 (fmul (Spec.weighted_sum a d c doc cq) 10) <= 10.
Proof.
  intros (A0 & A1 & _) (D0 & D1 & _) (C0 & C1 & _) (O0 & O1 & _) (Q0 & Q1 & _).
  destruct (weighted_sum_bounds a d c doc cq (conj A0 A1) (conj D0 D1) (conj C0 C1)
              (conj O0 O1) (conj Q0 Q1)) as [L U].
  split.
  - apply round2_nonneg, fmul_nonneg; [exact L | discriminate].
  - eapply Qle_trans.
    + apply round2_mono. apply fmul_mono; [discriminate | exact U].
    + qle_compute.
Qed.

(** X15.  The analysis cannot fail on data that has the shape of the
    data model.  Suppose the three fetches answer, and the data are as
    the record types [Profile.t], [Repo.t] and [Event.t] have them:
    every repository carries the keys [updated_at], [forks_count],
    [fork], [has_wiki], [description], [stargazers_count], [has_issues]
    and [size], and every event the key [created_at], with integers for
    the counts and the size, booleans for the three flags, a string or
    null for the description, and time stamps that
    [datetime.fromisoformat] parses, once the [Z] is removed, into a date
    without a time zone; [followers], [following] and [topics], where
    present, are integers and a list of strings.  Suppose further that
    every repository has a [language] key, that there is at least one
    repository, that counts and sizes are not negative, and that the
    integers converted to float are below 2^1023.  Then [analyze_profile]
    returns a bundle, its score is between 0 and 10, and each of its
    three lists has from one to five entries. *)
Theorem well_formed_data_is_analysed :
  forall (now : clock) profile repos contributions username i,
    Spec.conforms profile repos ->
    Forall (fun r => Repo.language r <> None) repos ->
    in_float_range profile repos contributions ->
    exists b,
      fst (analyze_profile (GitHubAPI.frozen profile repos contributions)
             now username i) = Ok b
      /\ 0 <= Bundle.score b /\ Bundle.score b <= 10
      /\ (1 <= length (Bundle.strengths b) <= 5)%nat
      /\ (1 <= length (Bundle.weaknesses b) <= 5)%nat
      /\ (1 <= length (Bundle.recommendations b) <= 5)%nat.
Proof.
  intros now profile repos contributions username i (HP & HR & NE) HL HB.
  destruct (metrics_unit now profile repos contributions i HP HR HL HB)
    as (a & d & c & doc & cq & j & E & Ua & Ud & Uc & Udoc & Ucq).
  destruct (proj1 (analysis_follows_metrics profile repos contributions now username i NE)
              _ _ E) as (b & Eb & Em).
  exists b. split; [now rewrite Eb |].
  destruct (bundle_fields _ _ _ _ _ _ Eb)
    as (score & recs & Hs & Hr & Sc & St & Wk & Rc & _).
  rewrite Em in Hs, Hr, St, Wk. rewrite Sc, St, Wk, Rc.
  rewrite score_value in Hs. apply ok_inj in Hs. subst score.
  destruct (score_range a d c doc cq Ua Ud Uc Udoc Ucq) as [B0 B1].
  destruct (feedback_sizes a d c doc cq) as (S & W & recs' & Hr' & Rl).
  rewrite Hr in Hr'. apply ok_inj in Hr'. subst recs'.
  split; [exact B0 |]. split; [exact B1 |]. split; [exact S |]. split; [exact W | exact Rl].
Qed.

Lemma well_formed_data_is_analysed_witness :
  exists b,
    fst (analyze_profile
           (GitHubAPI.frozen Examples.maintainer Examples.kept_repos Examples.busy_month)
           Examples.ticking "octocat" 0%nat) = Ok b
    /\ 0 <= Bundle.score b /\ Bundle.score b <= 10
    /\ (1 <= length (Bundle.strengths b) <= 5)%nat
    /\ (1 <= length (Bundle.weaknesses b) <= 5)%nat
    /\ (1 <= length (Bundle.recommendations b) <= 5)%nat.
Proof.
  apply (well_formed_data_is_analysed Examples.ticking Examples.maintainer
           Examples.kept_repos Examples.busy_month "octocat" 0%nat).
  - unfold Spec.conforms, Spec.profile_conforms.
    split; [split; vm_compute; discriminate |].
    split; [repeat constructor; vm_compute; discriminate | discriminate].
  - repeat constructor; discriminate.
  - repeat split; vm_compute; reflexivity || discriminate.
Defined.

(** *** The animated label *)

Lemma below_threshold' x y : Qle_bool x y = false -> y < x.
Proof.
  intros B. apply Qnot_le_lt. intros C. apply Qle_bool_iff in C. congruence.
Qed.

(** X16.  Whatever position between 0 and 1 the animation has reached, the
    three stops of the gradient are positions between 0 and 1, in
    increasing order: the label never asks for a stop outside the
    range a gradient accepts. *)
Theorem gradient_stops_are_valid :
  forall gradient_pos,
    unit_float gradient_pos ->
    exists before after,
      map fst (AnimatedLabel.stops gradient_pos) = [before; gradient_pos; after]
      /\ 0 <= before /\ before <= gradient_pos /\ gradient_pos <= after /\ after <= 1.
Proof.
  intros p (L & U & F).
  exists (AnimatedLabel.max (lit 0.0) (AnimatedLabel.fsub p (lit 0.5))),
    (min (lit 1.0) (fadd p (lit 0.5))).
  split; [reflexivity |].
  assert (Z0 : lit 0.0 = 0) by (vm_compute; reflexivity).
  assert (O1 : lit 1.0 = 1) by (vm_compute; reflexivity).
  assert (H : 0 <= lit 0.5) by (apply lit_nonneg; discriminate).
  assert (D : AnimatedLabel.fsub p (lit 0.5) <= p).
  { unfold AnimatedLabel.fsub. rewrite <- F at 2. apply rnd_mono. lra. }
  assert (A : p <= fadd p (lit 0.5)).
  { unfold fadd. rewrite <- F at 1. apply rnd_mono. lra. }
  rewrite Z0, O1. unfold AnimatedLabel.max, min.
  destruct (Qle_bool (AnimatedLabel.fsub p (lit 0.5)) 0) eqn:B1;
    destruct (Qle_bool 1 (fadd p (lit 0.5))) eqn:B2;
    try apply Qle_bool_iff in B1; try apply Qle_bool_iff in B2;
    try apply below_threshold' in B1; try apply below_threshold' in B2;
    repeat split; lra.
Qed.

Lemma gradient_stops_are_valid_witness :
  exists before after,
    map fst (AnimatedLabel.stops (lit 0.25)) = [before; lit 0.25; after]
    /\ 0 <= before /\ before <= lit 0.25 /\ lit 0.25 <= after /\ after <= 1.
Proof.
  apply gradient_stops_are_valid.
  split; [| split].
  - apply Qle_bool_iff. vm_compute. reflexivity.
  - apply Qle_bool_iff. vm_compute. reflexivity.
  - apply lit_float.
Defined.

(** *** The results page *)

Lemma appreciation_tier s :
  (_get_appreciation s = _get_appreciation 8 -> 8 <= s)
  /\ (_get_appreciation s = _get_appreciation 0 -> s < 4).
Proof.
  unfold _get_appreciation at 1 3.
  destruct (Qle_bool 8 s) eqn:B8; [| destruct (Qle_bool 6 s) eqn:B6;
                                      [| destruct (Qle_bool 4 s) eqn:B4]].
  - split; [intros _; now apply Qle_bool_iff | intros C; vm_compute in C; discriminate C].
  - split; intros C; vm_compute in C; discriminate C.
  - split; intros C; vm_compute in C; discriminate C.
  - split; [intros C; vm_compute in C; discriminate C |].
    intros _. apply Qnot_le_lt. intros C. apply Qle_bool_iff in C. congruence.
Qed.

(** X17.  On the results page the score of an analysis is shown in green
    whenever the message is that of the top tier, and in red whenever it
    is that of the lowest tier: rounding the score to two decimals cannot
    take it below 8 in the first case or up to 5 in the second.  The
    message label carries the message of the bundle. *)
Theorem colour_agrees_with_message :
  forall api (now : clock) username i b j,
    analyze_profile api now username i = (Ok b, j) ->
    let page := ResultsPage.display_results (Results.of_bundle b) in
    (Bundle.appreciation b = _get_appreciation 8 ->
     ResultsPage.score_label page = ResultsPage.score_html "#2ea44f" (Bundle.score b))
    /\ (Bundle.appreciation b = _get_appreciation 0 ->
        ResultsPage.score_label page = ResultsPage.score_html "#cb2431" (Bundle.score b))
    /\ ResultsPage.appreciation_label page
       = ResultsPage.appreciation_html (Bundle.appreciation b).
Proof.
  intros api now username i b j H.
  destruct (analyze_profile_ok _ _ _ _ _ _ H)
    as (profile & repos & contributions & metrics & score & recs
        & _ & _ & _ & _ & _ & _ & _ & ->).
  cbn [Results.of_bundle ResultsPage.display_results Bundle.score Bundle.appreciation
         Results.score Results.appreciation ResultsPage.score_label
         ResultsPage.appreciation_label get].
  destruct (appreciation_tier score) as [Top Low].
  split; [| split; [| reflexivity]].
  - intros A. apply Top in A. apply round2_mono in A.
    replace (round2 8) with 8 in A by (vm_compute; reflexivity).
    unfold ResultsPage.score_color. apply Qle_bool_iff in A. now rewrite A.
  - intros A. apply Low in A.
    assert (R : round2 score <= 4).
    { replace 4 with (round2 4) by (vm_compute; reflexivity).
      apply round2_mono. now apply Qlt_le_weak. }
    unfold ResultsPage.score_color.
    destruct (Qle_bool 8 (round2 score)) eqn:B8.
    { apply Qle_bool_iff in B8. lra. }
    destruct (Qle_bool 5 (round2 score)) eqn:B5.
    { apply Qle_bool_iff in B5. lra. }
    reflexivity.
Qed.

Lemma colour_agrees_with_message_witness :
  exists b,
    analyze_profile
      (GitHubAPI.frozen Examples.newcomer
         [Examples.go_repo (Examples.noon - timedelta 200)] [])
      Examples.still "octocat" 0%nat = (Ok b, 0%nat)
    /\ ResultsPage.score_label (ResultsPage.display_results (Results.of_bundle b))
       = ResultsPage.score_html "#cb2431" (lit 0.73).
Proof.
  eexists.
  eassert (E : analyze_profile
                 (GitHubAPI.frozen Examples.newcomer
                    [Examples.go_repo (Examples.noon - timedelta 200)] [])
                 Examples.still "octocat" 0%nat = (Ok _, _))
    by (vm_compute; reflexivity).
  split; [exact E |].
  destruct (colour_agrees_with_message _ _ _ _ _ _ E) as (_ & Low & _).
  rewrite Low; [| vm_compute; reflexivity].
  reflexivity.
Defined.

(** In the model a float is the number it denotes.  The lemma is used
    for the metrics the engine computes from non-negative counts. *)
Lemma bar_of_unit_metric :
  forall kind metric value,
    0 <= value -> value <= 1 ->
    let percentage := ResultsPage.int (fmul value 100) in
    (0 <= percentage <= 100)%Z
    /\ (exists listed,
          describe kind metric value
          = kind ++ " " ++ replace "_" " " metric ++ " (" ++ decimal listed ++ "%)"
          /\ (percentage <= listed <= percentage + 1)%Z)
    /\ (lit 0.7 <= value -> (70 <= percentage)%Z)
    /\ (value <= lit 0.3 -> (percentage <= 30)%Z).
Proof.
  intros kind metric value L U. cbn zeta.
  assert (P : 0 <= fmul value 100) by (apply fmul_nonneg; [exact L | discriminate]).
  assert (I : ResultsPage.int (fmul value 100) = Qfloor (fmul value 100)).
  { unfold ResultsPage.int. apply Qle_bool_iff in P. now rewrite P. }
  rewrite I.
  assert (F0 : (0 <= Qfloor (fmul value 100)%Q)%Z).
  { change 0%Z with (Qfloor 0). now apply Qfloor_resp_le. }
  assert (F1 : (Qfloor (fmul value 100)%Q <= 100)%Z).
  { replace 100%Z with (Qfloor (fmul 1 100)%Q) by (vm_compute; reflexivity).
    apply Qfloor_resp_le, fmul_mono; [discriminate | exact U]. }
  split; [lia |]. split; [| split].
  - exists (Float.rne (fmul value 100)).
    split; [| apply rne_floor].
    unfold describe, format_0f. apply Qle_bool_iff in P. rewrite P.
    cbn zeta. cbn [String.append].
    pose proof (rne_floor (fmul value 100)). now rewrite Z.abs_eq by lia.
  - intros S.
    replace 70%Z with (Qfloor (fmul (lit 0.7) 100)%Q) by (vm_compute; reflexivity).
    apply Qfloor_resp_le, fmul_mono; [discriminate | exact S].
  - intros W.
    replace 30%Z with (Qfloor (fmul (lit 0.3) 100)%Q) by (vm_compute; reflexivity).
    apply Qfloor_resp_le, fmul_mono; [discriminate | exact W].
Qed.

(** X18.  For every metric of an analysis of data that conforms to the
    data model, the width of its bar on the results page is a whole
    percentage from 0 to 100.  It is the percentage written in the lists
    of strengths and weaknesses or one below it, since the bar cuts the
    fraction off and the lists round it; it is at least 70 for a metric
    listed as strong and at most 30 for one listed as weak. *)
Theorem bar_and_listed_percentage :
  forall (now : clock) profile repos contributions username i b j kind metric value,
    Spec.conforms profile repos ->
    analyze_profile (GitHubAPI.frozen profile repos contributions) now username i
    = (Ok b, j) ->
    In (metric, value) (Bundle.metrics b) ->
    let percentage := ResultsPage.int (fmul value 100) in
    (0 <= percentage <= 100)%Z
    /\ (exists listed,
          describe kind metric value
          = kind ++ " " ++ replace "_" " " metric ++ " (" ++ decimal listed ++ "%)"
          /\ (percentage <= listed <= percentage + 1)%Z)
    /\ (lit 0.7 <= value -> (70 <= percentage)%Z)
    /\ (value <= lit 0.3 -> (percentage <= 30)%Z).
Proof.
  intros now profile repos contributions username i b j kind metric value HC H HI.
  destruct (analysed_metrics _ _ _ _ _ _ _ _ HC H) as (U & _ & _).
  rewrite List.Forall_forall in U. destruct (U _ HI) as [L1 L2].
  now apply bar_of_unit_metric.
Qed.

Lemma bar_and_listed_percentage_witness :
  exists b value,
    analyze_profile
      (GitHubAPI.frozen Examples.newcomer
         [Examples.go_repo (Examples.noon - timedelta 200)] [])
      Examples.still "octocat" 0%nat = (Ok b, 0%nat)
    /\ In ("diversity", value) (Bundle.metrics b)
    /\ ResultsPage.int (fmul value 100) = 13%Z
    /\ exists listed,
         describe "Weak" "diversity" value
         = "Weak" ++ " " ++ replace "_" " " "diversity" ++ " (" ++ decimal listed ++ "%)"
         /\ (ResultsPage.int (fmul value 100)%Q <= listed
             <= ResultsPage.int (fmul value 100)%Q + 1)%Z.
Proof.
  eexists. eexists.
  eassert (E : analyze_profile
                 (GitHubAPI.frozen Examples.newcomer
                    [Examples.go_repo (Examples.noon - timedelta 200)] [])
                 Examples.still "octocat" 0%nat = (Ok _, _))
    by (vm_compute; reflexivity).
  split; [exact E |].
  assert (C : Spec.conforms Examples.newcomer
                [Examples.go_repo (Examples.noon - timedelta 200)]).
  { unfold Spec.conforms, Spec.profile_conforms.
    split; [split; vm_compute; discriminate |].
    split; [repeat constructor; vm_compute; discriminate | discriminate]. }
  split; [cbn [Bundle.metrics In]; right; left; reflexivity |].
  split; [vm_compute; reflexivity |].
  refine (proj1 (proj2 (bar_and_listed_percentage _ _ _ _ _ _ _ _ "Weak" _ _ C E _))).
  cbn [Bundle.metrics In]. right. left. reflexivity.
Defined.

Lemma two_decimals_survive :
  forallb (fun k => (Float.rne (rnd (inject_Z k / 100) * 100)%Q =? k)%Z)
          (map Z.of_nat (seq 0 1001)) = true.
Proof. vm_compute. reflexivity. Qed.

(** X19.  The score label prints with two decimals a score that has already
    been rounded to two decimals.  For a score between 0 and 10 nothing
    is lost or changed by that: the label shows the digits of the raw
    score rounded once. *)
Theorem score_label_shows_the_rounded_score :
  forall color score,
    0 <= score -> score <= 10 ->
    ResultsPage.format_2f (round2 score) = ResultsPage.format_2f score
    /\ ResultsPage.score_html color (round2 score) = ResultsPage.score_html color score.
Proof.
  intros color score L U.
  assert (E : ResultsPage.format_2f (round2 score) = ResultsPage.format_2f score).
  { set (n := Float.rne (score * 100)).
    assert (N0 : (0 <= n)%Z).
    { unfold n. rewrite <- (rne_Z 0). apply rne_mono.
      change (inject_Z 0) with 0. nra. }
    assert (N1 : (n <= 1000)%Z).
    { unfold n. rewrite <- (rne_Z 1000). apply rne_mono.
      change (inject_Z 1000) with 1000. nra. }
    assert (K : Float.rne (rnd (inject_Z n / 100) * 100) = n).
    { pose proof two_decimals_survive as T. rewrite forallb_forall in T.
      apply Z.eqb_eq, T. rewrite <- (Z2Nat.id n N0). apply in_map, in_seq. lia. }
    assert (K' : Float.rne (round2 score * 100) = n) by exact K.
    unfold ResultsPage.format_2f. fold n. rewrite K'.
    assert (R0 : 0 <= round2 score) by now apply round2_nonneg.
    apply Qle_bool_iff in R0. apply Qle_bool_iff in L. now rewrite R0, L. }
  split; [exact E |]. unfold ResultsPage.score_html. now rewrite E.
Qed.

Lemma score_label_shows_the_rounded_score_witness :
  ResultsPage.format_2f (round2 (lit 7.996)) = ResultsPage.format_2f (lit 7.996)
  /\ ResultsPage.score_html "#2ea44f" (round2 (lit 7.996))
     = ResultsPage.score_html "#2ea44f" (lit 7.996).
Proof.
  apply score_label_shows_the_rounded_score; apply Qle_bool_iff; vm_compute; reflexivity.
Defined.

(** *** High and low scores are explained *)

Lemma around_threshold t v : t <= v \/ v <= t.
Proof. destruct (Qlt_le_dec v t) as [L | L]; [right; now apply Qlt_le_weak | now left]. Qed.

Lemma score_of_middling_metrics a d c doc cq :
  (a <= lit 0.7 -> d <= lit 0.7 -> c <= lit 0.7 -> doc <= lit 0.7 -> cq <= lit 0.7 ->
   round2 (fmul (Spec.weighted_sum a d c doc cq) 10) <= 7)
  /\ (lit 0.3 <= a -> lit 0.3 <= d -> lit 0.3 <= c -> lit 0.3 <= doc -> lit 0.3 <= cq ->
      3 <= round2 (fmul (Spec.weighted_sum a d c doc cq) 10)).
Proof.
  split; intros Ha Hd Hc Hdoc Hcq.
  - eapply Qle_trans.
    + apply round2_mono, fmul_mono; [discriminate |].
      apply (weighted_sum_monotone a d c doc cq
               (lit 0.7) (lit 0.7) (lit 0.7) (lit 0.7) (lit 0.7)); assumption.
    + qle_compute.
  - eapply Qle_trans.
    + assert (E : 3 <= round2 (fmul (Spec.weighted_sum (lit 0.3) (lit 0.3) (lit 0.3)
                                       (lit 0.3) (lit 0.3)) 10)) by qle_compute.
      exact E.
    + apply round2_mono, fmul_mono; [discriminate |].
      apply weighted_sum_monotone; assumption.
Qed.

(** X20.  A high score comes with a strength and a low one with a
    weakness.  When an analysis reports a score above 7, at least one
    metric is 0.7 or more and is listed as strong; when it reports a
    score below 3, at least one metric is 0.3 or less and is listed as
    weak.  In particular the top-tier message is never shown beside the
    placeholder for missing strengths. *)
Theorem extreme_scores_are_explained :
  forall api (now : clock) username i b j,
    analyze_profile api now username i = (Ok b, j) ->
    (7 < Bundle.score b ->
     exists name v,
       In (name, v) (Bundle.metrics b) /\ lit 0.7 <= v
       /\ In (describe "Strong" name v) (Bundle.strengths b))
    /\ (Bundle.score b < 3 ->
        exists name v,
          In (name, v) (Bundle.metrics b) /\ v <= lit 0.3
          /\ In (describe "Weak" name v) (Bundle.weaknesses b))
    /\ (Bundle.appreciation b = _get_appreciation 8 ->
        Bundle.strengths b <> ["No significant strengths identified"]).
Proof.
  intros api now username i b j H.
  destruct (analyze_profile_ok _ _ _ _ _ _ H)
    as (profile & repos & contributions & metrics & score & recs
        & _ & _ & _ & _ & Hm & _ & _ & Hb).
  destruct (metrics_shape _ _ _ _ _ _ _ Hm) as (a & d & c & doc & cq & Em).
  destruct (bundle_fields _ _ _ _ _ _ H)
    as (s & recs' & Hs & _ & Sc & St & Wk & _ & Ap).
  assert (Mb : Bundle.metrics b = Spec.metric_set a d c doc cq)
    by (rewrite Hb; exact Em).
  rewrite Mb in Hs, St, Wk. rewrite Mb.
  rewrite score_value in Hs. apply ok_inj in Hs. subst s.
  rewrite Sc, St, Wk, Ap. clear Hb Hm Em.
  destruct (score_of_middling_metrics a d c doc cq) as [Mid7 Mid3].
  assert (Strong : 7 < round2 (fmul (Spec.weighted_sum a d c doc cq) 10) ->
                   exists name v,
                     In (name, v) (Spec.metric_set a d c doc cq) /\ lit 0.7 <= v
                     /\ In (describe "Strong" name v)
                          (_get_strengths (Spec.metric_set a d c doc cq))).
  { intros High.
    assert (K : forall name v, In (name, v) (Spec.metric_set a d c doc cq) ->
                lit 0.7 <= v ->
                exists name v,
                  In (name, v) (Spec.metric_set a d c doc cq) /\ lit 0.7 <= v
                  /\ In (describe "Strong" name v)
                       (_get_strengths (Spec.metric_set a d c doc cq))).
    { intros name v HI Hv. exists name, v. split; [exact HI |]. split; [exact Hv |].
      now apply Claims.strengths_in. }
    destruct (around_threshold (lit 0.7) a) as [Ha | Ha];
      [apply (K "activity" a); [cbn; tauto | exact Ha] |].
    destruct (around_threshold (lit 0.7) d) as [Hd | Hd];
      [apply (K "diversity" d); [cbn; tauto | exact Hd] |].
    destruct (around_threshold (lit 0.7) c) as [Hc | Hc];
      [apply (K "community" c); [cbn; tauto | exact Hc] |].
    destruct (around_threshold (lit 0.7) doc) as [Hdoc | Hdoc];
      [apply (K "documentation" doc); [cbn; tauto | exact Hdoc] |].
    destruct (around_threshold (lit 0.7) cq) as [Hcq | Hcq];
      [apply (K "code_quality" cq); [cbn; tauto | exact Hcq] |].
    pose proof (Mid7 Ha Hd Hc Hdoc Hcq). lra. }
  split; [exact Strong |]. split.
  - intros Low.
    assert (K : forall name v, In (name, v) (Spec.metric_set a d c doc cq) ->
                v <= lit 0.3 ->
                exists name v,
                  In (name, v) (Spec.metric_set a d c doc cq) /\ v <= lit 0.3
                  /\ In (describe "Weak" name v)
                       (_get_weaknesses (Spec.metric_set a d c doc cq))).
    { intros name v HI Hv. exists name, v. split; [exact HI |]. split; [exact Hv |].
      now apply Claims.weaknesses_in. }
    destruct (around_threshold (lit 0.3) a) as [Ha | Ha];
      [| apply (K "activity" a); [cbn; tauto | exact Ha]].
    destruct (around_threshold (lit 0.3) d) as [Hd | Hd];
      [| apply (K "diversity" d); [cbn; tauto | exact Hd]].
    destruct (around_threshold (lit 0.3) c) as [Hc | Hc];
      [| apply (K "community" c); [cbn; tauto | exact Hc]].
    destruct (around_threshold (lit 0.3) doc) as [Hdoc | Hdoc];
      [| apply (K "documentation" doc); [cbn; tauto | exact Hdoc]].
    destruct (around_threshold (lit 0.3) cq) as [Hcq | Hcq];
      [| apply (K "code_quality" cq); [cbn; tauto | exact Hcq]].
    pose proof (Mid3 Ha Hd Hc Hdoc Hcq). lra.
  - intros Top. apply (proj1 (appreciation_tier _)) in Top.
    assert (High : 7 < round2 (fmul (Spec.weighted_sum a d c doc cq) 10)).
    { apply round2_mono in Top.
      replace (round2 8) with 8 in Top by (vm_compute; reflexivity). lra. }
    destruct (Strong High) as (name & v & _ & _ & HI).
    intros E. rewrite E in HI. destruct HI as [HI | []].
    unfold describe in HI. cbn [String.append] in HI. discriminate HI.
Qed.

Lemma extreme_scores_are_explained_witness :
  exists b,
    analyze_profile
      (GitHubAPI.frozen Examples.newcomer
         [Examples.go_repo (Examples.noon - timedelta 200)] [])
      Examples.still "octocat" 0%nat = (Ok b, 0%nat)
    /\ exists name v,
         In (name, v) (Bundle.metrics b) /\ v <= lit 0.3
         /\ In (describe "Weak" name v) (Bundle.weaknesses b).
Proof.
  eexists.
  eassert (E : analyze_profile
                 (GitHubAPI.frozen Examples.newcomer
                    [Examples.go_repo (Examples.noon - timedelta 200)] [])
                 Examples.still "octocat" 0%nat = (Ok _, _))
    by (vm_compute; reflexivity).
  split; [exact E |].
  apply (proj1 (proj2 (extreme_scores_are_explained _ _ _ _ _ _ E))).
  apply Qlt_alt. vm_compute. reflexivity.
Defined.

End Further.
